(** * Call-session logic of the peer-to-peer video calling page (script.js)

    The page script is a set of event handlers over a handful of
    script-level variables, the DOM elements it writes to, and the objects
    handed out by the browser and by the PeerJS client (media streams,
    tracks, [Peer], [MediaConnection]).  Each handler is embedded as a
    function on an explicit [state]; timers created with [setTimeout] and
    [setInterval] are kept in a queue of defunctionalised tasks; what the
    browser and the signalling library do on their own is an [event]. *)

From stdpp Require Import gmap strings list.
From Stdlib Require Import ZArith Lia.

Open Scope string_scope.
Open Scope list_scope.

(** ** Objects owned by the browser and by PeerJS *)

Inductive track_kind := Audio | Video.

#[global] Instance track_kind_eq_dec : EqDecision track_kind.
Proof. solve_decision. Defined.

(** A [MediaStreamTrack]: the script reads [kind] and reads and writes
    [enabled]. *)
Record track := mkTrack { t_kind : track_kind; t_enabled : bool }.

(** [RTCPeerConnection.iceConnectionState]. *)
Inductive ice_state :=
  IceNew | IceChecking | IceConnected | IceCompleted
| IceFailed | IceDisconnected | IceClosed.

#[global] Instance ice_state_eq_dec : EqDecision ice_state.
Proof. solve_decision. Defined.

(** An [RTCRtpSender]; [snd_track] is [sender.track], a reference into the
    track store, or [None] for a sender without a track. *)
Record sender := mkSender { snd_track : option nat }.

(** [call.peerConnection].  [pc_senders] is [None] when
    [typeof peerConnection.getSenders] is not ['function'], else the array
    [getSenders()] returns. *)
Record peer_connection := mkPc {
  pc_senders : option (list sender);
  pc_ice : ice_state
}.

(** A PeerJS [MediaConnection].  [c_timestamp] is the numeric value of
    [call.metadata?.timestamp], [None] when the metadata or its timestamp
    is absent.  [c_open] is the library's [open] flag: [close()] emits the
    ['close'] event to the registered handler only on an open connection.
    [c_closed] records that the handle is finished: [close()] was invoked
    on it, or the library delivered ['close'] or ['error'] for it.
    [c_local] is the stream handed to [peer.call] or [call.answer]. *)
Record call := mkCall {
  c_peer : string;
  c_timestamp : option Z;
  c_pc : option peer_connection;
  c_open : bool;
  c_closed : bool;
  c_local : option nat
}.

(** A PeerJS [Peer].  [p_id] is [peer.id]; [p_callable] says whether the
    library will hand out a [MediaConnection] on the next [peer.call]
    (it returns [undefined] otherwise). *)
Record peer_obj := mkPeer {
  p_id : option string;
  p_disconnected : bool;
  p_destroyed : bool;
  p_callable : bool
}.

(** ** Notifications, timers and library calls *)

Inductive ntype := Info | Success | Error.

(** The callbacks the script passes to [setTimeout] and [setInterval],
    with the variables each closure captures. *)
Inductive task :=
| THideNotification                  (* showNotification, 5000 *)
| TReconnect                         (* peer.on('disconnected'), 2000 *)
| TReinit                            (* peer.on('error'), 3000 *)
| TRetryConnect                      (* connectToPeer, 2000 *)
| TConnectionTimeout (c : nat)       (* handleCallStream, 30000 *)
| TConnectionCheck (c : nat)         (* handleCallStream, every 5000 *)
| TStallRedial (peerId : string)     (* health check, 2000 *)
| TReplaceRedial (peerId : string)   (* replaceCallWithNewStream, 1000 *)
| TCheckConnectivity.                (* top level, every 10000 *)

#[global] Instance task_eq_dec : EqDecision task.
Proof. solve_decision. Defined.

Record timer := mkTimer { due : Z; job : task }.

(** Calls into the library, newest first. *)
Inductive effect :=
| FxNewPeer (p : nat)
| FxDestroy (p : nat)
| FxReconnect (p : nat)
| FxCall (c : nat) (remote : string) (stream : option nat) (ts : option Z)
| FxCallRefused (remote : string)
| FxAnswer (c : nat) (stream : option nat)
| FxClose (c : nat)
| FxReplaceTrack (c : nat) (old : option nat) (new : nat)
| FxGetUserMedia
| FxGetDisplayMedia.

#[global] Instance effect_eq_dec : EqDecision effect.
Proof. solve_decision. Defined.

(** ** The state *)

Record Globals := mkGlobals {
  localStream : option nat;
  peer : option nat;
  currentCall : option nat;
  isAudioMuted : bool;
  isVideoOff : bool;
  isScreenSharing : bool;
  originalStream : option nat;
  reconnectAttempts : nat
}.

Record Page := mkPage {
  localVideo_src : option nat;
  remoteVideo_src : option nat;
  roomId_text : string;
  peerId_trimmed : string;
  status_text : string;
  status_class : string;
  muteBtn_text : string;
  videoBtn_text : string;
  screenShareBtn_text : string;
  mediaBtns_disabled : bool;
  endCallBtn_disabled : bool;
  note_visible : bool;
  notes : list (string * ntype)
}.

Record Heap := mkHeap {
  tracks : gmap nat track;
  streams : gmap nat (list nat);
  calls : gmap nat call;
  peers : gmap nat peer_obj;
  next_id : nat;
  onended : list nat;
  online : bool
}.

Record Loop := mkLoop {
  now : Z;
  timers : list timer;
  listeners : bool;
  awaiting_media : bool;
  awaiting_display : nat;
  awaiting_replace : nat;
  fx : list effect
}.

Record state := mkState { vars : Globals; page : Page; heap : Heap; loop : Loop }.

Definition set_vars (g : Globals) (st : state) : state := mkState g (page st) (heap st) (loop st).
Definition set_page (d : Page) (st : state) : state := mkState (vars st) d (heap st) (loop st).
Definition set_heap (h : Heap) (st : state) : state := mkState (vars st) (page st) h (loop st).
Definition set_loop (l : Loop) (st : state) : state := mkState (vars st) (page st) (heap st) l.

Definition set_localStream (v : option nat) (st : state) : state :=
  let r := vars st in set_vars (mkGlobals v (peer r) (currentCall r) (isAudioMuted r) (isVideoOff r) (isScreenSharing r) (originalStream r) (reconnectAttempts r)) st.
Definition set_peer (v : option nat) (st : state) : state :=
  let r := vars st in set_vars (mkGlobals (localStream r) v (currentCall r) (isAudioMuted r) (isVideoOff r) (isScreenSharing r) (originalStream r) (reconnectAttempts r)) st.
Definition set_currentCall (v : option nat) (st : state) : state :=
  let r := vars st in set_vars (mkGlobals (localStream r) (peer r) v (isAudioMuted r) (isVideoOff r) (isScreenSharing r) (originalStream r) (reconnectAttempts r)) st.
Definition set_isAudioMuted (v : bool) (st : state) : state :=
  let r := vars st in set_vars (mkGlobals (localStream r) (peer r) (currentCall r) v (isVideoOff r) (isScreenSharing r) (originalStream r) (reconnectAttempts r)) st.
Definition set_isVideoOff (v : bool) (st : state) : state :=
  let r := vars st in set_vars (mkGlobals (localStream r) (peer r) (currentCall r) (isAudioMuted r) v (isScreenSharing r) (originalStream r) (reconnectAttempts r)) st.
Definition set_isScreenSharing (v : bool) (st : state) : state :=
  let r := vars st in set_vars (mkGlobals (localStream r) (peer r) (currentCall r) (isAudioMuted r) (isVideoOff r) v (originalStream r) (reconnectAttempts r)) st.
Definition set_originalStream (v : option nat) (st : state) : state :=
  let r := vars st in set_vars (mkGlobals (localStream r) (peer r) (currentCall r) (isAudioMuted r) (isVideoOff r) (isScreenSharing r) v (reconnectAttempts r)) st.
Definition set_reconnectAttempts (v : nat) (st : state) : state :=
  let r := vars st in set_vars (mkGlobals (localStream r) (peer r) (currentCall r) (isAudioMuted r) (isVideoOff r) (isScreenSharing r) (originalStream r) v) st.

Definition set_localVideo_src (v : option nat) (st : state) : state :=
  let r := page st in set_page (mkPage v (remoteVideo_src r) (roomId_text r) (peerId_trimmed r) (status_text r) (status_class r) (muteBtn_text r) (videoBtn_text r) (screenShareBtn_text r) (mediaBtns_disabled r) (endCallBtn_disabled r) (note_visible r) (notes r)) st.
Definition set_remoteVideo_src (v : option nat) (st : state) : state :=
  let r := page st in set_page (mkPage (localVideo_src r) v (roomId_text r) (peerId_trimmed r) (status_text r) (status_class r) (muteBtn_text r) (videoBtn_text r) (screenShareBtn_text r) (mediaBtns_disabled r) (endCallBtn_disabled r) (note_visible r) (notes r)) st.
Definition set_roomId_text (v : string) (st : state) : state :=
  let r := page st in set_page (mkPage (localVideo_src r) (remoteVideo_src r) v (peerId_trimmed r) (status_text r) (status_class r) (muteBtn_text r) (videoBtn_text r) (screenShareBtn_text r) (mediaBtns_disabled r) (endCallBtn_disabled r) (note_visible r) (notes r)) st.
Definition set_peerId_trimmed (v : string) (st : state) : state :=
  let r := page st in set_page (mkPage (localVideo_src r) (remoteVideo_src r) (roomId_text r) v (status_text r) (status_class r) (muteBtn_text r) (videoBtn_text r) (screenShareBtn_text r) (mediaBtns_disabled r) (endCallBtn_disabled r) (note_visible r) (notes r)) st.
Definition set_status_text (v : string) (st : state) : state :=
  let r := page st in set_page (mkPage (localVideo_src r) (remoteVideo_src r) (roomId_text r) (peerId_trimmed r) v (status_class r) (muteBtn_text r) (videoBtn_text r) (screenShareBtn_text r) (mediaBtns_disabled r) (endCallBtn_disabled r) (note_visible r) (notes r)) st.
Definition set_status_class (v : string) (st : state) : state :=
  let r := page st in set_page (mkPage (localVideo_src r) (remoteVideo_src r) (roomId_text r) (peerId_trimmed r) (status_text r) v (muteBtn_text r) (videoBtn_text r) (screenShareBtn_text r) (mediaBtns_disabled r) (endCallBtn_disabled r) (note_visible r) (notes r)) st.
Definition set_muteBtn_text (v : string) (st : state) : state :=
  let r := page st in set_page (mkPage (localVideo_src r) (remoteVideo_src r) (roomId_text r) (peerId_trimmed r) (status_text r) (status_class r) v (videoBtn_text r) (screenShareBtn_text r) (mediaBtns_disabled r) (endCallBtn_disabled r) (note_visible r) (notes r)) st.
Definition set_videoBtn_text (v : string) (st : state) : state :=
  let r := page st in set_page (mkPage (localVideo_src r) (remoteVideo_src r) (roomId_text r) (peerId_trimmed r) (status_text r) (status_class r) (muteBtn_text r) v (screenShareBtn_text r) (mediaBtns_disabled r) (endCallBtn_disabled r) (note_visible r) (notes r)) st.
Definition set_screenShareBtn_text (v : string) (st : state) : state :=
  let r := page st in set_page (mkPage (localVideo_src r) (remoteVideo_src r) (roomId_text r) (peerId_trimmed r) (status_text r) (status_class r) (muteBtn_text r) (videoBtn_text r) v (mediaBtns_disabled r) (endCallBtn_disabled r) (note_visible r) (notes r)) st.
Definition set_mediaBtns_disabled (v : bool) (st : state) : state :=
  let r := page st in set_page (mkPage (localVideo_src r) (remoteVideo_src r) (roomId_text r) (peerId_trimmed r) (status_text r) (status_class r) (muteBtn_text r) (videoBtn_text r) (screenShareBtn_text r) v (endCallBtn_disabled r) (note_visible r) (notes r)) st.
Definition set_endCallBtn_disabled (v : bool) (st : state) : state :=
  let r := page st in set_page (mkPage (localVideo_src r) (remoteVideo_src r) (roomId_text r) (peerId_trimmed r) (status_text r) (status_class r) (muteBtn_text r) (videoBtn_text r) (screenShareBtn_text r) (mediaBtns_disabled r) v (note_visible r) (notes r)) st.
Definition set_note_visible (v : bool) (st : state) : state :=
  let r := page st in set_page (mkPage (localVideo_src r) (remoteVideo_src r) (roomId_text r) (peerId_trimmed r) (status_text r) (status_class r) (muteBtn_text r) (videoBtn_text r) (screenShareBtn_text r) (mediaBtns_disabled r) (endCallBtn_disabled r) v (notes r)) st.
Definition set_notes (v : list (string * ntype)) (st : state) : state :=
  let r := page st in set_page (mkPage (localVideo_src r) (remoteVideo_src r) (roomId_text r) (peerId_trimmed r) (status_text r) (status_class r) (muteBtn_text r) (videoBtn_text r) (screenShareBtn_text r) (mediaBtns_disabled r) (endCallBtn_disabled r) (note_visible r) v) st.

Definition set_tracks (v : gmap nat track) (st : state) : state :=
  let r := heap st in set_heap (mkHeap v (streams r) (calls r) (peers r) (next_id r) (onended r) (online r)) st.
Definition set_streams (v : gmap nat (list nat)) (st : state) : state :=
  let r := heap st in set_heap (mkHeap (tracks r) v (calls r) (peers r) (next_id r) (onended r) (online r)) st.
Definition set_calls (v : gmap nat call) (st : state) : state :=
  let r := heap st in set_heap (mkHeap (tracks r) (streams r) v (peers r) (next_id r) (onended r) (online r)) st.
Definition set_peers (v : gmap nat peer_obj) (st : state) : state :=
  let r := heap st in set_heap (mkHeap (tracks r) (streams r) (calls r) v (next_id r) (onended r) (online r)) st.
Definition set_next_id (v : nat) (st : state) : state :=
  let r := heap st in set_heap (mkHeap (tracks r) (streams r) (calls r) (peers r) v (onended r) (online r)) st.
Definition set_onended (v : list nat) (st : state) : state :=
  let r := heap st in set_heap (mkHeap (tracks r) (streams r) (calls r) (peers r) (next_id r) v (online r)) st.
Definition set_online (v : bool) (st : state) : state :=
  let r := heap st in set_heap (mkHeap (tracks r) (streams r) (calls r) (peers r) (next_id r) (onended r) v) st.

Definition set_now (v : Z) (st : state) : state :=
  let r := loop st in set_loop (mkLoop v (timers r) (listeners r) (awaiting_media r) (awaiting_display r) (awaiting_replace r) (fx r)) st.
Definition set_timers (v : list timer) (st : state) : state :=
  let r := loop st in set_loop (mkLoop (now r) v (listeners r) (awaiting_media r) (awaiting_display r) (awaiting_replace r) (fx r)) st.
Definition set_listeners (v : bool) (st : state) : state :=
  let r := loop st in set_loop (mkLoop (now r) (timers r) v (awaiting_media r) (awaiting_display r) (awaiting_replace r) (fx r)) st.
Definition set_awaiting_media (v : bool) (st : state) : state :=
  let r := loop st in set_loop (mkLoop (now r) (timers r) (listeners r) v (awaiting_display r) (awaiting_replace r) (fx r)) st.
Definition set_awaiting_display (v : nat) (st : state) : state :=
  let r := loop st in set_loop (mkLoop (now r) (timers r) (listeners r) (awaiting_media r) v (awaiting_replace r) (fx r)) st.
Definition set_awaiting_replace (v : nat) (st : state) : state :=
  let r := loop st in set_loop (mkLoop (now r) (timers r) (listeners r) (awaiting_media r) (awaiting_display r) v (fx r)) st.
Definition set_fx (v : list effect) (st : state) : state :=
  let r := loop st in set_loop (mkLoop (now r) (timers r) (listeners r) (awaiting_media r) (awaiting_display r) (awaiting_replace r) v) st.

(** ** Constants *)

Definition MAX_RECONNECT_ATTEMPTS : nat := 3.

(** One time-unit of the specification is 1000 ms of the script. *)
Definition time_unit : Z := 1000.

Definition NOTIFICATION_MS : Z := 5000.
Definition RECONNECT_DELAY_MS : Z := 2000.
Definition REINIT_DELAY_MS : Z := 3000.
Definition RETRY_CONNECT_MS : Z := 2000.
Definition CONNECTION_TIMEOUT_MS : Z := 30000.
Definition CONNECTION_CHECK_MS : Z := 5000.
Definition STALL_GRACE_MS : Z := 10000.
Definition STALL_REDIAL_MS : Z := 2000.
Definition REPLACE_REDIAL_MS : Z := 1000.
Definition CONNECTIVITY_CHECK_MS : Z := 10000.

(** ** Timer queue *)

Definition setTimer (delay : Z) (k : task) (st : state) : state :=
  set_timers (timers (loop st) ++ [mkTimer (now (loop st) + delay) k]) st.

(** [clearTimeout] / [clearInterval] on the one timer that runs [k]. *)
Definition clearTimer (k : task) (st : state) : state :=
  set_timers (filter (λ t, job t ≠ k) (timers (loop st))) st.

Definition pending (k : task) (st : state) : bool :=
  bool_decide (Exists (λ t, job t = k) (timers (loop st))).

Definition emit (e : effect) (st : state) : state :=
  set_fx (e :: fx (loop st)) st.

(** ** showNotification *)

Definition showNotification (message : string) (type : ntype) (st : state) : state :=
  let st := set_notes ((message, type) :: notes (page st)) st in
  let st := set_note_visible true st in
  setTimer NOTIFICATION_MS THideNotification st.

Definition set_status (text class : string) (st : state) : state :=
  set_status_class class (set_status_text text st).

(** ** Media streams and tracks *)

Definition kind_of (st : state) (t : nat) : option track_kind :=
  t_kind <$> tracks (heap st) !! t.

Definition track_enabled (st : state) (t : nat) : bool :=
  match tracks (heap st) !! t with
  | Some o => t_enabled o
  | None => false
  end.

(** [stream.getAudioTracks()] and [stream.getVideoTracks()]. *)
Definition getTracks (k : track_kind) (s : nat) (st : state) : list nat :=
  match streams (heap st) !! s with
  | Some ts => filter (λ t, kind_of st t = Some k) ts
  | None => []
  end.

(** [track.enabled = b] *)
Definition set_enabled (t : nat) (b : bool) (st : state) : state :=
  set_tracks (alter (λ o, mkTrack (t_kind o) b) t (tracks (heap st))) st.

(** [stream.addTrack(t)]: a track already in the stream is not added again. *)
Definition addTrack (s t : nat) (st : state) : state :=
  set_streams (alter (λ ts, if decide (t ∈ ts) then ts else ts ++ [t]) s
                 (streams (heap st))) st.

Fixpoint alloc_tracks (ks : list (track_kind * bool)) (st : state) : list nat * state :=
  match ks with
  | [] => ([], st)
  | (k, en) :: ks =>
      let t := next_id (heap st) in
      let st := set_tracks (<[t := mkTrack k en]> (tracks (heap st))) st in
      let st := set_next_id (S t) st in
      let '(ts, st) := alloc_tracks ks st in
      (t :: ts, st)
  end.

(** A new [MediaStream] made by the browser or the library. *)
Definition alloc_stream (ks : list (track_kind * bool)) (st : state) : nat * state :=
  let '(ts, st) := alloc_tracks ks st in
  let s := next_id (heap st) in
  let st := set_streams (<[s := ts]> (streams (heap st))) st in
  (s, set_next_id (S s) st).

(** ** Call handlers installed by handleCallStream *)

(** [call.on('close', ...)] *)
Definition on_call_close (c : nat) (st : state) : state :=
  let st := clearTimer (TConnectionTimeout c) st in
  let st := set_status "Call ended" "status-disconnected" st in
  let st := set_remoteVideo_src None st in
  let st := set_currentCall None st in
  let st := set_endCallBtn_disabled true st in
  showNotification "Call ended" Info st.

(** [call.close()] of the library: the handle is finished, and an open
    connection emits ['close'] to the handler above before returning. *)
Definition call_close (c : nat) (st : state) : state :=
  match calls (heap st) !! c with
  | Some o =>
      let st := emit (FxClose c) st in
      let st := set_calls (<[c := mkCall (c_peer o) (c_timestamp o) (c_pc o)
                                        false true (c_local o)]> (calls (heap st))) st in
      if c_open o then on_call_close c st else st
  | None => st
  end.

(** First track of a kind in the remote stream: switched on when it
    arrives disabled. *)
Definition enable_first (k : track_kind) (s : nat) (st : state) : state :=
  match getTracks k s st with
  | t :: _ => if track_enabled st t then st else set_enabled t true st
  | [] => st
  end.

(** [call.on('stream', ...)] *)
Definition on_call_stream (c s : nat) (st : state) : state :=
  let st := clearTimer (TConnectionTimeout c) st in
  let st := set_remoteVideo_src (Some s) st in
  let st := enable_first Video s st in
  let st := enable_first Audio s st in
  let st := set_status "Connected" "status-connected" st in
  showNotification "Call connected successfully" Success st.

(** [err.message || 'Unknown error'] *)
Definition message_or (m : option string) (d : string) : string :=
  match m with
  | Some s => if decide (s = "") then d else s
  | None => d
  end.

(** [call.on('error', ...)] *)
Definition on_call_error (c : nat) (m : option string) (st : state) : state :=
  let st := clearTimer (TConnectionTimeout c) st in
  let text := "Call error: " +:+ message_or m "Unknown error" in
  let st := set_status text "status-disconnected" st in
  let st := set_remoteVideo_src None st in
  let st := set_currentCall None st in
  let st := set_endCallBtn_disabled true st in
  showNotification text Error st.

(** handleCallStream: the connection timeout and the periodic check are
    armed; the three handlers above now listen on [c]. *)
Definition handleCallStream (c : nat) (st : state) : state :=
  let st := setTimer CONNECTION_TIMEOUT_MS (TConnectionTimeout c) st in
  setTimer CONNECTION_CHECK_MS (TConnectionCheck c) st.

(** The callback of the connection timeout. *)
Definition connection_timeout (c : nat) (st : state) : state :=
  match remoteVideo_src (page st) with
  | None =>
      let st := set_status "Connection timed out" "status-disconnected" st in
      let st := showNotification
                  "Connection timed out. The other user may not be available." Error st in
      let st := call_close c st in
      let st := set_currentCall None st in
      set_endCallBtn_disabled true st
  | Some _ => st
  end.

(** ** The signalling registration *)

(** [peer.destroy()] *)
Definition peer_destroy (p : nat) (st : state) : state :=
  let st := emit (FxDestroy p) st in
  set_peers (alter (λ o, mkPeer (p_id o) true true false) p (peers (heap st))) st.

(** A JS string is truthy when it is not empty. *)
Definition truthy (s : option string) : bool :=
  match s with
  | Some x => negb (bool_decide (x = ""))
  | None => false
  end.

(** [peer && peer.id] *)
Definition peer_ready (st : state) : bool :=
  match peer (vars st) with
  | Some p => match peers (heap st) !! p with
              | Some o => truthy (p_id o)
              | None => false
              end
  | None => false
  end.

(** [peer && !peer.disconnected && peer.id] *)
Definition peer_healthy (st : state) : bool :=
  match peer (vars st) with
  | Some p => match peers (heap st) !! p with
              | Some o => negb (p_disconnected o) && truthy (p_id o)
              | None => false
              end
  | None => false
  end.

(** [peer.call(remote, stream, options)]: a fresh handle, or [None] when
    the library returns [undefined] (or [peer] itself is not set). *)
Definition peer_call (remote : string) (stream : option nat) (ts : option Z)
    (st : state) : option nat * state :=
  match peer (vars st) with
  | Some p =>
      match peers (heap st) !! p with
      | Some o =>
          if p_callable o then
            let c := next_id (heap st) in
            let st := set_next_id (S c) st in
            let st := set_calls (<[c := mkCall remote ts None false false stream]>
                                   (calls (heap st))) st in
            (Some c, emit (FxCall c remote stream ts) st)
          else (None, emit (FxCallRefused remote) st)
      | None => (None, st)
      end
  | None => (None, st)
  end.

(** initializePeerConnection: the old registration, if any, is destroyed
    and a new [Peer] takes its place; its identity arrives later with the
    ['open'] event. *)
Definition initializePeerConnection (st : state) : state :=
  let st := match peer (vars st) with
            | Some p => peer_destroy p st
            | None => st
            end in
  let p := next_id (heap st) in
  let st := set_next_id (S p) st in
  let st := set_peers (<[p := mkPeer None false false false]> (peers (heap st))) st in
  let st := emit (FxNewPeer p) st in
  set_peer (Some p) st.

(** [peer.on('open', ...)] *)
Definition on_peer_open (id : string) (st : state) : state :=
  let st := set_roomId_text id st in
  let st := set_status "Ready to connect" "" st in
  set_reconnectAttempts 0 st.

(** [peer.on('call', ...)] *)
Definition on_peer_call (c : nat) (st : state) : state :=
  let st := set_status "Incoming call..." "status-connecting" st in
  let st := showNotification "Incoming call" Info st in
  let st := emit (FxAnswer c (localStream (vars st))) st in
  let st := set_calls (alter (λ o, mkCall (c_peer o) (c_timestamp o) (c_pc o) (c_open o)
                                     (c_closed o) (localStream (vars st)))
                         c (calls (heap st))) st in
  let st := set_currentCall (Some c) st in
  let st := set_endCallBtn_disabled false st in
  handleCallStream c st.

(** [peer.on('disconnected', ...)] *)
Definition on_peer_disconnected (st : state) : state :=
  let st := set_status "Connection lost. Attempting to reconnect..."
              "status-disconnected" st in
  setTimer RECONNECT_DELAY_MS TReconnect st.

(** The delayed callback of the handler above. *)
Definition reconnect_task (st : state) : state :=
  if (reconnectAttempts (vars st) <? MAX_RECONNECT_ATTEMPTS)%nat then
    let st := set_reconnectAttempts (S (reconnectAttempts (vars st))) st in
    match peer (vars st) with
    | Some p => emit (FxReconnect p) st
    | None => st
    end
  else
    let st := set_status_text
      "Could not reconnect after multiple attempts. Please refresh the page." st in
    showNotification "Connection failed. Please refresh the page." Error st.

(** [peer.on('close', ...)] *)
Definition on_peer_close (st : state) : state :=
  let st := set_status "Connection closed" "status-disconnected" st in
  set_endCallBtn_disabled true st.

Inductive peer_error :=
  PeerUnavailable | Network | ServerError | BrowserIncompatible
| SocketError | SocketClosed | OtherError.

Definition peer_error_message (e : peer_error) : string :=
  match e with
  | PeerUnavailable => "Peer not found. Check the ID and try again."
  | Network => "Network error. Please check your connection."
  | ServerError => "Server error. Please try again later."
  | BrowserIncompatible =>
      "Your browser may not fully support WebRTC. Try using Chrome or Firefox."
  | SocketError => "Socket connection error. Please refresh and try again."
  | SocketClosed => "Connection to server lost. Attempting to reconnect..."
  | OtherError => "Connection error"
  end.

(** [peer.on('error', ...)] *)
Definition on_peer_error (e : peer_error) (st : state) : state :=
  let st := match e with
            | SocketError | SocketClosed => setTimer REINIT_DELAY_MS TReinit st
            | _ => st
            end in
  let st := set_status (peer_error_message e) "status-disconnected" st in
  let st := showNotification (peer_error_message e) Error st in
  match currentCall (vars st) with
  | Some _ =>
      let st := set_currentCall None st in
      let st := set_remoteVideo_src None st in
      set_endCallBtn_disabled true st
  | None => st
  end.

(** ** Dialling *)

(** connectToPeer.  [peerId_trimmed] is [peerIdInput.value.trim()].  On the
    dialling path [peer] is set, so [peer.call] cannot throw; the only
    error the [catch] sees is the script's own 'Failed to initiate call'. *)
Definition connectToPeer (st : state) : state :=
  let peerId := peerId_trimmed (page st) in
  if bool_decide (peerId = "") then
    showNotification "Please enter a valid Peer ID" Error st
  else
    let st := set_status "Connecting..." "status-connecting" st in
    let st := match currentCall (vars st) with
              | Some c => call_close c st
              | None => st
              end in
    if negb (peer_ready st) then
      let st := initializePeerConnection st in
      setTimer RETRY_CONNECT_MS TRetryConnect st
    else
      match peer_call peerId (localStream (vars st)) (Some (now (loop st))) st with
      | (Some c, st) =>
          let st := set_currentCall (Some c) st in
          let st := set_endCallBtn_disabled false st in
          handleCallStream c st
      | (None, st) =>
          let st := set_status "Connection failed" "status-disconnected" st in
          showNotification ("Failed to connect: " +:+ "Failed to initiate call") Error st
      end.

(** endCall.  [close()] is total here, so the [catch] is not entered. *)
Definition endCall (st : state) : state :=
  match currentCall (vars st) with
  | Some c =>
      let st := call_close c st in
      let st := set_currentCall None st in
      let st := set_remoteVideo_src None st in
      let st := set_status "Call ended" "status-disconnected" st in
      let st := set_endCallBtn_disabled true st in
      showNotification "Call ended" Info st
  | None => st
  end.

(** ** Health check of a call *)

(** [Date.now() - call.metadata?.timestamp > 10000]: with no timestamp the
    difference is [NaN] and the comparison is false. *)
Definition grace_elapsed (o : call) (st : state) : bool :=
  match c_timestamp o with
  | Some ts => bool_decide (now (loop st) - ts > STALL_GRACE_MS)%Z
  | None => false
  end.

(** [call.peerConnection && call.peerConnection.iceConnectionState === 'failed'] *)
Definition ice_failed (o : call) : bool :=
  match c_pc o with
  | Some pc => bool_decide (pc_ice pc = IceFailed)
  | None => false
  end.

(** The callback of the periodic check armed by handleCallStream. *)
Definition connection_check (c : nat) (st : state) : state :=
  if negb (bool_decide (currentCall (vars st) = Some c)) then
    clearTimer (TConnectionCheck c) st
  else
    match calls (heap st) !! c with
    | Some o =>
        if bool_decide (remoteVideo_src (page st) = None) && grace_elapsed o st then
          if ice_failed o then
            let st := showNotification
                        "Connection problem detected. Trying to reconnect..." Error st in
            let peerId := c_peer o in
            let st := call_close c st in
            let st := setTimer STALL_REDIAL_MS (TStallRedial peerId) st in
            clearTimer (TConnectionCheck c) st
          else st
        else st
    | None => st
    end.

(** The delayed re-dial scheduled by the check. *)
Definition stall_redial (peerId : string) (st : state) : state :=
  if peer_ready st then
    match peer_call peerId (localStream (vars st)) None st with
    | (Some n, st) =>
        let st := set_currentCall (Some n) st in
        handleCallStream n st
    | (None, st) => st
    end
  else st.

(** ** Track toggles *)

Definition toggleAudio (st : state) : state :=
  match localStream (vars st) with
  | Some s =>
      match getTracks Audio s st with
      | t :: _ =>
          let st := set_isAudioMuted (negb (isAudioMuted (vars st))) st in
          let st := set_enabled t (negb (isAudioMuted (vars st))) st in
          let st := set_muteBtn_text
                      (if isAudioMuted (vars st) then "Unmute Audio" else "Mute Audio") st in
          showNotification
            (if isAudioMuted (vars st) then "Audio muted" else "Audio unmuted") Info st
      | [] => showNotification "No audio track found" Error st
      end
  | None => st
  end.

Definition toggleVideo (st : state) : state :=
  match localStream (vars st) with
  | Some s =>
      match getTracks Video s st with
      | t :: _ =>
          let st := set_isVideoOff (negb (isVideoOff (vars st))) st in
          let st := set_enabled t (negb (isVideoOff (vars st))) st in
          let st := set_videoBtn_text
                      (if isVideoOff (vars st) then "Start Video" else "Stop Video") st in
          showNotification
            (if isVideoOff (vars st) then "Video stopped" else "Video started") Info st
      | [] => showNotification "No video track found" Error st
      end
  | None => st
  end.

(** ** Switching the media source *)

(** replaceCallWithNewStream; [None] is the [TypeError] of
    [currentCall.peer] on an unset [currentCall]. *)
Definition replaceCallWithNewStream (st : state) : option state :=
  match currentCall (vars st) with
  | Some c =>
      match calls (heap st) !! c with
      | Some o =>
          let peerId := c_peer o in
          let st := call_close c st in
          Some (setTimer REPLACE_REDIAL_MS (TReplaceRedial peerId) st)
      | None => None
      end
  | None => None
  end.

(** The delayed callback of replaceCallWithNewStream: both a refused call
    and a throwing [peer.call] end in its [catch]. *)
Definition replace_redial (peerId : string) (st : state) : state :=
  match peer_call peerId (localStream (vars st)) None st with
  | (Some n, st) =>
      let st := set_currentCall (Some n) st in
      handleCallStream n st
  | (None, st) =>
      let st := set_status "Failed to update call with screen share"
                  "status-disconnected" st in
      showNotification "Failed to update call. Please reconnect." Error st
  end.

(** [peerConnection && typeof peerConnection.getSenders === 'function'],
    then [getSenders()]. *)
Definition senders_of (c : nat) (st : state) : option (list sender) :=
  match calls (heap st) !! c with
  | Some o => match c_pc o with
              | Some pc => pc_senders pc
              | None => None
              end
  | None => None
  end.

(** [senders.find(sender => sender.track && sender.track.kind === 'video')] *)
Definition find_video_sender (st : state) (l : list sender) : option sender :=
  List.find (λ s, match snd_track s with
                  | Some t => bool_decide (kind_of st t = Some Video)
                  | None => false
                  end) l.

(** What the inner [try] does to the call in progress.  The boolean is
    true on the path that leaves toggleScreenShare through [return]. *)
Definition update_call (c : nat) (st : state) : state * bool :=
  let failed st :=
    (showNotification "Failed to update call with screen sharing" Error st, false) in
  let fall_back st :=
    match replaceCallWithNewStream st with
    | Some st' => (st', false)
    | None => failed st
    end in
  match senders_of c st with
  | Some l =>
      match find_video_sender st l with
      | Some videoSender =>
          match localStream (vars st) with
          | Some s =>
              match getTracks Video s st with
              | newVideoTrack :: _ =>
                  let st := emit (FxReplaceTrack c (snd_track videoSender) newVideoTrack) st in
                  (set_awaiting_replace (S (awaiting_replace (loop st))) st, true)
              | [] => fall_back st
              end
          | None => failed st
          end
      | None => fall_back st
      end
  | None => fall_back st
  end.

(** toggleScreenShare from 'Update local video' to its end. *)
Definition finish_toggle (st : state) : state :=
  let st := set_localVideo_src (localStream (vars st)) st in
  let '(st, returned) :=
    match currentCall (vars st) with
    | Some c => update_call c st
    | None => (st, false)
    end in
  if returned then st
  else set_isScreenSharing (negb (isScreenSharing (vars st))) st.

(** toggleScreenShare up to its [await]: when sharing, the camera stream
    comes back at once; otherwise the browser is asked for a display
    stream and the function is suspended. *)
Definition toggleScreenShare (st : state) : state :=
  if isScreenSharing (vars st) then
    let st := set_localStream (originalStream (vars st)) st in
    let st := set_screenShareBtn_text "Share Screen" st in
    let st := showNotification "Screen sharing stopped" Info st in
    finish_toggle st
  else
    let st := emit FxGetDisplayMedia st in
    set_awaiting_display (S (awaiting_display (loop st))) st.

(** What [getDisplayMedia({video: true})] settles with: a stream whose
    first track is the screen's video track, or an error. *)
Inductive display_outcome :=
| DisplayStream (extra : list track_kind)
| DisplayError (name message : string).

(** toggleScreenShare after its [await]. *)
Definition toggleScreenShare_resume (r : display_outcome) (st : state) : state :=
  match r with
  | DisplayError name message =>
      let m := if bool_decide (name = "NotAllowedError")
               then "Screen sharing permission denied" else message in
      showNotification ("Screen sharing error: " +:+ m) Error st
  | DisplayStream extra =>
      let '(s, st) := alloc_stream ((Video, true) :: map (λ k, (k, true)) extra) st in
      let st := match originalStream (vars st) with
                | Some o => match getTracks Audio o st with
                            | audioTrack :: _ => addTrack s audioTrack st
                            | [] => st
                            end
                | None => st
                end in
      let st := set_localStream (Some s) st in
      let st := set_screenShareBtn_text "Stop Sharing" st in
      let st := showNotification "Screen sharing started" Success st in
      let st := match getTracks Video s st with
                | t :: _ => set_onended (t :: onended (heap st)) st
                | [] => st  (* not reached: the stream starts with a video track *)
                end in
      finish_toggle st
  end.

(** The two continuations of [videoSender.replaceTrack(...)]. *)
Definition replace_settled (ok : bool) (st : state) : state :=
  if ok then showNotification "Media updated successfully" Success st
  else match replaceCallWithNewStream st with
       | Some st' => st'
       | None => st
       end.

(** ** Connectivity check *)

Definition checkConnectivity (st : state) : bool * state :=
  if negb (online (heap st)) then
    let st := set_status "You are offline. Please check your internet connection."
                "status-disconnected" st in
    (false, showNotification "Internet connection lost" Error st)
  else if peer_healthy st then (true, st)
  else (false, initializePeerConnection st).

(** ** Start-up *)

Inductive gum_outcome :=
| GumStream (ks : list track_kind)
| GumError (name message : string).

(** init up to its [await]. *)
Definition init (st : state) : state :=
  let st := set_status_text "Requesting camera and microphone access..." st in
  let st := emit FxGetUserMedia st in
  set_awaiting_media true st.

Definition gum_message (name message : string) : string :=
  if bool_decide (name = "NotAllowedError") then
    "Camera and microphone access denied. Please allow access to use this app."
  else if bool_decide (name = "NotFoundError") then
    "No camera or microphone found. Please check your device connections."
  else message.

(** init after its [await]. *)
Definition init_resume (r : gum_outcome) (st : state) : state :=
  let st := set_awaiting_media false st in
  match r with
  | GumError name message =>
      let m := gum_message name message in
      let st := set_status ("Error: " +:+ m) "status-disconnected" st in
      showNotification m Error st
  | GumStream ks =>
      let '(s, st) := alloc_stream (map (λ k, (k, true)) ks) st in
      let st := set_localStream (Some s) st in
      let st := set_originalStream (localStream (vars st)) st in
      let st := set_localVideo_src (localStream (vars st)) st in
      let st := set_mediaBtns_disabled false st in
      let st := set_status_text "Initializing connection..." st in
      let st := initializePeerConnection st in
      let st := set_listeners true st in
      showNotification "Video call app initialized successfully" Success st
  end.

(** The ['beforeunload'] handler. *)
Definition before_unload (st : state) : state :=
  let st := match currentCall (vars st) with
            | Some c => call_close c st
            | None => st
            end in
  match peer (vars st) with
  | Some p => peer_destroy p st
  | None => st
  end.

(** ** The event loop *)

(** [setInterval] callbacks are re-armed each time they run. *)
Definition period (k : task) : option Z :=
  match k with
  | TConnectionCheck _ => Some CONNECTION_CHECK_MS
  | TCheckConnectivity => Some CONNECTIVITY_CHECK_MS
  | _ => None
  end.

Definition run_task (k : task) (st : state) : state :=
  match k with
  | THideNotification => set_note_visible false st
  | TReconnect => reconnect_task st
  | TReinit => initializePeerConnection st
  | TRetryConnect => connectToPeer st
  | TConnectionTimeout c => connection_timeout c st
  | TConnectionCheck c => connection_check c st
  | TStallRedial peerId => stall_redial peerId st
  | TReplaceRedial peerId => replace_redial peerId st
  | TCheckConnectivity => (checkConnectivity st).2
  end.

(** The queue without its first timer for [k] that is due at [t0]. *)
Fixpoint take_due (k : task) (t0 : Z) (ts : list timer) : option (list timer) :=
  match ts with
  | [] => None
  | t :: ts =>
      if bool_decide (job t = k) && bool_decide (due t ≤ t0)%Z then Some ts
      else (t ::.) <$> take_due k t0 ts
  end.

(** A due timer fires; a timer that was cleared, or is not due, does not. *)
Definition fire (k : task) (st : state) : state :=
  match take_due k (now (loop st)) (timers (loop st)) with
  | Some rest =>
      let st := set_timers rest st in
      let st := match period k with
                | Some p => setTimer p k st
                | None => st
                end in
      run_task k st
  | None => st
  end.

Inductive event :=
(* the page and its user *)
| EvLoad
| EvUserMedia (r : gum_outcome)
| EvInput (trimmed : string)
| EvClickConnect
| EvClickMute
| EvClickVideo
| EvClickShare
| EvClickEnd
| EvDisplayMedia (r : display_outcome)
| EvTrackEnded (t : nat)
| EvReplaceSettled (ok : bool)
| EvOnline (b : bool)
| EvUnload
(* the clock *)
| EvTime (ms : N)
| EvFire (k : task)
(* events of the Peer object [p] *)
| EvPeerOpen (p : nat) (id : string)
| EvPeerCall (p : nat) (remote : string) (ts : option Z)
    (pc : option peer_connection) (open : bool)
| EvPeerDisconnected (p : nat)
| EvPeerClose (p : nat)
| EvPeerError (p : nat) (e : peer_error)
(* events of the MediaConnection [c] *)
| EvCallStream (c : nat) (ks : list (track_kind * bool))
| EvCallClose (c : nat)
| EvCallError (c : nat) (m : option string)
(* the library changes what the script can observe of its objects *)
| EvLibPeer (p : nat) (id : option string) (disconnected callable : bool)
| EvLibCall (c : nat) (pc : option peer_connection) (open : bool).

Definition finish_call (c : nat) (st : state) : state :=
  set_calls (alter (λ o, mkCall (c_peer o) (c_timestamp o) (c_pc o) false true (c_local o))
               c (calls (heap st))) st.

Definition live_peer (p : nat) (st : state) : bool :=
  match peers (heap st) !! p with
  | Some o => negb (p_destroyed o)
  | None => false
  end.

Definition known_call (c : nat) (st : state) : bool :=
  bool_decide (is_Some (calls (heap st) !! c)).

Definition step (e : event) (st : state) : state :=
  match e with
  | EvLoad =>
      if bool_decide (FxGetUserMedia ∈ fx (loop st)) then st else init st
  | EvUserMedia r =>
      if awaiting_media (loop st) then init_resume r st else st
  | EvInput s => set_peerId_trimmed s st
  | EvClickConnect =>
      if listeners (loop st) then connectToPeer st else st
  | EvClickMute =>
      if listeners (loop st) && negb (mediaBtns_disabled (page st))
      then toggleAudio st else st
  | EvClickVideo =>
      if listeners (loop st) && negb (mediaBtns_disabled (page st))
      then toggleVideo st else st
  | EvClickShare =>
      if listeners (loop st) && negb (mediaBtns_disabled (page st))
      then toggleScreenShare st else st
  | EvClickEnd =>
      if listeners (loop st) && negb (endCallBtn_disabled (page st))
      then endCall st else st
  | EvDisplayMedia r =>
      match awaiting_display (loop st) with
      | S n => toggleScreenShare_resume r (set_awaiting_display n st)
      | O => st
      end
  | EvTrackEnded t =>
      if bool_decide (t ∈ onended (heap st)) && isScreenSharing (vars st)
      then toggleScreenShare st else st
  | EvReplaceSettled ok =>
      match awaiting_replace (loop st) with
      | S n => replace_settled ok (set_awaiting_replace n st)
      | O => st
      end
  | EvOnline b => set_online b st
  | EvUnload => before_unload st
  | EvTime ms => set_now (now (loop st) + Z.of_N ms)%Z st
  | EvFire k => fire k st
  | EvPeerOpen p id =>
      if live_peer p st then
        let st := set_peers (alter (λ o, mkPeer (Some id) false (p_destroyed o) true)
                               p (peers (heap st))) st in
        on_peer_open id st
      else st
  | EvPeerCall p remote ts pc open =>
      if live_peer p st then
        let c := next_id (heap st) in
        let st := set_next_id (S c) st in
        let st := set_calls (<[c := mkCall remote ts pc open false None]>
                               (calls (heap st))) st in
        on_peer_call c st
      else st
  | EvPeerDisconnected p =>
      if bool_decide (is_Some (peers (heap st) !! p)) then
        let st := set_peers (alter (λ o, mkPeer (p_id o) true (p_destroyed o) false)
                               p (peers (heap st))) st in
        on_peer_disconnected st
      else st
  | EvPeerClose p =>
      if bool_decide (is_Some (peers (heap st) !! p)) then on_peer_close st else st
  | EvPeerError p e =>
      if bool_decide (is_Some (peers (heap st) !! p)) then on_peer_error e st else st
  | EvCallStream c ks =>
      if known_call c st then
        let '(s, st) := alloc_stream ks st in
        on_call_stream c s st
      else st
  | EvCallClose c =>
      if known_call c st then on_call_close c (finish_call c st) else st
  | EvCallError c m =>
      if known_call c st then on_call_error c m (finish_call c st) else st
  | EvLibPeer p id disconnected callable =>
      if live_peer p st then
        set_peers (alter (λ o, mkPeer id disconnected (p_destroyed o) callable)
                     p (peers (heap st))) st
      else st
  | EvLibCall c pc open =>
      match calls (heap st) !! c with
      | Some o =>
          if c_closed o then st
          else set_calls (<[c := mkCall (c_peer o) (c_timestamp o) pc open false
                                        (c_local o)]> (calls (heap st))) st
      | None => st
      end
  end.

Definition run (es : list event) (st : state) : state :=
  fold_left (λ st e, step e st) es st.

(** The state when the script has been evaluated: every variable at its
    initialiser and the connectivity check armed.  The markup is not part
    of the script, so the page it starts from is a parameter. *)
Definition boot (html : Page) (t0 : Z) : state :=
  mkState (mkGlobals None None None false false false None 0)
          html
          (mkHeap ∅ ∅ ∅ ∅ 0 [] true)
          (mkLoop t0 [mkTimer (t0 + CONNECTIVITY_CHECK_MS) TCheckConnectivity]
                  false false 0 0 []).

Definition blank_page : Page :=
  mkPage None None "" "" "" "" "" "" "" true true false [].

(** * Properties *)

(** ** Sessions *)

(** A call session is live (non-terminal) while its handle exists and is
    not finished. *)
Definition live (c : nat) (st : state) : Prop :=
  ∃ o, calls (heap st) !! c = Some o ∧ c_closed o = false.

(** Handles are numbered below the allocation counter. *)
Definition bounded (st : state) : Prop :=
  ∀ c, is_Some (calls (heap st) !! c) → c < next_id (heap st).

(** Every live session is the one [currentCall] refers to. *)
Definition single_session (st : state) : Prop :=
  (∀ c, live c st → currentCall (vars st) = Some c) ∧ bounded st.

(** The events that make up a sequence of dial and close actions:
    connectToPeer runs on a click and from its own retry timer, endCall
    on a click; in between the input box, the clock and the library's
    objects may change. *)
Definition dial_or_close (e : event) : bool :=
  match e with
  | EvClickConnect | EvClickEnd | EvFire TRetryConnect => true
  | EvInput _ | EvTime _ | EvOnline _ | EvLibPeer _ _ _ _ | EvLibCall _ _ _ => true
  | _ => false
  end.

Definition at_most_one_live (st : state) : Prop :=
  ∀ c1 c2, live c1 st → live c2 st → c1 = c2.

Definition ready_to_dial : state :=
  run [EvLoad; EvUserMedia (GumStream [Audio; Video]); EvPeerOpen 3 "me";
       EvLibPeer 3 (Some "me") false true; EvInput "abc"] (boot blank_page 0).

(** The clock never runs past a waiting timer: whenever time advances,
    every timer in the queue is due no earlier than the new time, so each
    callback has run by the time it was set for. *)
Fixpoint on_schedule (es : list event) (st : state) : bool :=
  match es with
  | [] => true
  | e :: es =>
      match e with
      | EvTime ms =>
          forallb (λ t, (now (loop st) + Z.of_N ms <=? due t)%Z) (timers (loop st))
      | _ => true
      end && on_schedule es (step e st)
  end.

(** Dial actions and what follows from them alone: the user types and
    clicks Connect, time passes, timers fire. *)
Definition dial_or_timer (e : event) : bool :=
  match e with
  | EvInput _ | EvClickConnect | EvTime _ | EvFire _ => true
  | _ => false
  end.

(** Three dials, none answered: "abc" at 0 s, "xyz" at 10 s and "q" at
    30 s, just after the connection timeout of the first call has run.
    Every timer fires when it is due. *)
Definition three_dials : list event :=
  [EvClickConnect;
   EvTime 5000; EvFire THideNotification; EvFire (TConnectionCheck 4);
   EvTime 5000; EvFire TCheckConnectivity; EvFire (TConnectionCheck 4);
   EvInput "xyz"; EvClickConnect;
   EvTime 5000; EvFire (TConnectionCheck 4); EvFire (TConnectionCheck 5);
   EvTime 5000; EvFire TCheckConnectivity; EvFire (TConnectionCheck 5);
   EvTime 5000; EvFire (TConnectionCheck 5);
   EvTime 5000; EvFire (TConnectionTimeout 4); EvFire TCheckConnectivity;
   EvFire (TConnectionCheck 5);
   EvInput "q"; EvClickConnect].

(** ** Late remote streams *)

(** What the specification asks of a remote-stream event that reaches a
    finished session: nothing changes. *)
Definition late_stream_discarded (c : nat) (ks : list (track_kind * bool))
    (st : state) : Prop :=
  ¬ live c st →
  let st' := step (EvCallStream c ks) st in
  remoteVideo_src (page st') = remoteVideo_src (page st)
  ∧ status_text (page st') = status_text (page st).

(** A call to "abc" that the library reported as failed. *)
Definition errored_call : state :=
  run [EvClickConnect; EvTime 3000; EvCallError 4 (Some "negotiation failed")]
      ready_to_dial.

(** Whether [peer.call] would hand out a handle now. *)
Definition peer_callable (st : state) : bool :=
  match peer (vars st) with
  | Some p => match peers (heap st) !! p with
              | Some o => p_callable o
              | None => false
              end
  | None => false
  end.

(** The state [close()] leaves when no handler runs. *)
Definition closed_quietly (c : nat) (o : call) (st : state) : state :=
  set_calls (<[c := mkCall (c_peer o) (c_timestamp o) (c_pc o) false true (c_local o)]>
               (calls (heap st))) (emit (FxClose c) st).

(** ** Re-dial after a stall *)

(** What the specification asks of the delayed re-dial when the user has
    ended the call since the stall was detected: nothing is installed and
    no new session stays live. *)
Definition late_redial_discarded (peerId : string) (st : state) : Prop :=
  currentCall (vars st) = None →
  let st' := step (EvFire (TStallRedial peerId)) st in
  currentCall (vars st') = None ∧ ∀ n, ¬ live n st'.

Definition failed_transport : option peer_connection :=
  Some (mkPc (Some []) IceFailed).

(** A call to "abc" whose transport failed, found stalled by the third
    periodic check, 15 s after the dial. *)
Definition stalled_call : state :=
  run [EvClickConnect; EvLibCall 4 failed_transport false;
       EvTime 5000; EvFire (TConnectionCheck 4);
       EvTime 5000; EvFire (TConnectionCheck 4);
       EvTime 5000; EvFire (TConnectionCheck 4)] ready_to_dial.

(** ** Reconnection *)

(** How many times [peer.reconnect()] has been called. *)
Fixpoint reconnects (l : list effect) : nat :=
  match l with
  | [] => 0
  | FxReconnect _ :: l => S (reconnects l)
  | _ :: l => reconnects l
  end.

(** The reconnect counter together with the reconnects made so far. *)
Definition retry_account (st : state) : nat * nat :=
  (reconnectAttempts (vars st), reconnects (fx (loop st))).

Definition is_open (e : event) : bool :=
  match e with
  | EvPeerOpen _ _ => true
  | _ => false
  end.

(** Four rounds of disconnection, each followed after 2 s by its delayed
    callback, with no successful registration in between. *)
Definition four_disconnects : list event :=
  [EvPeerDisconnected 3; EvTime 2000; EvFire TReconnect;
   EvPeerDisconnected 3; EvTime 2000; EvFire TReconnect;
   EvPeerDisconnected 3; EvTime 2000; EvFire TReconnect;
   EvPeerDisconnected 3; EvTime 2000; EvFire TReconnect].

(** ** Stall detection *)

(** How many timers in the queue run [k]. *)
Definition armed (k : task) (st : state) : nat :=
  length (filter (λ t, job t = k) (timers (loop st))).

(** What the specification asks of a periodic check that finds the current
    session, dialled at [dialled], without remote stream after more than
    10 time-units and with a failed transport: the session is finished and
    one re-dial is scheduled. *)
Definition stall_recovered (c : nat) (dialled : Z) (st : state) : Prop :=
  currentCall (vars st) = Some c →
  remoteVideo_src (page st) = None →
  (now (loop st) - dialled > 10 * time_unit)%Z →
  (∃ o, calls (heap st) !! c = Some o ∧ ice_failed o = true) →
  let st' := step (EvFire (TConnectionCheck c)) st in
  ¬ live c st' ∧ ∃ p, armed (TStallRedial p) st' = S (armed (TStallRedial p) st).

(** The session installed by the automatic re-dial, dialled at 17 s. *)
Definition redialled_call : state :=
  run [EvTime 2000; EvFire (TStallRedial "abc")] stalled_call.

(** The call to "abc" with a failed transport, 15 s after the dial, when
    its third check is due. *)
Definition stalling_call : state :=
  run [EvClickConnect; EvLibCall 4 failed_transport false; EvTime 15000] ready_to_dial.

(** ** Connection timeout *)

(** What the specification asks of the connection timeout of a session
    that is still waiting for its stream (the timeout was not cancelled):
    when it fires the session is finished and the current-call reference
    is cleared. *)
Definition timeout_closes (c : nat) (st : state) : Prop :=
  live c st →
  pending (TConnectionTimeout c) st = true →
  let st' := step (EvFire (TConnectionTimeout c)) st in
  ¬ live c st' ∧ currentCall (vars st') = None.

(** A call to "abc" is connected and shows its stream; then "bob" calls
    in, is answered, and no stream of his arrives within 30 s. *)
Definition second_call_waiting : state :=
  run [EvClickConnect; EvCallStream 4 [(Video, true); (Audio, true)];
       EvPeerCall 3 "bob" None None true; EvTime 30000] ready_to_dial.

(** ** Switching the media source during a call *)

(** The call, sender and track that in-place replacement works on: the
    current call exposes its senders, one of them carries a video track,
    and the active source has a video track.  [None] when the script
    cannot replace in place. *)
Definition in_place_target (st : state) : option (nat * sender * nat) :=
  match currentCall (vars st) with
  | Some c =>
      match senders_of c st with
      | Some l =>
          match find_video_sender st l, localStream (vars st) with
          | Some videoSender, Some s =>
              match getTracks Video s st with
              | t :: _ => Some (c, videoSender, t)
              | [] => None
              end
          | _, _ => None
          end
      | None => None
      end
  | None => None
  end.

(** A connected call to "abc" whose handle sends the camera's video
    track. *)
Definition connected_call : state :=
  run [EvClickConnect;
       EvLibCall 4 (Some (mkPc (Some [mkSender (Some 0); mkSender (Some 1)])
                             IceConnected)) true;
       EvCallStream 4 [(Video, true); (Audio, true)]] ready_to_dial.

(** The same call on a transport without [getSenders]. *)
Definition connected_call_no_senders : state :=
  run [EvClickConnect; EvLibCall 4 (Some (mkPc None IceConnected)) true;
       EvCallStream 4 [(Video, true); (Audio, true)]] ready_to_dial.

(** The user has asked to share the screen and the browser has handed
    over the display stream. *)
Definition screen_granted (st : state) : state :=
  run [EvClickShare; EvDisplayMedia (DisplayStream [])] st.

(** ** Track toggles *)

(** What the specification asks of two toggles in a row: the mute/off flag
    and the enabled flag of the first track of the kind are back at their
    values. *)
Definition double_toggle_restores (toggle : state → state) (flag : state → bool)
    (k : track_kind) (st : state) : Prop :=
  ∀ s t, localStream (vars st) = Some s →
         head (getTracks k s st) = Some t →
         flag (toggle (toggle st)) = flag st
         ∧ track_enabled (toggle (toggle st)) t = track_enabled st t.

(** The camera's video was switched off, then the screen was shared: the
    flag still says off, the screen's video track arrives enabled. *)
Definition video_off_then_screen : state :=
  run [EvClickVideo; EvClickShare; EvDisplayMedia (DisplayStream [])] ready_to_dial.

(** ** The screen-sharing flag *)

(** ** Connectivity check *)

(** What the specification asks of the periodic check: an unhealthy
    registration is replaced by a fresh one, a healthy one leaves the
    state as it is. *)
Definition registration_refreshed (st : state) : Prop :=
  (peer_healthy st = false →
   peer (vars (checkConnectivity st).2) = Some (next_id (heap st)))
  ∧ (peer_healthy st = true → (checkConnectivity st).2 = st).

(** The registration was lost while the browser is offline. *)
Definition offline_disconnected : state :=
  run [EvPeerDisconnected 3; EvOnline false] ready_to_dial.

(** * Further properties of the script *)

(** ** Notifications *)

(** Some timer for [k] in the queue is due. *)
Definition due_now (k : task) (st : state) : Prop :=
  Exists (λ t, job t = k ∧ (due t ≤ now (loop st))%Z) (timers (loop st)).

(** The button clicks the page listens to. *)
Definition is_click (e : event) : bool :=
  match e with
  | EvClickConnect | EvClickMute | EvClickVideo | EvClickShare | EvClickEnd => true
  | _ => false
  end.

(** ** The paths of a dial *)

(** ** Ending a call *)

(** ** Sessions that are live but no longer referenced *)

(** "abc" was dialled and did not answer; 10 s later "xyz" was dialled
    instead; now the first call's timeout is due. *)
Definition redialled_elsewhere : state :=
  run [EvClickConnect; EvTime 10000; EvInput "xyz"; EvClickConnect; EvTime 20000]
      ready_to_dial.

(** ** Errors of the registration and inbound calls *)

(** ** Sharing the screen without a call *)

(** ** One registration at a time *)

(** The registration the script refers to, with all the registrations it
    has created. *)
Definition registry (st : state) : option nat * gmap nat peer_obj :=
  (peer (vars st), peers (heap st)).

(** Every registration that has not been destroyed is the one [peer]
    refers to, and [peer] refers to a registration that was created. *)
Definition one_registration (st : state) : Prop :=
  (∀ p o, peers (heap st) !! p = Some o → p_destroyed o = false → peer (vars st) = Some p)
  ∧ (∀ p, peer (vars st) = Some p → is_Some (peers (heap st) !! p)).

(** A change to a registration that does not bring a destroyed one back. *)
Definition never_revives (f : peer_obj → peer_obj) : Prop :=
  ∀ o, p_destroyed (f o) = false → p_destroyed o = false.

(** * Proofs *)

(** ** One session at a time *)

Lemma call_close_next c st : next_id (heap (call_close c st)) = next_id (heap st).
Proof.
  unfold call_close. destruct (calls (heap st) !! c) as [o|]; [|done].
  by destruct (c_open o).
Qed.

Lemma call_close_live c st d : live d (call_close c st) → live d st ∧ d ≠ c.
Proof.
  unfold call_close, live. destruct (calls (heap st) !! c) as [o|] eqn:E.
  - destruct (c_open o); simpl; intros (o' & H & Hc).
    all: destruct (decide (c = d)) as [->|];
      [rewrite lookup_insert_eq in H; by simplify_eq
      |rewrite lookup_insert_ne in H by done; eauto].
  - intros (o' & H & Hc). split; [eauto|]. intros ->. congruence.
Qed.

Lemma call_close_known c st d :
  is_Some (calls (heap (call_close c st)) !! d) → is_Some (calls (heap st) !! d).
Proof.
  unfold call_close. destruct (calls (heap st) !! c) as [o|] eqn:E; [|done].
  destruct (c_open o); simpl; intros H.
  all: destruct (decide (c = d)) as [->|];
    [by rewrite E | by rewrite lookup_insert_ne in H].
Qed.

Lemma call_close_finished c st :
  is_Some (calls (heap st) !! c) → ¬ live c (call_close c st).
Proof. intros _ H. by apply call_close_live in H as [_ ?]. Qed.

Lemma call_close_current c st :
  currentCall (vars (call_close c st)) = currentCall (vars st)
  ∨ currentCall (vars (call_close c st)) = None.
Proof.
  unfold call_close. destruct (calls (heap st) !! c) as [o|]; [|by left].
  destruct (c_open o); simpl; auto.
Qed.

(** After the current call, if any, has been closed no session is live. *)
Lemma close_current_quiet st :
  single_session st →
  let st' := match currentCall (vars st) with
             | Some c => call_close c st
             | None => st
             end in
  (∀ d, ¬ live d st') ∧ bounded st'.
Proof.
  intros [Hone Hb]. destruct (currentCall (vars st)) as [c|] eqn:Ec; simpl.
  - split.
    + intros d Hd. apply call_close_live in Hd as [Hd Hne].
      apply Hone in Hd. congruence.
    + intros d Hd. rewrite call_close_next. apply Hb. by eapply call_close_known.
  - split; [|done]. intros d Hd. apply Hone in Hd. congruence.
Qed.

Lemma quiet_single st :
  (∀ d, ¬ live d st) → bounded st → single_session st.
Proof. intros Hq Hb. split; [|done]. intros c Hc. by apply Hq in Hc. Qed.

Lemma peer_call_single remote stream ts st :
  (∀ d, ¬ live d st) → bounded st →
  match peer_call remote stream ts st with
  | (Some n, st') =>
      n = next_id (heap st) ∧ bounded st' ∧ (∀ d, live d st' → d = n) ∧ live n st'
      ∧ fx (loop st') = FxCall n remote stream ts :: fx (loop st)
  | (None, st') => (∀ d, ¬ live d st') ∧ bounded st'
  end.
Proof.
  intros Hq Hb. unfold peer_call.
  destruct (peer (vars st)) as [p|]; [|done].
  destruct (peers (heap st) !! p) as [o|]; [|done].
  destruct (p_callable o); [|done]. simpl.
  split; [done|]. split; [|split; [|split; [|done]]].
  - intros d. unfold bounded in Hb. simpl.
    destruct (decide (next_id (heap st) = d)) as [<-|]; [lia|].
    rewrite lookup_insert_ne by done. intros H%Hb. lia.
  - intros d (o' & H & Hc). simpl in H.
    destruct (decide (next_id (heap st) = d)) as [<-|]; [done|].
    rewrite lookup_insert_ne in H by done. destruct (Hq d). by exists o'.
  - eexists. simpl. by rewrite lookup_insert_eq.
Qed.

Lemma initializePeerConnection_calls st :
  calls (heap (initializePeerConnection st)) = calls (heap st)
  ∧ currentCall (vars (initializePeerConnection st)) = currentCall (vars st)
  ∧ next_id (heap (initializePeerConnection st)) = S (next_id (heap st)).
Proof. unfold initializePeerConnection. by destruct (peer (vars st)). Qed.

Lemma connectToPeer_single st : single_session st → single_session (connectToPeer st).
Proof.
  intros Hs. unfold connectToPeer.
  case_bool_decide; [exact Hs|].
  pose proof (close_current_quiet (set_status "Connecting..." "status-connecting" st) Hs)
    as [Hq Hb].
  set (st1 := match currentCall _ with
              | Some c => call_close c _ | None => _ end) in *.
  destruct (peer_ready st1) eqn:Er; simpl.
  - pose proof (peer_call_single (peerId_trimmed (page st)) (localStream (vars st1))
                  (Some (now (loop st1))) st1 Hq Hb) as Hp.
    destruct (peer_call _ _ _ st1) as [[n|] st2].
    + destruct Hp as (-> & Hb2 & Hu & Hl & _). split; [|exact Hb2].
      intros d Hd. simpl. f_equal. symmetry. by apply Hu.
    + destruct Hp as [Hq2 Hb2]. by apply quiet_single.
  - destruct (initializePeerConnection_calls st1) as (Hc & _ & Hn).
    apply quiet_single.
    + intros d (o & Ho & Hl). apply (Hq d). exists o.
      change (calls (heap (initializePeerConnection st1)) !! d = Some o) in Ho.
      by rewrite Hc in Ho.
    + intros d Hd.
      change (is_Some (calls (heap (initializePeerConnection st1)) !! d)) in Hd.
      change (d < next_id (heap (initializePeerConnection st1))).
      rewrite Hc in Hd. rewrite Hn. apply Hb in Hd. lia.
Qed.

Lemma endCall_single st : single_session st → single_session (endCall st).
Proof.
  intros Hs. unfold endCall.
  pose proof (close_current_quiet st Hs) as [Hq Hb].
  destruct (currentCall (vars st)) as [c|]; [|exact Hs].
  by apply quiet_single.
Qed.

Lemma step_single e st :
  dial_or_close e = true → single_session st → single_session (step e st).
Proof.
  intros He Hs. destruct e; try discriminate He; simpl.
  - exact Hs.
  - destruct (listeners (loop st)); [by apply connectToPeer_single | done].
  - destruct (_ && _); [by apply endCall_single | done].
  - exact Hs.
  - exact Hs.
  - destruct k; try discriminate He. unfold fire.
    destruct (take_due _ _ _); [|done]. simpl. by apply connectToPeer_single.
  - destruct (live_peer p st); [|done]. exact Hs.
  - destruct (calls (heap st) !! c) as [o|] eqn:E; [|done].
    destruct (c_closed o) eqn:Ec; [done|].
    destruct Hs as [Hone Hb]. split.
    + intros d (o' & H & Hc). simpl in H. apply Hone.
      destruct (decide (c = d)) as [->|].
      * by exists o.
      * rewrite lookup_insert_ne in H by done. by exists o'.
    + intros d Hd. simpl in *. apply Hb.
      destruct (decide (c = d)) as [->|]; [by rewrite E|].
      by rewrite lookup_insert_ne in Hd.
Qed.

Lemma run_single es st :
  Forall (λ e, dial_or_close e = true) es → single_session st → single_session (run es st).
Proof.
  intros Hes. revert st. induction Hes as [|e es He _ IH]; intros st Hs; [done|].
  simpl. apply IH. by apply step_single.
Qed.

Lemma single_at_most_one st : single_session st → at_most_one_live st.
Proof.
  intros [Hone _] c1 c2 H1 H2. apply Hone in H1, H2. congruence.
Qed.

Lemma call_close_frame c st :
  localStream (vars (call_close c st)) = localStream (vars st)
  ∧ now (loop (call_close c st)) = now (loop st)
  ∧ peerId_trimmed (page (call_close c st)) = peerId_trimmed (page st)
  ∧ (is_Some (calls (heap st) !! c) →
     fx (loop (call_close c st)) = FxClose c :: fx (loop st)).
Proof.
  unfold call_close. destruct (calls (heap st) !! c) as [o|].
  - by destruct (c_open o).
  - repeat split; try done. all: try by intros [? ?].
Qed.

(** A dial issued while a session is live closes it, and only then may
    install a new one. *)
Lemma dial_replaces st c :
  single_session st → live c st → peerId_trimmed (page st) ≠ "" →
  ¬ live c (connectToPeer st)
  ∧ ∀ n, live n (connectToPeer st) →
      n ≠ c ∧ currentCall (vars (connectToPeer st)) = Some n
      ∧ fx (loop (connectToPeer st))
        = FxCall n (peerId_trimmed (page st)) (localStream (vars st))
            (Some (now (loop st))) :: FxClose c :: fx (loop st).
Proof.
  intros Hs Hc Hid.
  assert (Hcur : currentCall (vars st) = Some c) by by apply Hs.
  assert (Hk : is_Some (calls (heap st) !! c)) by (destruct Hc as (o & -> & _); eauto).
  assert (Hb : c < next_id (heap st)) by by apply Hs.
  unfold connectToPeer. rewrite bool_decide_eq_false_2 by done.
  pose proof (close_current_quiet (set_status "Connecting..." "status-connecting" st) Hs)
    as [Hq Hb1].
  cbv zeta. change (currentCall (vars (set_status "Connecting..." "status-connecting" st)))
    with (currentCall (vars st)) in *.
  rewrite Hcur in *.
  set (st0 := set_status "Connecting..." "status-connecting" st) in *.
  destruct (call_close_frame c st0) as (Hls & Hnow & _ & Hfx). specialize (Hfx Hk).
  pose proof (call_close_next c st0) as Hnext.
  set (st1 := call_close c st0) in *.
  destruct (peer_ready st1); simpl.
  - pose proof (peer_call_single (peerId_trimmed (page st)) (localStream (vars st1))
                  (Some (now (loop st1))) st1 Hq Hb1) as Hp.
    destruct (peer_call _ _ _ st1) as [[n|] st2].
    + destruct Hp as (-> & Hb2 & Hu & Hl & Hf). split.
      * intros H%Hu. rewrite Hnext in H. simpl in H. lia.
      * intros d Hd%Hu. subst d. rewrite Hnext. simpl. split; [lia|]. split; [done|].
        rewrite Hf, Hfx, Hls, Hnow. by rewrite Hnext.
    + destruct Hp as [Hq2 _]. split; [apply Hq2|]. intros n Hn. by apply Hq2 in Hn.
  - destruct (initializePeerConnection_calls st1) as (Hcalls & _ & _).
    assert (Hq3 : ∀ d, ¬ live d (setTimer RETRY_CONNECT_MS TRetryConnect
                                     (initializePeerConnection st1))).
    { intros d (o & Ho & Hl). apply (Hq d). exists o.
      change (calls (heap (initializePeerConnection st1)) !! d = Some o) in Ho.
      by rewrite Hcalls in Ho. }
    split; [apply Hq3|]. intros n Hn. by apply Hq3 in Hn.
Qed.

(** X7.  The steps of connectToPeer (a click or its own retry timer) and
    of endCall keep every live session referenced by [currentCall], so
    along runs made of these steps alone, with typing, clock and library
    state changes in between but no timer callback other than the retry
    and no library event, at most one session is live; a dial issued
    while a session is live closes that session before the new handle is
    requested and installed. *)
Theorem dial_close_keeps_one_session (es : list event) (st : state) :
  single_session st →
  Forall (λ e, dial_or_close e = true) es →
  ∀ k, let st' := run (take k es) st in
    at_most_one_live st'
    ∧ (∀ c, live c st' → currentCall (vars st') = Some c)
    ∧ (∀ c, live c st' → peerId_trimmed (page st') ≠ "" →
        ¬ live c (connectToPeer st')
        ∧ ∀ n, live n (connectToPeer st') →
            n ≠ c ∧ currentCall (vars (connectToPeer st')) = Some n
            ∧ fx (loop (connectToPeer st'))
              = FxCall n (peerId_trimmed (page st')) (localStream (vars st'))
                  (Some (now (loop st'))) :: FxClose c :: fx (loop st')).
Proof.
  intros Hs Hes k st'.
  assert (Hs' : single_session st').
  { apply run_single; [|done]. by apply Forall_take. }
  split; [by apply single_at_most_one|]. split; [apply Hs'|].
  intros c Hc Hid. by apply dial_replaces.
Qed.

Lemma ready_to_dial_single : single_session ready_to_dial.
Proof.
  assert (H : calls (heap ready_to_dial) = ∅) by by vm_compute.
  split.
  - intros c (o & Ho & _). rewrite H in Ho. by rewrite lookup_empty in Ho.
  - intros c [o Ho]. rewrite H in Ho. by rewrite lookup_empty in Ho.
Qed.

Lemma dial_close_keeps_one_session_witness :
  single_session ready_to_dial
  ∧ Forall (λ e, dial_or_close e = true)
      [EvClickConnect; EvTime 4000; EvInput "xyz"; EvClickConnect; EvClickEnd]
  ∧ let st' := run (take 4 [EvClickConnect; EvTime 4000; EvInput "xyz"; EvClickConnect;
                            EvClickEnd]) ready_to_dial in
    at_most_one_live st' ∧ live 5 st' ∧ currentCall (vars st') = Some 5.
Proof.
  split; [exact ready_to_dial_single|].
  split; [by repeat constructor|].
  pose proof (dial_close_keeps_one_session
    [EvClickConnect; EvTime 4000; EvInput "xyz"; EvClickConnect; EvClickEnd]
    ready_to_dial ready_to_dial_single ltac:(by repeat constructor) 4) as (H1 & H2 & _).
  assert (Hl : live 5 (run (take 4 [EvClickConnect; EvTime 4000; EvInput "xyz";
                                     EvClickConnect; EvClickEnd]) ready_to_dial)).
  { eexists. split; [by vm_compute|done]. }
  split; [exact H1|]. split; [exact Hl|]. by apply H2.
Defined.

(** C1 (where the script departs).  A sequence of dial actions can leave
    two call sessions live.  The connection timeout of a call clears
    [currentCall] without checking that its call is still the current
    one (the periodic check beside it does check).  Dial "abc",
    dial "xyz" 10 s later (the first call, not yet open, is closed without
    its timer being cleared), and dial "q" at 30 s, after the first call's
    timeout has run: every timer fires when due and no library event
    occurs, yet the timeout drops the reference to the second call, the
    third dial finds nothing to close, and the second and third sessions
    are live at once.  The library was asked to close the first call only. *)
Theorem three_dials_two_live_sessions :
  Forall (λ e, dial_or_timer e = true) three_dials
  ∧ on_schedule three_dials ready_to_dial = true
  ∧ (let st := run (take 18 three_dials) ready_to_dial in
     now (loop st) = 30000%Z ∧ pending (TConnectionTimeout 4) st = true
     ∧ currentCall (vars st) = Some 5 ∧ live 5 st ∧ ¬ live 4 st)
  ∧ (let st := run (take 19 three_dials) ready_to_dial in
     currentCall (vars st) = None ∧ live 5 st)
  ∧ (let st := run three_dials ready_to_dial in
     currentCall (vars st) = Some 6
     ∧ live 5 st ∧ live 6 st
     ∧ ¬ at_most_one_live st
     ∧ fx (loop st)
       = [FxCall 6 "q" (Some 2) (Some 30000%Z); FxClose 4;
          FxCall 5 "xyz" (Some 2) (Some 10000%Z); FxClose 4;
          FxCall 4 "abc" (Some 2) (Some 0%Z); FxNewPeer 3; FxGetUserMedia]).
Proof.
  assert (H5 : live 5 (run three_dials ready_to_dial))
    by (eexists; split; [vm_compute; reflexivity | reflexivity]).
  assert (H6 : live 6 (run three_dials ready_to_dial))
    by (eexists; split; [vm_compute; reflexivity | reflexivity]).
  split; [repeat constructor|].
  split; [vm_compute; reflexivity|].
  split.
  { cbv zeta. split; [vm_compute; reflexivity|]. split; [vm_compute; reflexivity|].
    split; [vm_compute; reflexivity|].
    split; [eexists; split; [vm_compute; reflexivity | reflexivity]|].
    intros (o & Ho & Hl). vm_compute in Ho. injection Ho as <-. discriminate Hl. }
  split.
  { cbv zeta. split; [vm_compute; reflexivity|].
    eexists; split; [vm_compute; reflexivity | reflexivity]. }
  cbv zeta. split; [vm_compute; reflexivity|].
  split; [exact H5|]. split; [exact H6|].
  split; [|vm_compute; reflexivity].
  intros Hone. specialize (Hone 5 6 H5 H6). discriminate Hone.
Qed.

Lemma clearTimer_not_pending k st : pending k (clearTimer k st) = false.
Proof.
  unfold pending, clearTimer. simpl. apply bool_decide_eq_false_2.
  rewrite Exists_exists. intros (t & Ht & Hk).
  apply list_elem_of_filter in Ht as [Hne _]. done.
Qed.

Lemma pending_setTimer_ne d k k' st :
  k' ≠ k → pending k (setTimer d k' st) = pending k st.
Proof.
  intros Hne. unfold pending, setTimer. simpl. apply bool_decide_ext.
  rewrite Exists_app, Exists_cons, Exists_nil. simpl.
  split; [intros [?|[?|[]]]; [done|by destruct Hne] | by left].
Qed.

Lemma pending_setTimer_eq d k st : pending k (setTimer d k st) = true.
Proof.
  unfold pending, setTimer. simpl. apply bool_decide_eq_true_2.
  rewrite Exists_app, Exists_cons. simpl. auto.
Qed.

Lemma enable_first_frame k s st :
  vars (enable_first k s st) = vars st ∧ page (enable_first k s st) = page st
  ∧ loop (enable_first k s st) = loop st
  ∧ calls (heap (enable_first k s st)) = calls (heap st).
Proof.
  unfold enable_first. destruct (getTracks k s st) as [|t ?]; [done|].
  by destruct (track_enabled st t).
Qed.

(** What the stream handler does, whatever the state of its session. *)
Lemma on_call_stream_effect (c s : nat) (st : state) :
  let st' := on_call_stream c s st in
  remoteVideo_src (page st') = Some s
  ∧ status_text (page st') = "Connected"
  ∧ status_class (page st') = "status-connected"
  ∧ pending (TConnectionTimeout c) st' = false
  ∧ currentCall (vars st') = currentCall (vars st)
  ∧ calls (heap st') = calls (heap st)
  ∧ endCallBtn_disabled (page st') = endCallBtn_disabled (page st)
  ∧ (∀ d, live d st' ↔ live d st).
Proof.
  unfold on_call_stream. cbv zeta.
  set (st1 := set_remoteVideo_src (Some s) (clearTimer (TConnectionTimeout c) st)).
  destruct (enable_first_frame Video s st1) as (Hv1 & Hp1 & Hl1 & Hc1).
  set (st2 := enable_first Video s st1) in *.
  destruct (enable_first_frame Audio s st2) as (Hv2 & Hp2 & Hl2 & Hc2).
  set (st3 := enable_first Audio s st2) in *.
  assert (Hcalls : calls (heap st3) = calls (heap st)) by by rewrite Hc2, Hc1.
  repeat split.
  - simpl. by rewrite Hp2, Hp1.
  - unfold showNotification. rewrite pending_setTimer_ne by done.
    unfold pending. simpl. rewrite Hl2, Hl1.
    apply (clearTimer_not_pending _ st).
  - simpl. by rewrite Hv2, Hv1.
  - done.
  - simpl. by rewrite Hp2, Hp1.
  - intros (o & Ho & Hl). exists o. simpl in Ho. by rewrite Hcalls in Ho.
  - intros (o & Ho & Hl). exists o. simpl. by rewrite Hcalls.
Qed.

(** C2 (as the script behaves).  A remote-stream event is handled the same
    for a finished session as for a live one: the connection timeout of
    that session is cancelled, the stream becomes the remote view's source
    and the status reads Connected.  The current-call reference, the
    session table and the end-call control keep their values, so the
    finished session does not become the current call again. *)
Theorem late_stream_is_attached (c s : nat) (st : state) :
  let st' := on_call_stream c s st in
  remoteVideo_src (page st') = Some s
  ∧ status_text (page st') = "Connected"
  ∧ status_class (page st') = "status-connected"
  ∧ pending (TConnectionTimeout c) st' = false
  ∧ currentCall (vars st') = currentCall (vars st)
  ∧ calls (heap st') = calls (heap st)
  ∧ endCallBtn_disabled (page st') = endCallBtn_disabled (page st)
  ∧ (∀ d, live d st' ↔ live d st).
Proof. exact (on_call_stream_effect c s st). Qed.

Lemma late_stream_not_discarded :
  ¬ late_stream_discarded 4 [(Video, true); (Audio, true)] errored_call.
Proof.
  unfold late_stream_discarded. intros H.
  assert (Hd : ¬ live 4 errored_call).
  { intros (o & Ho & Hl). vm_compute in Ho. injection Ho as <-. discriminate Hl. }
  destruct (H Hd) as [Hr _]. vm_compute in Hr. discriminate Hr.
Qed.

Lemma call_close_cases c st :
  call_close c st = st
  ∨ ∃ o, calls (heap st) !! c = Some o
         ∧ (call_close c st = closed_quietly c o st
            ∨ call_close c st = on_call_close c (closed_quietly c o st)).
Proof.
  unfold call_close. destruct (calls (heap st) !! c) as [o|]; [|by left].
  right. exists o. split; [done|]. destruct (c_open o); auto.
Qed.

Lemma call_close_peers c st :
  peer (vars (call_close c st)) = peer (vars st)
  ∧ peers (heap (call_close c st)) = peers (heap st)
  ∧ localStream (vars (call_close c st)) = localStream (vars st).
Proof. destruct (call_close_cases c st) as [-> | (o & _ & [-> | ->])]; done. Qed.

Lemma endCall_frame st :
  currentCall (vars (endCall st)) = None
  ∧ peer (vars (endCall st)) = peer (vars st)
  ∧ peers (heap (endCall st)) = peers (heap st)
  ∧ localStream (vars (endCall st)) = localStream (vars st)
  ∧ next_id (heap (endCall st)) = next_id (heap st).
Proof.
  unfold endCall. destruct (currentCall (vars st)) as [c|] eqn:E; [|done]. simpl.
  destruct (call_close_peers c st) as (? & ? & ?). by rewrite call_close_next.
Qed.

Lemma peer_call_accepts remote stream ts st :
  peer_callable st = true →
  peer_call remote stream ts st
  = (Some (next_id (heap st)),
     emit (FxCall (next_id (heap st)) remote stream ts)
       (set_calls (<[next_id (heap st) := mkCall remote ts None false false stream]>
                     (calls (heap st)))
          (set_next_id (S (next_id (heap st))) st))).
Proof.
  unfold peer_callable, peer_call. destruct (peer (vars st)) as [p|]; [|done].
  destruct (peers (heap st) !! p) as [o|]; [|done]. by intros ->.
Qed.

Lemma peer_call_refuses remote stream ts st :
  peer_callable st = false →
  (peer_call remote stream ts st).1 = None
  ∧ vars (peer_call remote stream ts st).2 = vars st
  ∧ heap (peer_call remote stream ts st).2 = heap st
  ∧ page (peer_call remote stream ts st).2 = page st
  ∧ timers (loop (peer_call remote stream ts st).2) = timers (loop st).
Proof.
  unfold peer_callable, peer_call. destruct (peer (vars st)) as [p|]; [|done].
  destruct (peers (heap st) !! p) as [o|]; [|done]. by intros ->.
Qed.

(** C3 (as the script behaves).  The delayed re-dial does not look at
    whether the call was ended in the meantime.  After an intervening
    endCall the current-call reference is empty; when the re-dial then
    fires with a registration that has an identity and accepts the call,
    the new handle becomes the current call, stays open and gets its own
    timeout and periodic check.  Nothing is installed only when the
    registration has no identity or the library refuses the call. *)
Theorem late_redial_is_installed (peerId : string) (st : state) :
  let st1 := endCall st in
  let st' := stall_redial peerId st1 in
  let n := next_id (heap st) in
  currentCall (vars st1) = None
  ∧ (peer_ready st = true → peer_callable st = true →
     currentCall (vars st') = Some n
     ∧ live n st'
     ∧ pending (TConnectionTimeout n) st' = true
     ∧ pending (TConnectionCheck n) st' = true
     ∧ fx (loop st') = FxCall n peerId (localStream (vars st)) None :: fx (loop st1))
  ∧ (peer_ready st && peer_callable st = false →
     currentCall (vars st') = None ∧ calls (heap st') = calls (heap st1)).
Proof.
  intros st1 st' n.
  destruct (endCall_frame st) as (Hcur & Hp & Hps & Hls & Hn). fold st1 in Hcur, Hp, Hps, Hls, Hn.
  assert (Hr : peer_ready st1 = peer_ready st) by (unfold peer_ready; by rewrite Hp, Hps).
  assert (Hc : peer_callable st1 = peer_callable st)
    by (unfold peer_callable; by rewrite Hp, Hps).
  split; [done|]. split.
  - intros Hready Hcall. subst st'. unfold stall_redial.
    rewrite Hr, Hready, peer_call_accepts by by rewrite Hc.
    rewrite Hn, Hls. fold n. repeat split.
    + exists (mkCall peerId None None false false (localStream (vars st))).
      split; [|done]. simpl. by rewrite lookup_insert_eq.
    + unfold handleCallStream. rewrite pending_setTimer_ne by done.
      apply pending_setTimer_eq.
    + unfold handleCallStream. apply pending_setTimer_eq.
  - intros Hno. subst st'. unfold stall_redial. rewrite Hr.
    destruct (peer_ready st); [|done]. simpl in Hno.
    destruct (peer_call_refuses peerId (localStream (vars st1)) None st1)
      as (Hnone & Hv & Hh & _); [by rewrite Hc|].
    destruct (peer_call _ _ _ st1) as [[m|] st2]; [done|]. simpl in *.
    by rewrite Hv, Hh.
Qed.

Lemma late_redial_is_installed_witness :
  peer_ready stalled_call = true ∧ peer_callable stalled_call = true
  ∧ currentCall (vars (stall_redial "abc" (endCall stalled_call))) = Some 5
  ∧ live 5 (stall_redial "abc" (endCall stalled_call)).
Proof.
  assert (Hr : peer_ready stalled_call = true) by by vm_compute.
  assert (Hc : peer_callable stalled_call = true) by by vm_compute.
  split; [done|]. split; [done|].
  destruct (late_redial_is_installed "abc" stalled_call) as (_ & H & _).
  destruct (H Hr Hc) as (H1 & H2 & _). split; [exact H1 | exact H2].
Defined.

Lemma late_redial_not_discarded :
  ¬ late_redial_discarded "abc" (run [EvClickEnd; EvTime 2000] stalled_call).
Proof.
  unfold late_redial_discarded. intros H.
  destruct H as [Hc _]; [by vm_compute|]. vm_compute in Hc. discriminate Hc.
Qed.

(** Replaces a term of the goal the proof no longer needs to look into by
    a variable, keeping the fact [pf] about it. *)
Tactic Notation "forget_by" constr(pf) constr(t) "as" ident(x) ident(H) :=
  generalize pf; generalize t; intros x H.

(** Goes from [a] to [b] through [H : x = y], where [a] computes to [x];
    what is left, if anything, is to go from [y] to [b]. *)
Ltac through H :=
  match type of H with
  | ?x = ?y => transitivity x; [reflexivity | transitivity y; [exact H | try reflexivity]]
  end.

Lemma account_call_close c st : retry_account (call_close c st) = retry_account st.
Proof. destruct (call_close_cases c st) as [-> | (o & _ & [-> | ->])]; done. Qed.

Lemma account_peer_call remote stream ts st :
  retry_account (peer_call remote stream ts st).2 = retry_account st.
Proof.
  unfold peer_call. destruct (peer (vars st)) as [p|]; [|done].
  destruct (peers (heap st) !! p) as [o|]; [|done]. by destruct (p_callable o).
Qed.

Lemma account_initializePeerConnection st :
  retry_account (initializePeerConnection st) = retry_account st.
Proof. unfold initializePeerConnection. by destruct (peer (vars st)). Qed.

Lemma alloc_tracks_frame ks st :
  vars (alloc_tracks ks st).2 = vars st ∧ page (alloc_tracks ks st).2 = page st
  ∧ loop (alloc_tracks ks st).2 = loop st
  ∧ calls (heap (alloc_tracks ks st).2) = calls (heap st)
  ∧ peers (heap (alloc_tracks ks st).2) = peers (heap st).
Proof.
  revert st. induction ks as [|[k en] ks IH]; intros st; [done|]. simpl.
  specialize (IH (set_next_id (S (next_id (heap st)))
                    (set_tracks (<[next_id (heap st) := mkTrack k en]> (tracks (heap st))) st))).
  destruct (alloc_tracks ks _) as [ts st']. exact IH.
Qed.

Lemma alloc_stream_frame ks st :
  vars (alloc_stream ks st).2 = vars st ∧ page (alloc_stream ks st).2 = page st
  ∧ loop (alloc_stream ks st).2 = loop st
  ∧ calls (heap (alloc_stream ks st).2) = calls (heap st)
  ∧ peers (heap (alloc_stream ks st).2) = peers (heap st).
Proof.
  unfold alloc_stream. pose proof (alloc_tracks_frame ks st) as H.
  destruct (alloc_tracks ks st) as [ts st']. exact H.
Qed.

Lemma account_alloc_stream ks st :
  retry_account (alloc_stream ks st).2 = retry_account st.
Proof.
  destruct (alloc_stream_frame ks st) as (Hv & _ & Hl & _).
  unfold retry_account. by rewrite Hv, Hl.
Qed.

Lemma account_enable_first k s st : retry_account (enable_first k s st) = retry_account st.
Proof.
  destruct (enable_first_frame k s st) as (Hv & _ & Hl & _).
  unfold retry_account. by rewrite Hv, Hl.
Qed.

Lemma account_connectToPeer st : retry_account (connectToPeer st) = retry_account st.
Proof.
  unfold connectToPeer. case_bool_decide; [done|]. cbv zeta.
  set (st1 := match currentCall _ with Some c => call_close c _ | None => _ end).
  assert (H1 : retry_account st1 = retry_account st).
  { subst st1. destruct (currentCall _); [by rewrite account_call_close | done]. }
  clearbody st1. destruct (peer_ready st1); simpl.
  - pose proof (account_peer_call (peerId_trimmed (page st)) (localStream (vars st1))
                  (Some (now (loop st1))) st1) as H2.
    destruct (peer_call _ _ _ st1) as [[n|] st2]; simpl in H2; by rewrite <- H1, <- H2.
  - forget_by (account_initializePeerConnection st1) (initializePeerConnection st1)
      as s2 H2.
    through H2. through H1.
Qed.

Lemma account_endCall st : retry_account (endCall st) = retry_account st.
Proof.
  unfold endCall. destruct (currentCall (vars st)) as [c|]; [|done].
  forget_by (account_call_close c st) (call_close c st) as s1 H1. through H1.
Qed.

Lemma account_connection_timeout c st :
  retry_account (connection_timeout c st) = retry_account st.
Proof.
  unfold connection_timeout. destruct (remoteVideo_src (page st)); [done|]. cbv zeta.
  match goal with |- context [call_close c ?s] =>
    forget_by (account_call_close c s) (call_close c s) as s1 H1 end.
  through H1.
Qed.

Lemma account_connection_check c st :
  retry_account (connection_check c st) = retry_account st.
Proof.
  unfold connection_check. destruct (negb _); [done|].
  destruct (calls (heap st) !! c) as [o|]; [|done].
  destruct (_ && _); [|done]. destruct (ice_failed o); [|done]. cbv zeta.
  match goal with |- context [call_close c ?s] =>
    forget_by (account_call_close c s) (call_close c s) as s1 H1 end.
  through H1.
Qed.

Lemma account_stall_redial peerId st :
  retry_account (stall_redial peerId st) = retry_account st.
Proof.
  unfold stall_redial. destruct (peer_ready st); [|done].
  pose proof (account_peer_call peerId (localStream (vars st)) None st) as H.
  by destruct (peer_call _ _ _ st) as [[n|] st2].
Qed.

Lemma account_replace_redial peerId st :
  retry_account (replace_redial peerId st) = retry_account st.
Proof.
  unfold replace_redial.
  pose proof (account_peer_call peerId (localStream (vars st)) None st) as H.
  by destruct (peer_call _ _ _ st) as [[n|] st2].
Qed.

Lemma account_replaceCallWithNewStream st st' :
  replaceCallWithNewStream st = Some st' → retry_account st' = retry_account st.
Proof.
  unfold replaceCallWithNewStream. destruct (currentCall (vars st)) as [c|]; [|done].
  destruct (calls (heap st) !! c) as [o|]; [|done]. intros [= <-].
  forget_by (account_call_close c st) (call_close c st) as s1 H1. through H1.
Qed.

Lemma account_update_call c st :
  retry_account (update_call c st).1 = retry_account st.
Proof.
  unfold update_call.
  assert (Hfb : retry_account (match replaceCallWithNewStream st with
     | Some st' => (st', false)
     | None => (showNotification "Failed to update call with screen sharing" Error st, false)
     end).1 = retry_account st).
  { destruct (replaceCallWithNewStream st) eqn:E; [|done].
    by apply account_replaceCallWithNewStream. }
  destruct (senders_of c st) as [l|]; [|exact Hfb].
  destruct (find_video_sender st l) as [vs|]; [|exact Hfb].
  destruct (localStream (vars st)) as [s|]; [|done].
  destruct (getTracks Video s st); [exact Hfb|done].
Qed.

Lemma account_finish_toggle st : retry_account (finish_toggle st) = retry_account st.
Proof.
  unfold finish_toggle. cbv zeta.
  set (st1 := set_localVideo_src _ st).
  destruct (currentCall (vars st1)) as [c|].
  - pose proof (account_update_call c st1) as H.
    destruct (update_call c st1) as [st2 []]; exact H.
  - done.
Qed.

Lemma account_toggleScreenShare st :
  retry_account (toggleScreenShare st) = retry_account st.
Proof.
  unfold toggleScreenShare. destruct (isScreenSharing (vars st)); [|done].
  cbv zeta. by rewrite account_finish_toggle.
Qed.

Lemma account_addTrack s t st : retry_account (addTrack s t st) = retry_account st.
Proof. done. Qed.

Lemma account_toggleScreenShare_resume r st :
  retry_account (toggleScreenShare_resume r st) = retry_account st.
Proof.
  unfold toggleScreenShare_resume. destruct r as [extra|name message]; [|done].
  pose proof (account_alloc_stream ((Video, true) :: map (λ k, (k, true)) extra) st) as H.
  destruct (alloc_stream _ st) as [s st1]. simpl in H. cbv zeta.
  rewrite account_finish_toggle.
  set (st2 := match originalStream (vars st1) with Some _ => _ | None => _ end).
  assert (H2 : retry_account st2 = retry_account st1).
  { subst st2. destruct (originalStream (vars st1)) as [o|]; [|done].
    by destruct (getTracks Audio o st1). }
  clearbody st2.
  match goal with |- context [getTracks Video s ?x] => destruct (getTracks Video s x) end;
    by rewrite <- H, <- H2.
Qed.

Lemma account_toggleAudio st : retry_account (toggleAudio st) = retry_account st.
Proof.
  unfold toggleAudio. destruct (localStream (vars st)) as [s|]; [|done].
  by destruct (getTracks Audio s st).
Qed.

Lemma account_toggleVideo st : retry_account (toggleVideo st) = retry_account st.
Proof.
  unfold toggleVideo. destruct (localStream (vars st)) as [s|]; [|done].
  by destruct (getTracks Video s st).
Qed.

Lemma account_init_resume r st : retry_account (init_resume r st) = retry_account st.
Proof.
  unfold init_resume. destruct r as [ks|name message]; [|done]. cbv zeta.
  pose proof (account_alloc_stream (map (λ k, (k, true)) ks) (set_awaiting_media false st)) as H.
  destruct (alloc_stream _ _) as [s st1]. simpl in H.
  match goal with |- context [initializePeerConnection ?x] =>
    forget_by (account_initializePeerConnection x) (initializePeerConnection x)
      as s2 H2 end.
  through H2. through H.
Qed.

Lemma account_before_unload st : retry_account (before_unload st) = retry_account st.
Proof.
  unfold before_unload.
  set (st1 := match currentCall _ with Some c => call_close c _ | None => _ end).
  assert (H1 : retry_account st1 = retry_account st).
  { subst st1. destruct (currentCall _); [by rewrite account_call_close | done]. }
  clearbody st1. by destruct (peer (vars st1)).
Qed.

Lemma account_on_peer_error e st : retry_account (on_peer_error e st) = retry_account st.
Proof.
  unfold on_peer_error. cbv zeta.
  match goal with |- context [currentCall (vars ?x)] => destruct (currentCall (vars x)) end;
    by destruct e.
Qed.

Lemma account_on_call_stream c s st :
  retry_account (on_call_stream c s st) = retry_account st.
Proof.
  unfold on_call_stream. cbv zeta.
  match goal with |- context [enable_first Audio s ?x] =>
    forget_by (account_enable_first Audio s x) (enable_first Audio s x) as s2 H2 end.
  revert H2.
  match goal with |- context [enable_first Video s ?x] =>
    forget_by (account_enable_first Video s x) (enable_first Video s x) as s1 H1 end.
  intros H2. through H2. through H1.
Qed.

Lemma account_replace_settled ok st :
  retry_account (replace_settled ok st) = retry_account st.
Proof.
  unfold replace_settled. destruct ok; [done|].
  destruct (replaceCallWithNewStream st) eqn:E; [|done].
  by apply account_replaceCallWithNewStream.
Qed.

(** The delayed callback is the only place that touches the account. *)
Lemma account_reconnect_task st :
  retry_account (reconnect_task st)
  = if (reconnectAttempts (vars st) <? MAX_RECONNECT_ATTEMPTS)%nat then
      (S (reconnectAttempts (vars st)),
       match peer (vars st) with
       | Some _ => S (reconnects (fx (loop st)))
       | None => reconnects (fx (loop st))
       end)
    else retry_account st.
Proof.
  unfold reconnect_task. destruct (_ <? _)%nat; [|reflexivity].
  cbv zeta. change (peer (vars (set_reconnectAttempts _ st))) with (peer (vars st)).
  destruct (peer (vars st)); reflexivity.
Qed.

Lemma account_run_task k st :
  k ≠ TReconnect → retry_account (run_task k st) = retry_account st.
Proof.
  intros Hk. destruct k; simpl; try done.
  - apply account_initializePeerConnection.
  - apply account_connectToPeer.
  - apply account_connection_timeout.
  - apply account_connection_check.
  - apply account_stall_redial.
  - apply account_replace_redial.
  - unfold checkConnectivity. destruct (negb _); [done|].
    destruct (peer_healthy st); [done|]. apply account_initializePeerConnection.
Qed.

(** One step other than a successful registration: the counter does not go
    down, stays within its bound, and every reconnect is paid for by one
    increment of the counter. *)
Lemma step_account e st :
  is_open e = false →
  (reconnectAttempts (vars st) ≤ MAX_RECONNECT_ATTEMPTS)%nat →
  (reconnectAttempts (vars st) ≤ reconnectAttempts (vars (step e st)))%nat
  ∧ (reconnectAttempts (vars (step e st)) ≤ MAX_RECONNECT_ATTEMPTS)%nat
  ∧ (reconnects (fx (loop (step e st))) + reconnectAttempts (vars st)
     ≤ reconnects (fx (loop st)) + reconnectAttempts (vars (step e st)))%nat
  ∧ (reconnects (fx (loop st)) ≤ reconnects (fx (loop (step e st))))%nat.
Proof.
  intros He Hle.
  assert (Hsame : ∀ st', retry_account st' = retry_account st →
    (reconnectAttempts (vars st) ≤ reconnectAttempts (vars st'))%nat
    ∧ (reconnectAttempts (vars st') ≤ MAX_RECONNECT_ATTEMPTS)%nat
    ∧ (reconnects (fx (loop st')) + reconnectAttempts (vars st)
       ≤ reconnects (fx (loop st)) + reconnectAttempts (vars st'))%nat
    ∧ (reconnects (fx (loop st)) ≤ reconnects (fx (loop st')))%nat).
  { intros st' [= -> ->]. lia. }
  destruct e; try discriminate He; simpl.
  - apply Hsame. by destruct (bool_decide _).
  - apply Hsame. destruct (awaiting_media _); [apply account_init_resume | done].
  - by apply Hsame.
  - apply Hsame. destruct (listeners _); [apply account_connectToPeer | done].
  - apply Hsame. destruct (_ && _); [apply account_toggleAudio | done].
  - apply Hsame. destruct (_ && _); [apply account_toggleVideo | done].
  - apply Hsame. destruct (_ && _); [apply account_toggleScreenShare | done].
  - apply Hsame. destruct (_ && _); [apply account_endCall | done].
  - apply Hsame. destruct (awaiting_display _); [done|].
    by rewrite account_toggleScreenShare_resume.
  - apply Hsame. destruct (_ && _); [apply account_toggleScreenShare | done].
  - apply Hsame. destruct (awaiting_replace _); [done|].
    by rewrite account_replace_settled.
  - by apply Hsame.
  - apply Hsame. apply account_before_unload.
  - by apply Hsame.
  - unfold fire. destruct (take_due _ _ _) as [rest|]; [|by apply Hsame].
    destruct (decide (k = TReconnect)) as [->|Hk].
    + simpl.
      pose proof (account_reconnect_task (set_timers rest st)) as H. simpl in H.
      destruct (reconnectAttempts (vars st) <? MAX_RECONNECT_ATTEMPTS)%nat eqn:E.
      * apply Nat.ltb_lt in E. injection H as -> H2.
        destruct (peer (vars st)); rewrite H2; lia.
      * by apply Hsame.
    + apply Hsame. rewrite account_run_task by done. by destruct (period k).
  - apply Hsame. destruct (live_peer _ _); [|done]. simpl.
    cbv zeta.
    match goal with |- retry_account (on_peer_call _ ?x) = _ => by unfold on_peer_call end.
  - apply Hsame. by destruct (bool_decide _).
  - apply Hsame. by destruct (bool_decide _).
  - apply Hsame. destruct (bool_decide _); [apply account_on_peer_error | done].
  - apply Hsame. destruct (known_call _ _); [|done].
    pose proof (account_alloc_stream ks st) as H.
    destruct (alloc_stream ks st) as [s st1]. by rewrite account_on_call_stream.
  - apply Hsame. by destruct (known_call _ _).
  - apply Hsame. by destruct (known_call _ _).
  - apply Hsame. by destruct (live_peer _ _).
  - apply Hsame. destruct (calls (heap st) !! c) as [o|]; [|done]. by destruct (c_closed o).
Qed.

Lemma run_account es st :
  Forall (λ e, is_open e = false) es →
  (reconnectAttempts (vars st) ≤ MAX_RECONNECT_ATTEMPTS)%nat →
  (reconnectAttempts (vars st) ≤ reconnectAttempts (vars (run es st)))%nat
  ∧ (reconnectAttempts (vars (run es st)) ≤ MAX_RECONNECT_ATTEMPTS)%nat
  ∧ (reconnects (fx (loop (run es st))) + reconnectAttempts (vars st)
     ≤ reconnects (fx (loop st)) + reconnectAttempts (vars (run es st)))%nat
  ∧ (reconnects (fx (loop st)) ≤ reconnects (fx (loop (run es st))))%nat.
Proof.
  intros Hes. revert st. induction Hes as [|e es He _ IH]; intros st Hle.
  - simpl. lia.
  - destruct (step_account e st He Hle) as (H1 & H2 & H3 & H4).
    destruct (IH (step e st) H2) as (I1 & I2 & I3 & I4).
    change (run (e :: es) st) with (run es (step e st)). lia.
Qed.

(** C4.  A signalling disconnect only arms a callback 2 time-units ahead.
    The callback reconnects only while the counter is below 3, counting
    each attempt; the successful-registration event resets the counter
    to 0.  Hence, over any run without a successful registration, the
    counter stays within 3 and at most 3 minus its starting value
    reconnects are made: once three have failed, no fourth is attempted. *)
Theorem reconnection_is_bounded :
  (∀ st, let st' := on_peer_disconnected st in
     timers (loop st')
     = timers (loop st) ++ [mkTimer (now (loop st) + 2 * time_unit) TReconnect]
     ∧ retry_account st' = retry_account st)
  ∧ (∀ st p, peer (vars st) = Some p →
       let st' := reconnect_task st in
       if (reconnectAttempts (vars st) <? 3)%nat
       then reconnectAttempts (vars st') = S (reconnectAttempts (vars st))
            ∧ fx (loop st') = FxReconnect p :: fx (loop st)
       else reconnectAttempts (vars st') = reconnectAttempts (vars st)
            ∧ fx (loop st') = fx (loop st))
  ∧ (∀ id st, reconnectAttempts (vars (on_peer_open id st)) = 0)
  ∧ (∀ es st,
       Forall (λ e, is_open e = false) es →
       (reconnectAttempts (vars st) ≤ 3)%nat →
       let st' := run es st in
       (reconnectAttempts (vars st') ≤ 3)%nat
       ∧ (reconnects (fx (loop st')) + reconnectAttempts (vars st)
          ≤ reconnects (fx (loop st)) + 3)%nat
       ∧ (reconnectAttempts (vars st) = 3 →
          reconnects (fx (loop st')) = reconnects (fx (loop st)))).
Proof.
  split; [|split; [|split]].
  - intros st. split; reflexivity.
  - intros st p Hp. unfold reconnect_task. simpl.
    change MAX_RECONNECT_ATTEMPTS with 3.
    destruct (reconnectAttempts (vars st) <? 3)%nat.
    + cbv zeta. change (peer (vars (set_reconnectAttempts _ st))) with (peer (vars st)).
      rewrite Hp. split; reflexivity.
    + split; reflexivity.
  - reflexivity.
  - intros es st Hes Hle st'.
    destruct (run_account es st Hes Hle) as (H1 & H2 & H3 & H4). fold st' in H1, H2, H3, H4.
    change MAX_RECONNECT_ATTEMPTS with 3 in H2. repeat split; lia.
Qed.

Lemma reconnection_is_bounded_witness :
  Forall (λ e, is_open e = false) four_disconnects
  ∧ (reconnectAttempts (vars ready_to_dial) ≤ 3)%nat
  ∧ reconnects (fx (loop (run four_disconnects ready_to_dial))) = 3
  ∧ (reconnectAttempts (vars (run four_disconnects ready_to_dial)) ≤ 3)%nat.
Proof.
  assert (H1 : Forall (λ e, is_open e = false) four_disconnects)
    by (by repeat constructor).
  assert (H2 : (reconnectAttempts (vars ready_to_dial) ≤ 3)%nat)
    by (vm_compute; lia).
  split; [exact H1|]. split; [exact H2|]. split; [by vm_compute|].
  destruct reconnection_is_bounded as (_ & _ & _ & H).
  by destruct (H four_disconnects ready_to_dial H1 H2) as (? & _).
Defined.

Lemma armed_setTimer d k k' st :
  armed k (setTimer d k' st) = (armed k st + (if decide (k' = k) then 1 else 0))%nat.
Proof.
  unfold armed, setTimer. simpl. rewrite filter_app, length_app. f_equal.
  rewrite filter_cons. simpl. by destruct (decide (k' = k)).
Qed.

Lemma armed_clearTimer_ne k k' st :
  k' ≠ k → armed k (clearTimer k' st) = armed k st.
Proof.
  intros Hne. unfold armed, clearTimer. simpl.
  induction (timers (loop st)) as [|t l IH]; [done|].
  rewrite !filter_cons. destruct (decide (job t ≠ k')) as [H1|H1].
  - rewrite filter_cons. destruct (decide (job t = k)); simpl; by rewrite IH.
  - destruct (decide (job t = k)) as [H2|]; [|done].
    destruct H1. congruence.
Qed.

Lemma armed_clearTimer_eq k st : armed k (clearTimer k st) = 0.
Proof.
  unfold armed, clearTimer. simpl.
  induction (timers (loop st)) as [|t l IH]; [done|].
  rewrite filter_cons. destruct (decide (job t ≠ k)) as [H1|H1]; [|done].
  rewrite filter_cons. by destruct (decide (job t = k)).
Qed.

(** [close()] touches no re-dial timer. *)
Lemma call_close_redials c st :
  (∀ p, armed (TStallRedial p) (call_close c st) = armed (TStallRedial p) st)
  ∧ (∀ p, armed (TReplaceRedial p) (call_close c st) = armed (TReplaceRedial p) st)
  ∧ now (loop (call_close c st)) = now (loop st).
Proof.
  destruct (call_close_cases c st) as [-> | (o & _ & [-> | ->])]; try done.
  unfold on_call_close, showNotification.
  split; [|split; [|done]]; intros p.
  - rewrite armed_setTimer. rewrite decide_False by done.
    rewrite Nat.add_0_r.
    apply (armed_clearTimer_ne (TStallRedial p) (TConnectionTimeout c) (closed_quietly c o st)).
    done.
  - rewrite armed_setTimer. rewrite decide_False by done.
    rewrite Nat.add_0_r.
    apply (armed_clearTimer_ne (TReplaceRedial p) (TConnectionTimeout c) (closed_quietly c o st)).
    done.
Qed.

(** The check on a stalled current call: the code path it takes. *)
Lemma connection_check_stalled c o st :
  currentCall (vars st) = Some c →
  calls (heap st) !! c = Some o →
  remoteVideo_src (page st) = None →
  grace_elapsed o st = true →
  ice_failed o = true →
  connection_check c st
  = clearTimer (TConnectionCheck c)
      (setTimer STALL_REDIAL_MS (TStallRedial (c_peer o))
         (call_close c
            (showNotification "Connection problem detected. Trying to reconnect..."
               Error st))).
Proof.
  intros Hc Ho Hr Hg Hi. unfold connection_check.
  rewrite Hc, bool_decide_eq_true_2 by done. simpl.
  rewrite Ho, Hr, bool_decide_eq_true_2 by done. simpl.
  by rewrite Hg, Hi.
Qed.

(** The check on a session that carries no dial timestamp, or is not the
    current call. *)
Lemma connection_check_idle c o st :
  calls (heap st) !! c = Some o →
  c_timestamp o = None →
  currentCall (vars st) = Some c →
  connection_check c st = st.
Proof.
  intros Ho Ht Hc. unfold connection_check.
  rewrite Hc, bool_decide_eq_true_2 by done. simpl. rewrite Ho.
  unfold grace_elapsed. rewrite Ht. by rewrite andb_false_r.
Qed.

Lemma fresh_handle st : bounded st → calls (heap st) !! next_id (heap st) = None.
Proof.
  intros Hb. destruct (calls (heap st) !! next_id (heap st)) eqn:E; [|done].
  assert (is_Some (calls (heap st) !! next_id (heap st))) as H%Hb by eauto. lia.
Qed.

(** C5 (as the script behaves).  handleCallStream arms a check that runs
    every 5 time-units.  A run of the check that finds its session to be
    the current call, with a dial timestamp in its metadata more than 10
    time-units old, no stream in the remote view and a failed transport,
    finishes the session and schedules exactly one re-dial to the same
    remote 2 time-units ahead, and the check stops.  The re-dial, fired on
    a registration that has an identity and accepts the call, asks for one
    fresh handle and installs it.  A session without a dial timestamp (as
    the re-dialled ones are) is left alone by its check, and the check of
    a session that is not the current call only stops itself. *)
Theorem stalled_session_is_redialled (c : nat) (o : call) (ts : Z) (st : state) :
  currentCall (vars st) = Some c →
  calls (heap st) !! c = Some o →
  c_timestamp o = Some ts →
  remoteVideo_src (page st) = None →
  (now (loop st) - ts > 10 * time_unit)%Z →
  ice_failed o = true →
  (period (TConnectionCheck c) = Some (5 * time_unit)%Z
   ∧ ∀ s0, armed (TConnectionCheck c) (handleCallStream c s0)
           = S (armed (TConnectionCheck c) s0))
  ∧ (let st' := connection_check c st in
     ¬ live c st'
     ∧ fx (loop st') = FxClose c :: fx (loop st)
     ∧ armed (TStallRedial (c_peer o)) st' = S (armed (TStallRedial (c_peer o)) st)
     ∧ (∀ p, p ≠ c_peer o → armed (TStallRedial p) st' = armed (TStallRedial p) st)
     ∧ mkTimer (now (loop st) + 2 * time_unit) (TStallRedial (c_peer o))
       ∈ timers (loop st')
     ∧ armed (TConnectionCheck c) st' = 0)
  ∧ (∀ s1, peer_ready s1 = true → peer_callable s1 = true → bounded s1 →
       let n := next_id (heap s1) in
       let s2 := stall_redial (c_peer o) s1 in
       calls (heap s1) !! n = None
       ∧ fx (loop s2) = FxCall n (c_peer o) (localStream (vars s1)) None :: fx (loop s1)
       ∧ currentCall (vars s2) = Some n
       ∧ live n s2)
  ∧ (∀ s1 c1 o1, calls (heap s1) !! c1 = Some o1 → c_timestamp o1 = None →
       currentCall (vars s1) = Some c1 → connection_check c1 s1 = s1)
  ∧ (∀ s1, currentCall (vars s1) ≠ Some c →
       connection_check c s1 = clearTimer (TConnectionCheck c) s1).
Proof.
  intros Hc Ho Hts Hr Hel Hi.
  assert (Hg : grace_elapsed o st = true).
  { unfold grace_elapsed. rewrite Hts. apply bool_decide_eq_true_2.
    unfold STALL_GRACE_MS. unfold time_unit in Hel. lia. }
  split; [|split; [|split; [|split]]].
  - split; [done|]. intros s0. unfold handleCallStream.
    rewrite !armed_setTimer. rewrite decide_False by done.
    rewrite decide_True by done. lia.
  - rewrite (connection_check_stalled c o st Hc Ho Hr Hg Hi).
    set (X := showNotification _ Error st).
    assert (Hk : is_Some (calls (heap X) !! c)) by (exists o; exact Ho).
    destruct (call_close_frame c X) as (_ & _ & _ & Hfx). specialize (Hfx Hk).
    destruct (call_close_redials c X) as (Hsr & _ & Hnow).
    pose proof (λ d, call_close_live c X d) as Hlive.
    revert Hfx Hsr Hnow Hlive. generalize (call_close c X). intros s1 Hfx Hsr Hnow Hlive.
    repeat split.
    + intros (o' & Ho' & Hl'). apply (Hlive c); [|done]. by exists o'.
    + etrans; [|exact Hfx]. reflexivity.
    + rewrite armed_clearTimer_ne by done. rewrite armed_setTimer.
      rewrite decide_True by done. rewrite Hsr.
      unfold X, showNotification. rewrite armed_setTimer.
      rewrite decide_False by done. unfold armed. simpl. lia.
    + intros p Hp. rewrite armed_clearTimer_ne by done. rewrite armed_setTimer.
      rewrite decide_False by congruence. rewrite Hsr.
      unfold X, showNotification. rewrite armed_setTimer.
      rewrite decide_False by done. unfold armed. simpl. lia.
    + unfold clearTimer, setTimer. simpl. apply list_elem_of_filter. split; [done|].
      apply elem_of_app. right. rewrite Hnow. apply list_elem_of_singleton.
      reflexivity.
    + apply armed_clearTimer_eq.
  - intros s1 Hready Hcall Hb n s2. split; [by apply fresh_handle|].
    subst s2. unfold stall_redial. rewrite Hready, peer_call_accepts by done.
    fold n. repeat split.
    exists (mkCall (c_peer o) None None false false (localStream (vars s1))).
    split; [|done]. simpl. by rewrite lookup_insert_eq.
  - intros s1 c1 o1. apply connection_check_idle.
  - intros s1 Hne. unfold connection_check. by rewrite bool_decide_eq_false_2.
Qed.

Lemma stalled_session_is_redialled_witness :
  currentCall (vars stalling_call) = Some 4
  ∧ calls (heap stalling_call) !! 4
    = Some (mkCall "abc" (Some 0%Z) failed_transport false false (Some 2))
  ∧ remoteVideo_src (page stalling_call) = None
  ∧ (now (loop stalling_call) - 0 > 10 * time_unit)%Z
  ∧ ¬ live 4 (connection_check 4 stalling_call)
  ∧ armed (TStallRedial "abc") (connection_check 4 stalling_call) = 1.
Proof.
  assert (H1 : currentCall (vars stalling_call) = Some 4) by by vm_compute.
  assert (H2 : calls (heap stalling_call) !! 4
               = Some (mkCall "abc" (Some 0%Z) failed_transport false false (Some 2)))
    by by vm_compute.
  assert (H3 : remoteVideo_src (page stalling_call) = None) by by vm_compute.
  assert (H4 : (now (loop stalling_call) - 0 > 10 * time_unit)%Z) by by vm_compute.
  destruct (stalled_session_is_redialled 4 _ 0 stalling_call H1 H2 eq_refl H3 H4 eq_refl)
    as (_ & (Hl & _ & Ha & _) & _).
  repeat split; try done.
Defined.

Lemma redialled_call_not_recovered :
  now (loop redialled_call) = 17000%Z
  ∧ head (fx (loop redialled_call)) = Some (FxCall 5 "abc" (Some 2) None)
  ∧ ¬ stall_recovered 5 17000
        (run [EvLibCall 5 failed_transport false; EvTime 11000] redialled_call).
Proof.
  split; [by vm_compute|]. split; [by vm_compute|].
  unfold stall_recovered. intros H.
  destruct H as [Hl _]; try by vm_compute.
  - eexists. split; by vm_compute.
  - apply Hl. eexists. split; by vm_compute.
Qed.

Lemma on_call_stream_timers c s st :
  armed (TConnectionTimeout c) (on_call_stream c s st) = 0.
Proof.
  unfold on_call_stream, showNotification. cbv zeta.
  rewrite armed_setTimer, decide_False by done. rewrite Nat.add_0_r.
  set (st1 := set_remoteVideo_src (Some s) (clearTimer (TConnectionTimeout c) st)).
  destruct (enable_first_frame Video s st1) as (_ & _ & Hl1 & _).
  revert Hl1. generalize (enable_first Video s st1). intros s1 Hl1.
  destruct (enable_first_frame Audio s s1) as (_ & _ & Hl2 & _).
  revert Hl2. generalize (enable_first Audio s s1). intros s2 Hl2.
  unfold armed. simpl. rewrite Hl2, Hl1.
  apply (armed_clearTimer_eq (TConnectionTimeout c) st).
Qed.

Lemma call_close_notes c st n :
  n ∈ notes (page st) → n ∈ notes (page (call_close c st)).
Proof.
  destruct (call_close_cases c st) as [-> | (o & _ & [-> | ->])]; try done.
  intros H. simpl. by apply elem_of_cons; right.
Qed.

(** C6 (as the script behaves).  handleCallStream arms one connection
    timeout 30 time-units ahead.  A remote stream for the session cancels
    it, becomes the remote view's source and sets the status to Connected.
    When the timeout fires and the remote view holds no stream, the call
    is closed, the timeout is reported, the current-call reference is
    cleared and the end-call control disabled.  When it fires while the
    remote view holds a stream, whichever session supplied it, nothing
    happens. *)
Theorem connection_timeout_behaviour (c : nat) (st : state) :
  (armed (TConnectionTimeout c) (handleCallStream c st)
   = S (armed (TConnectionTimeout c) st)
   ∧ mkTimer (now (loop st) + 30 * time_unit) (TConnectionTimeout c)
     ∈ timers (loop (handleCallStream c st)))
  ∧ (∀ s, armed (TConnectionTimeout c) (on_call_stream c s st) = 0
          ∧ remoteVideo_src (page (on_call_stream c s st)) = Some s
          ∧ status_text (page (on_call_stream c s st)) = "Connected")
  ∧ (remoteVideo_src (page st) = None →
     is_Some (calls (heap st) !! c) →
     let st' := connection_timeout c st in
     ¬ live c st'
     ∧ currentCall (vars st') = None
     ∧ endCallBtn_disabled (page st') = true
     ∧ fx (loop st') = FxClose c :: fx (loop st)
     ∧ ("Connection timed out. The other user may not be available.", Error)
       ∈ notes (page st'))
  ∧ (is_Some (remoteVideo_src (page st)) → connection_timeout c st = st).
Proof.
  split; [|split; [|split]].
  - split.
    + unfold handleCallStream. rewrite !armed_setTimer.
      rewrite decide_True by done. rewrite decide_False by done. lia.
    + unfold handleCallStream, setTimer. simpl.
      apply elem_of_app. left. apply elem_of_app. right.
      apply list_elem_of_singleton. reflexivity.
  - intros s. split; [apply on_call_stream_timers|].
    destruct (on_call_stream_effect c s st) as (H1 & H2 & _). by split.
  - intros Hr Hk st'. subst st'. unfold connection_timeout. rewrite Hr. cbv zeta.
    set (X := showNotification _ Error _).
    assert (HkX : is_Some (calls (heap X) !! c)) by exact Hk.
    destruct (call_close_frame c X) as (_ & _ & _ & Hfx). specialize (Hfx HkX).
    pose proof (λ d, call_close_live c X d) as Hlive.
    pose proof (call_close_notes c X
      ("Connection timed out. The other user may not be available.", Error)) as Hn.
    revert Hfx Hlive Hn. generalize (call_close c X). intros s1 Hfx Hlive Hn.
    repeat split.
    + intros (o' & Ho' & Hl'). apply (Hlive c); [|done]. by exists o'.
    + etrans; [|exact Hfx]. reflexivity.
    + apply Hn. apply elem_of_cons. by left.
  - intros [s Hs]. unfold connection_timeout. by rewrite Hs.
Qed.

Lemma connection_timeout_behaviour_witness :
  remoteVideo_src (page stalling_call) = None
  ∧ is_Some (calls (heap stalling_call) !! 4)
  ∧ ¬ live 4 (connection_timeout 4 stalling_call)
  ∧ currentCall (vars (connection_timeout 4 stalling_call)) = None.
Proof.
  assert (H1 : remoteVideo_src (page stalling_call) = None) by by vm_compute.
  assert (H2 : is_Some (calls (heap stalling_call) !! 4)) by (eexists; by vm_compute).
  destruct (connection_timeout_behaviour 4 stalling_call) as (_ & _ & H & _).
  destruct (H H1 H2) as (Ha & Hb & _). by repeat split.
Defined.

Lemma second_call_never_times_out : ¬ timeout_closes 8 second_call_waiting.
Proof.
  unfold timeout_closes. intros H.
  destruct H as [_ Hc].
  - eexists. split; [vm_compute; reflexivity | reflexivity].
  - vm_compute. reflexivity.
  - vm_compute in Hc. discriminate Hc.
Qed.







Lemma kind_of_set_enabled t b st t' : kind_of (set_enabled t b st) t' = kind_of st t'.
Proof.
  unfold kind_of, set_enabled. simpl. rewrite lookup_alter.
  destruct (decide (t = t')) as [->|]; [|done].
  by destruct (tracks (heap st) !! t').
Qed.

Lemma getTracks_set_enabled k s t b st :
  getTracks k s (set_enabled t b st) = getTracks k s st.
Proof.
  unfold getTracks. change (streams (heap (set_enabled t b st))) with (streams (heap st)).
  destruct (streams (heap st) !! s) as [ts|]; [|done].
  apply list_filter_iff. intros t'. by rewrite kind_of_set_enabled.
Qed.

Lemma getTracks_in k s st t : t ∈ getTracks k s st → is_Some (tracks (heap st) !! t).
Proof.
  unfold getTracks. destruct (streams (heap st) !! s) as [ts|]; [|by intros ?%elem_of_nil].
  intros [Hk _]%list_elem_of_filter. unfold kind_of in Hk.
  destruct (tracks (heap st) !! t); [eauto | done].
Qed.

Lemma track_enabled_set t b st :
  is_Some (tracks (heap st) !! t) → track_enabled (set_enabled t b st) t = b.
Proof.
  intros [o Ho]. unfold track_enabled, set_enabled. simpl.
  by rewrite lookup_alter_eq, Ho.
Qed.

(** One toggle on a stream that has a track of the kind. *)
Lemma toggleAudio_track st s t l :
  localStream (vars st) = Some s → getTracks Audio s st = t :: l →
  let st' := toggleAudio st in
  isAudioMuted (vars st') = negb (isAudioMuted (vars st))
  ∧ track_enabled st' t = isAudioMuted (vars st)
  ∧ localStream (vars st') = Some s
  ∧ getTracks Audio s st' = t :: l
  ∧ isVideoOff (vars st') = isVideoOff (vars st).
Proof.
  intros Hs Ht. unfold toggleAudio. rewrite Hs, Ht. cbv zeta.
  assert (Hin : is_Some (tracks (heap st) !! t)).
  { apply (getTracks_in Audio s). rewrite Ht. by left. }
  repeat split; try done.
  - change (track_enabled (set_enabled t (negb (negb (isAudioMuted (vars st)))) st) t
            = isAudioMuted (vars st)).
    rewrite track_enabled_set by done. apply negb_involutive.
  - etrans; [|exact Ht].
    apply (getTracks_set_enabled Audio s t (negb (negb (isAudioMuted (vars st)))) st).
Qed.

Lemma toggleVideo_track st s t l :
  localStream (vars st) = Some s → getTracks Video s st = t :: l →
  let st' := toggleVideo st in
  isVideoOff (vars st') = negb (isVideoOff (vars st))
  ∧ track_enabled st' t = isVideoOff (vars st)
  ∧ localStream (vars st') = Some s
  ∧ getTracks Video s st' = t :: l
  ∧ isAudioMuted (vars st') = isAudioMuted (vars st).
Proof.
  intros Hs Ht. unfold toggleVideo. rewrite Hs, Ht. cbv zeta.
  assert (Hin : is_Some (tracks (heap st) !! t)).
  { apply (getTracks_in Video s). rewrite Ht. by left. }
  repeat split; try done.
  - change (track_enabled (set_enabled t (negb (negb (isVideoOff (vars st)))) st) t
            = isVideoOff (vars st)).
    rewrite track_enabled_set by done. apply negb_involutive.
  - etrans; [|exact Ht].
    apply (getTracks_set_enabled Video s t (negb (negb (isVideoOff (vars st)))) st).
Qed.

(** C8 (as the script behaves).  With a local stream present, toggling
    audio twice, or video twice, brings the mute/off flag back to its
    value and leaves the first track of that kind enabled exactly when the
    flag is unset: the track's enabled flag is back at its value whenever
    it agreed with the flag before, and is overwritten otherwise.  When
    the stream has no track of the kind, the toggle only posts the
    no-track notification: no flag and no track changes. *)
Theorem double_toggle (st : state) (s : nat) :
  localStream (vars st) = Some s →
  (∀ t l, getTracks Audio s st = t :: l →
     let st' := toggleAudio (toggleAudio st) in
     isAudioMuted (vars st') = isAudioMuted (vars st)
     ∧ track_enabled st' t = negb (isAudioMuted (vars st))
     ∧ (track_enabled st t = negb (isAudioMuted (vars st)) →
        track_enabled st' t = track_enabled st t))
  ∧ (∀ t l, getTracks Video s st = t :: l →
     let st' := toggleVideo (toggleVideo st) in
     isVideoOff (vars st') = isVideoOff (vars st)
     ∧ track_enabled st' t = negb (isVideoOff (vars st))
     ∧ (track_enabled st t = negb (isVideoOff (vars st)) →
        track_enabled st' t = track_enabled st t))
  ∧ (getTracks Audio s st = [] →
     toggleAudio st = showNotification "No audio track found" Error st
     ∧ vars (toggleAudio st) = vars st ∧ heap (toggleAudio st) = heap st)
  ∧ (getTracks Video s st = [] →
     toggleVideo st = showNotification "No video track found" Error st
     ∧ vars (toggleVideo st) = vars st ∧ heap (toggleVideo st) = heap st).
Proof.
  intros Hs. split; [|split; [|split]].
  - intros t l Ht st'. subst st'.
    destruct (toggleAudio_track st s t l Hs Ht) as (H1 & _ & H3 & H4 & _).
    destruct (toggleAudio_track (toggleAudio st) s t l H3 H4) as (G1 & G2 & _).
    revert H1 G1 G2. generalize (toggleAudio (toggleAudio st)). intros s2 H1 G1 G2.
    assert (E : isAudioMuted (vars s2) = isAudioMuted (vars st))
      by (rewrite G1, H1; apply negb_involutive).
    split; [exact E|]. split; [by rewrite G2, H1|]. intros He. by rewrite G2, H1, He.
  - intros t l Ht st'. subst st'.
    destruct (toggleVideo_track st s t l Hs Ht) as (H1 & _ & H3 & H4 & _).
    destruct (toggleVideo_track (toggleVideo st) s t l H3 H4) as (G1 & G2 & _).
    revert H1 G1 G2. generalize (toggleVideo (toggleVideo st)). intros s2 H1 G1 G2.
    assert (E : isVideoOff (vars s2) = isVideoOff (vars st))
      by (rewrite G1, H1; apply negb_involutive).
    split; [exact E|]. split; [by rewrite G2, H1|]. intros He. by rewrite G2, H1, He.
  - intros Ht. unfold toggleAudio. rewrite Hs, Ht. by repeat split.
  - intros Ht. unfold toggleVideo. rewrite Hs, Ht. by repeat split.
Qed.

Lemma double_toggle_witness :
  localStream (vars ready_to_dial) = Some 2
  ∧ getTracks Audio 2 ready_to_dial = [0]
  ∧ isAudioMuted (vars (toggleAudio (toggleAudio ready_to_dial)))
    = isAudioMuted (vars ready_to_dial)
  ∧ track_enabled (toggleAudio (toggleAudio ready_to_dial)) 0
    = negb (isAudioMuted (vars ready_to_dial)).
Proof.
  assert (H1 : localStream (vars ready_to_dial) = Some 2) by (vm_compute; reflexivity).
  assert (H2 : getTracks Audio 2 ready_to_dial = [0]) by (vm_compute; reflexivity).
  destruct (double_toggle ready_to_dial 2 H1) as (Ha & _).
  destruct (Ha 0 [] H2) as (Ha1 & Ha2 & _).
  split; [exact H1|]. split; [exact H2|]. split; [exact Ha1 | exact Ha2].
Defined.

Lemma video_double_toggle_disables :
  ¬ double_toggle_restores toggleVideo (λ st, isVideoOff (vars st)) Video
      video_off_then_screen.
Proof.
  unfold double_toggle_restores. intros H.
  destruct (H 5 4) as [_ He].
  - vm_compute. reflexivity.
  - vm_compute. reflexivity.
  - vm_compute in He. discriminate He.
Qed.

Lemma call_close_flag c st :
  isScreenSharing (vars (call_close c st)) = isScreenSharing (vars st).
Proof. destruct (call_close_cases c st) as [-> | (o' & _ & [-> | ->])]; done. Qed.

Lemma update_call_flag c st :
  isScreenSharing (vars (update_call c st).1) = isScreenSharing (vars st).
Proof.
  unfold update_call.
  assert (Hfb : isScreenSharing (vars (match replaceCallWithNewStream st with
     | Some st' => (st', false)
     | None => (showNotification "Failed to update call with screen sharing" Error st, false)
     end).1) = isScreenSharing (vars st)).
  { unfold replaceCallWithNewStream. destruct (currentCall (vars st)) as [c'|]; [|done].
    destruct (calls (heap st) !! c') as [o|]; [|done]. simpl.
    forget_by (call_close_flag c' st) (call_close c' st) as s1 H1. through H1. }
  destruct (senders_of c st) as [l|]; [|exact Hfb].
  destruct (find_video_sender st l) as [vs|]; [|exact Hfb].
  destruct (localStream (vars st)) as [s|]; [|done].
  destruct (getTracks Video s st); [exact Hfb|done].
Qed.

(** The path through [return] is taken exactly when in-place replacement
    has a target. *)
Lemma update_call_returns c st :
  currentCall (vars st) = Some c →
  (update_call c st).2 = bool_decide (is_Some (in_place_target st)).
Proof.
  intros Hc. unfold update_call, in_place_target. rewrite Hc.
  assert (Hfb : (match replaceCallWithNewStream st with
     | Some st' => (st', false)
     | None => (showNotification "Failed to update call with screen sharing" Error st, false)
     end).2 = false) by by destruct (replaceCallWithNewStream st).
  assert (Hn : bool_decide (is_Some (@None (nat * sender * nat))) = false).
  { apply bool_decide_eq_false_2. by intros [? ?]. }
  destruct (senders_of c st) as [l|]; [|by rewrite Hfb, Hn].
  destruct (find_video_sender st l) as [vs|]; [|by rewrite Hfb, Hn].
  destruct (localStream (vars st)) as [s|]; [|by rewrite Hn].
  destruct (getTracks Video s st) as [|t ?]; [by rewrite Hfb, Hn|].
  reflexivity.
Qed.

Lemma finish_toggle_flag st :
  isScreenSharing (vars (finish_toggle st))
  = match in_place_target st with
    | Some _ => isScreenSharing (vars st)
    | None => negb (isScreenSharing (vars st))
    end.
Proof.
  unfold finish_toggle. cbv zeta.
  set (st1 := set_localVideo_src (localStream (vars st)) st).
  change (in_place_target st) with (in_place_target st1).
  change (isScreenSharing (vars st)) with (isScreenSharing (vars st1)).
  clearbody st1. destruct (currentCall (vars st1)) as [c|] eqn:Hc.
  - pose proof (update_call_flag c st1) as Hf.
    pose proof (update_call_returns c st1 Hc) as Hr.
    destruct (update_call c st1) as [st2 r]. simpl in Hf, Hr. subst r.
    destruct (in_place_target st1) as [x|].
    + rewrite bool_decide_eq_true_2 by eauto. exact Hf.
    + rewrite bool_decide_eq_false_2 by (by intros [? ?]). simpl. by rewrite Hf.
  - unfold in_place_target. by rewrite Hc.
Qed.

Lemma finish_toggle_source st :
  localStream (vars (finish_toggle st)) = localStream (vars st)
  ∧ originalStream (vars (finish_toggle st)) = originalStream (vars st).
Proof.
  assert (Hcc : ∀ c s0, localStream (vars (call_close c s0)) = localStream (vars s0)
                        ∧ originalStream (vars (call_close c s0)) = originalStream (vars s0)).
  { intros c s0. destruct (call_close_cases c s0) as [-> | (o' & _ & [-> | ->])]; done. }
  assert (Hu : ∀ c s0, localStream (vars (update_call c s0).1) = localStream (vars s0)
                       ∧ originalStream (vars (update_call c s0).1) = originalStream (vars s0)).
  { intros c s0. unfold update_call.
    assert (Hfb : localStream (vars (match replaceCallWithNewStream s0 with
       | Some st' => (st', false)
       | None => (showNotification "Failed to update call with screen sharing" Error s0,
                  false)
       end).1) = localStream (vars s0)
       ∧ originalStream (vars (match replaceCallWithNewStream s0 with
       | Some st' => (st', false)
       | None => (showNotification "Failed to update call with screen sharing" Error s0,
                  false)
       end).1) = originalStream (vars s0)).
    { unfold replaceCallWithNewStream. destruct (currentCall (vars s0)) as [c'|]; [|done].
      destruct (calls (heap s0) !! c') as [o|]; [|done]. simpl.
      forget_by (Hcc c' s0) (call_close c' s0) as s1 H1. destruct H1 as [H1 H2].
      split; [through H1 | through H2]. }
    destruct (senders_of c s0) as [l|]; [|exact Hfb].
    destruct (find_video_sender s0 l) as [vs|]; [|exact Hfb].
    destruct (localStream (vars s0)) as [s|] eqn:E;
      [|split; [exact E | reflexivity]].
    destruct (getTracks Video s s0);
      [exact Hfb | split; [exact E | reflexivity]]. }
  unfold finish_toggle. cbv zeta.
  set (st1 := set_localVideo_src (localStream (vars st)) st).
  change (localStream (vars st)) with (localStream (vars st1)).
  change (originalStream (vars st)) with (originalStream (vars st1)).
  clearbody st1. destruct (currentCall (vars st1)) as [c|] eqn:Hc.
  - specialize (Hu c st1). destruct (update_call c st1) as [st2 []]; exact Hu.
  - done.
Qed.

(** C9.  In what remains of toggleScreenShare once the active source has
    been switched, the flag [isScreenSharing] keeps its value exactly on
    the path that replaces the video track in place (a call is current,
    one of its senders carries a video track and the new source has a
    video track), and is flipped on every other path; the active source
    is the switched one either way.  When the display stream is refused,
    the one throwing path, neither changes.  So the flag and the active
    source are settled independently: a screen share started during a
    call with in-place replacement leaves the screen active and the flag
    unset, while the same request on a handle without senders sets it. *)
Theorem screen_share_flag_per_path :
  (∀ st, isScreenSharing (vars (finish_toggle st))
         = match in_place_target st with
           | Some _ => isScreenSharing (vars st)
           | None => negb (isScreenSharing (vars st))
           end
         ∧ localStream (vars (finish_toggle st)) = localStream (vars st))
  ∧ (∀ st, isScreenSharing (vars st) = true →
       toggleScreenShare st
       = finish_toggle (showNotification "Screen sharing stopped" Info
                          (set_screenShareBtn_text "Share Screen"
                             (set_localStream (originalStream (vars st)) st))))
  ∧ (∀ st name message,
       vars (toggleScreenShare_resume (DisplayError name message) st) = vars st)
  ∧ (let st' := screen_granted connected_call in
     isScreenSharing (vars st') = false
     ∧ localStream (vars st') = Some 9
     ∧ originalStream (vars st') = Some 2
     ∧ head (fx (loop st')) = Some (FxReplaceTrack 4 (Some 1) 8))
  ∧ (let st' := screen_granted connected_call_no_senders in
     isScreenSharing (vars st') = true
     ∧ localStream (vars st') = Some 9).
Proof.
  split; [|split; [|split; [|split]]].
  - intros st. split; [apply finish_toggle_flag | apply finish_toggle_source].
  - intros st Hs. unfold toggleScreenShare. by rewrite Hs.
  - reflexivity.
  - vm_compute. repeat split.
  - vm_compute. repeat split.
Qed.

Lemma screen_share_flag_per_path_witness :
  isScreenSharing (vars (screen_granted connected_call_no_senders)) = true
  ∧ toggleScreenShare (screen_granted connected_call_no_senders)
    = finish_toggle
        (showNotification "Screen sharing stopped" Info
           (set_screenShareBtn_text "Share Screen"
              (set_localStream
                 (originalStream (vars (screen_granted connected_call_no_senders)))
                 (screen_granted connected_call_no_senders)))).
Proof.
  assert (H : isScreenSharing (vars (screen_granted connected_call_no_senders)) = true)
    by (vm_compute; reflexivity).
  destruct screen_share_flag_per_path as (_ & Ht & _).
  split; [exact H | exact (Ht _ H)].
Defined.

Lemma initializePeerConnection_counter n st :
  initializePeerConnection (set_reconnectAttempts n st)
  = set_reconnectAttempts n (initializePeerConnection st).
Proof.
  unfold initializePeerConnection.
  change (peer (vars (set_reconnectAttempts n st))) with (peer (vars st)).
  by destruct (peer (vars st)).
Qed.

(** C10 (as the script behaves).  The connectivity check is armed when the
    script starts and runs every 10 time-units.  While the browser is
    online: a registration that is missing, disconnected or without
    identity is destroyed and replaced by a fresh one, whatever the value
    of the reconnect counter, which is neither read nor changed; the fresh
    registration has no identity until its successful-registration event
    delivers one; a healthy registration leaves the state as it is.  While
    the browser is offline the check only reports that, and the
    registration is left alone whatever its condition. *)
Theorem connectivity_check_behaviour (st : state) :
  (period TCheckConnectivity = Some (10 * time_unit)%Z
   ∧ ∀ html t0, timers (loop (boot html t0))
                = [mkTimer (t0 + 10 * time_unit) TCheckConnectivity])
  ∧ (online (heap st) = true → peer_healthy st = false →
     let st' := (checkConnectivity st).2 in
     let p' := next_id (heap st) in
     peer (vars st') = Some p'
     ∧ peers (heap st') !! p' = Some (mkPeer None false false false)
     ∧ fx (loop st')
       = FxNewPeer p' :: match peer (vars st) with
                         | Some p => [FxDestroy p]
                         | None => []
                         end ++ fx (loop st)
     ∧ (∀ p o, peer (vars st) = Some p → peers (heap st) !! p = Some o → p ≠ p' →
          peers (heap st') !! p = Some (mkPeer (p_id o) true true false))
     ∧ reconnectAttempts (vars st') = reconnectAttempts (vars st)
     ∧ (∀ n, (checkConnectivity (set_reconnectAttempts n st)).2
             = set_reconnectAttempts n st')
     ∧ (∀ id, let st'' := step (EvPeerOpen p' id) st' in
              peers (heap st'') !! p' = Some (mkPeer (Some id) false false true)
              ∧ roomId_text (page st'') = id))
  ∧ (online (heap st) = true → peer_healthy st = true →
     checkConnectivity st = (true, st))
  ∧ (online (heap st) = false →
     let st' := (checkConnectivity st).2 in
     (checkConnectivity st).1 = false
     ∧ vars st' = vars st ∧ heap st' = heap st ∧ fx (loop st') = fx (loop st)
     ∧ status_text (page st') = "You are offline. Please check your internet connection."
     ∧ head (notes (page st')) = Some ("Internet connection lost", Error)).
Proof.
  split; [|split; [|split]].
  - split; [done|]. intros html t0. reflexivity.
  - intros Hon Hh st' p'. subst st'. unfold checkConnectivity.
    rewrite Hon, Hh. simpl. unfold initializePeerConnection.
    split; [by destruct (peer (vars st))|].
    split; [destruct (peer (vars st)); simpl; by rewrite lookup_insert_eq|].
    split; [by destruct (peer (vars st))|].
    split.
    { intros p o Hp Ho Hne. rewrite Hp. simpl. rewrite lookup_insert_ne by done.
      by rewrite lookup_alter_eq, Ho. }
    split; [by destruct (peer (vars st))|].
    split.
    { intros n. change (online (heap (set_reconnectAttempts n st))) with (online (heap st)).
      change (peer_healthy (set_reconnectAttempts n st)) with (peer_healthy st).
      rewrite Hon, Hh. simpl. apply initializePeerConnection_counter. }
    intros id. cbv zeta. subst p'. unfold step, live_peer.
    destruct (peer (vars st)) as [p|]; simpl; rewrite lookup_insert_eq; simpl;
      rewrite lookup_alter_eq, lookup_insert_eq; done.
  - intros Hon Hh. unfold checkConnectivity. by rewrite Hon, Hh.
  - intros Hoff st'. subst st'. unfold checkConnectivity. rewrite Hoff. simpl.
    by repeat split.
Qed.

Lemma connectivity_check_behaviour_witness :
  online (heap (run [EvPeerDisconnected 3] ready_to_dial)) = true
  ∧ peer_healthy (run [EvPeerDisconnected 3] ready_to_dial) = false
  ∧ peer (vars (checkConnectivity (run [EvPeerDisconnected 3] ready_to_dial)).2) = Some 4
  ∧ online (heap offline_disconnected) = false
  ∧ vars (checkConnectivity offline_disconnected).2 = vars offline_disconnected.
Proof.
  assert (H1 : online (heap (run [EvPeerDisconnected 3] ready_to_dial)) = true)
    by (vm_compute; reflexivity).
  assert (H2 : peer_healthy (run [EvPeerDisconnected 3] ready_to_dial) = false)
    by (vm_compute; reflexivity).
  assert (H3 : online (heap offline_disconnected) = false) by (vm_compute; reflexivity).
  destruct (connectivity_check_behaviour (run [EvPeerDisconnected 3] ready_to_dial))
    as (_ & Ha & _).
  destruct (Ha H1 H2) as (Ha1 & _).
  destruct (connectivity_check_behaviour offline_disconnected) as (_ & _ & _ & Hb).
  destruct (Hb H3) as (_ & Hb1 & _).
  split; [exact H1|]. split; [exact H2|]. split; [|split; [exact H3 | exact Hb1]].
  etrans; [exact Ha1|]. vm_compute. reflexivity.
Defined.

Lemma offline_registration_not_refreshed : ¬ registration_refreshed offline_disconnected.
Proof.
  unfold registration_refreshed. intros [H _].
  assert (Hh : peer_healthy offline_disconnected = false) by (vm_compute; reflexivity).
  specialize (H Hh). vm_compute in H. discriminate H.
Qed.

Lemma take_due_Some k t0 ts :
  Exists (λ t, job t = k ∧ (due t ≤ t0)%Z) ts →
  ∃ rest, take_due k t0 ts = Some rest
          ∧ S (length (filter (λ t, job t = k) rest))
            = length (filter (λ t, job t = k) ts).
Proof.
  induction ts as [|t ts IH]; intros H; [by apply Exists_nil in H|].
  simpl. destruct (bool_decide (job t = k) && bool_decide (due t ≤ t0)%Z) eqn:E.
  - apply andb_true_iff in E as [E1%bool_decide_eq_true _].
    exists ts. split; [done|]. rewrite filter_cons. by rewrite decide_True.
  - apply Exists_cons in H as [[H1 H2]|H].
    + rewrite (bool_decide_eq_true_2 _ H1), (bool_decide_eq_true_2 _ H2) in E. done.
    + destruct (IH H) as (rest & -> & Hl). exists (t :: rest). split; [done|].
      rewrite !filter_cons. destruct (decide (job t = k)); simpl; lia.
Qed.

(** X1.  showNotification shows the message and arms one hide timer 5 s
    ahead, without cancelling the timers of earlier notifications.  Any
    hide timer that fires hides whatever notification is on display: a
    notification posted 4 s after another one is hidden 1 s later by the
    first one's timer. *)
Theorem notification_hidden_by_any_timer (m1 m2 : string) (t1 t2 : ntype) (st : state) :
  (let st' := showNotification m1 t1 st in
   note_visible (page st') = true
   ∧ head (notes (page st')) = Some (m1, t1)
   ∧ armed THideNotification st' = S (armed THideNotification st)
   ∧ mkTimer (now (loop st) + 5 * time_unit) THideNotification ∈ timers (loop st'))
  ∧ (due_now THideNotification st →
     note_visible (page (fire THideNotification st)) = false
     ∧ notes (page (fire THideNotification st)) = notes (page st)
     ∧ S (armed THideNotification (fire THideNotification st))
       = armed THideNotification st)
  ∧ (let st1 := step (EvTime 4000) (showNotification m1 t1 st) in
     let st2 := step (EvTime 1000) (showNotification m2 t2 st1) in
     let st3 := step (EvFire THideNotification) st2 in
     note_visible (page st2) = true
     ∧ note_visible (page st3) = false
     ∧ head (notes (page st3)) = Some (m2, t2)).
Proof.
  assert (Hfire : ∀ s0, due_now THideNotification s0 →
     note_visible (page (fire THideNotification s0)) = false
     ∧ notes (page (fire THideNotification s0)) = notes (page s0)
     ∧ S (armed THideNotification (fire THideNotification s0))
       = armed THideNotification s0).
  { intros s0 Hd. unfold fire.
    destruct (take_due_Some _ _ _ Hd) as (rest & -> & Hl). simpl. by repeat split. }
  split; [|split].
  - cbv zeta. unfold showNotification. repeat split.
    + rewrite armed_setTimer, decide_True by done.
      change (armed THideNotification (set_note_visible _ (set_notes _ st)))
        with (armed THideNotification st). apply Nat.add_1_r.
    + unfold setTimer. simpl. apply elem_of_app. right.
      apply list_elem_of_singleton. reflexivity.
  - apply Hfire.
  - cbv zeta. split; [reflexivity|].
    set (st2 := step (EvTime 1000) _).
    assert (Hd : due_now THideNotification st2).
    { unfold due_now. subst st2. simpl. rewrite !Exists_app. left. right.
      apply Exists_cons. left. simpl. split; [done|]. unfold NOTIFICATION_MS. lia. }
    destruct (Hfire st2 Hd) as (H1 & H2 & _).
    split; [exact H1|]. change (step (EvFire THideNotification) st2)
      with (fire THideNotification st2). by rewrite H2.
Qed.

Lemma notification_hidden_by_any_timer_witness :
  due_now THideNotification (run [EvTime 5000] ready_to_dial)
  ∧ note_visible (page (run [EvTime 5000] ready_to_dial)) = true
  ∧ note_visible (page (fire THideNotification (run [EvTime 5000] ready_to_dial))) = false.
Proof.
  assert (Hd : due_now THideNotification (run [EvTime 5000] ready_to_dial)).
  { unfold due_now. vm_compute. apply Exists_cons. right. apply Exists_cons. left.
    split; [reflexivity|]. discriminate. }
  destruct (notification_hidden_by_any_timer "" "" Info Info
              (run [EvTime 5000] ready_to_dial)) as (_ & H & _).
  destruct (H Hd) as (H1 & _).
  split; [exact Hd|]. split; [vm_compute; reflexivity | exact H1].
Defined.

(** ** Start-up *)

Lemma ignored_click e st :
  listeners (loop st) = false → is_click e = true → step e st = st.
Proof. intros Hl He. destruct e; try discriminate He; simpl; by rewrite Hl. Qed.

Lemma ignored_clicks es st :
  listeners (loop st) = false → Forall (λ e, is_click e = true) es → run es st = st.
Proof.
  intros Hl Hes. induction Hes as [|e es He _ IH]; [done|].
  simpl. by rewrite (ignored_click e st Hl He).
Qed.

(** X2.  The buttons are wired only by a successful start.  When camera
    and microphone cannot be acquired, init reports the error (with its
    own text for a denied permission and for a missing device), creates no
    registration, and every later click on a control is ignored. *)
Theorem failed_start_ignores_clicks (html : Page) (t0 : Z) (name message : string)
    (es : list event) :
  Forall (λ e, is_click e = true) es →
  let st := run [EvLoad; EvUserMedia (GumError name message)] (boot html t0) in
  run es st = st
  ∧ listeners (loop st) = false
  ∧ peer (vars st) = None
  ∧ localStream (vars st) = None
  ∧ fx (loop st) = [FxGetUserMedia]
  ∧ status_class (page st) = "status-disconnected"
  ∧ status_text (page st)
    = "Error: " +:+
      (if bool_decide (name = "NotAllowedError") then
         "Camera and microphone access denied. Please allow access to use this app."
       else if bool_decide (name = "NotFoundError") then
         "No camera or microphone found. Please check your device connections."
       else message)
  ∧ mediaBtns_disabled (page st) = mediaBtns_disabled html.
Proof.
  intros Hes. cbv zeta.
  split; [apply ignored_clicks; [vm_compute; reflexivity | exact Hes]|].
  repeat split; vm_compute; reflexivity.
Qed.

Lemma failed_start_ignores_clicks_witness :
  Forall (λ e, is_click e = true) [EvClickConnect; EvClickMute; EvClickEnd]
  ∧ run [EvClickConnect; EvClickMute; EvClickEnd]
      (run [EvLoad; EvUserMedia (GumError "NotAllowedError" "denied")] (boot blank_page 0))
    = run [EvLoad; EvUserMedia (GumError "NotAllowedError" "denied")] (boot blank_page 0).
Proof.
  assert (H : Forall (λ e, is_click e = true) [EvClickConnect; EvClickMute; EvClickEnd])
    by (repeat constructor).
  split; [exact H|].
  exact (proj1 (failed_start_ignores_clicks blank_page 0 "NotAllowedError" "denied" _ H)).
Defined.

(** A dial on a registration that is not ready: the call in progress is
    closed all the same, the registration is replaced, and the dial is
    tried again 2 s later; no handle is asked for. *)
Lemma dial_not_ready st :
  peerId_trimmed (page st) ≠ "" → peer_ready st = false →
  let st' := connectToPeer st in
  (∀ c, currentCall (vars st) = Some c → ¬ live c st')
  ∧ (∀ c, is_Some (calls (heap st') !! c) → is_Some (calls (heap st) !! c))
  ∧ peer (vars st') = Some (next_id (heap st))
  ∧ armed TRetryConnect st' = S (armed TRetryConnect st)
  ∧ head (fx (loop st')) = Some (FxNewPeer (next_id (heap st)))
  ∧ status_text (page st') = status_text
      (page (match currentCall (vars st) with
             | Some c => call_close c (set_status "Connecting..." "status-connecting" st)
             | None => set_status "Connecting..." "status-connecting" st
             end)).
Proof.
  intros Hid Hr st'. subst st'. unfold connectToPeer.
  rewrite bool_decide_eq_false_2 by done. cbv zeta.
  set (st0 := set_status "Connecting..." "status-connecting" st).
  change (currentCall (vars st0)) with (currentCall (vars st)).
  set (st1 := match currentCall (vars st) with Some c => call_close c st0 | None => st0 end).
  assert (Hp : peer (vars st1) = peer (vars st) ∧ peers (heap st1) = peers (heap st)).
  { subst st1. destruct (currentCall (vars st)) as [c|]; [|done].
    destruct (call_close_peers c st0) as (H1 & H2 & _). by split. }
  assert (Hr1 : peer_ready st1 = false).
  { unfold peer_ready. destruct Hp as [-> ->]. exact Hr. }
  assert (Hn : next_id (heap st1) = next_id (heap st)).
  { subst st1. destruct (currentCall (vars st)) as [c|]; [|done].
      rewrite call_close_next. reflexivity. }
  assert (Hl : ∀ c, currentCall (vars st) = Some c → ¬ live c st1).
  { intros c Hc. subst st1. rewrite Hc. intros H. by apply call_close_live in H as [_ ?]. }
  assert (Hk : ∀ c, is_Some (calls (heap st1) !! c) → is_Some (calls (heap st) !! c)).
  { intros c. subst st1. destruct (currentCall (vars st)) as [c'|]; [|done].
    apply (call_close_known c' st0 c). }
  assert (Ha : armed TRetryConnect st1 = armed TRetryConnect st).
  { subst st1. destruct (currentCall (vars st)) as [c|]; [|done].
    destruct (call_close_cases c st0) as [-> | (o & _ & [-> | ->])]; try done.
    unfold on_call_close, showNotification. rewrite armed_setTimer, decide_False by done.
    rewrite Nat.add_0_r.
    apply (armed_clearTimer_ne TRetryConnect (TConnectionTimeout c) (closed_quietly c o st0)).
    done. }
  clearbody st1. rewrite Hr1. cbn [negb].
  destruct (initializePeerConnection_calls st1) as (Hc1 & _ & _).
  assert (Hi : peer (vars (initializePeerConnection st1)) = Some (next_id (heap st1))
               ∧ head (fx (loop (initializePeerConnection st1)))
                 = Some (FxNewPeer (next_id (heap st1)))
               ∧ timers (loop (initializePeerConnection st1)) = timers (loop st1)
               ∧ page (initializePeerConnection st1) = page st1).
  { unfold initializePeerConnection. by destruct (peer (vars st1)). }
  destruct Hi as (Hi1 & Hi2 & Hi3 & Hi4).
  revert Hc1 Hi1 Hi2 Hi3 Hi4. generalize (initializePeerConnection st1).
  intros s2 Hc1 Hi1 Hi2 Hi3 Hi4. repeat split.
  - intros c Hc (o & Ho & Hlv). apply (Hl c Hc). exists o. split; [|done].
    rewrite <- Hc1. exact Ho.
  - intros c Hc. apply Hk. rewrite <- Hc1. exact Hc.
  - rewrite <- Hn. etrans; [|exact Hi1]. reflexivity.
  - rewrite armed_setTimer, decide_True by done. unfold armed. rewrite Hi3.
    fold (armed TRetryConnect st1). rewrite Ha. apply Nat.add_1_r.
  - rewrite <- Hn. etrans; [|exact Hi2]. reflexivity.
  - change (status_text (page s2) = status_text (page st1)). by rewrite Hi4.
Qed.

(** A dial the library refuses. *)
Lemma dial_refused st :
  peerId_trimmed (page st) ≠ "" → peer_ready st = true → peer_callable st = false →
  let st' := connectToPeer st in
  (∀ c, currentCall (vars st) = Some c → ¬ live c st')
  ∧ (∀ c, is_Some (calls (heap st') !! c) → is_Some (calls (heap st) !! c))
  ∧ status_text (page st') = "Connection failed"
  ∧ status_class (page st') = "status-disconnected"
  ∧ head (notes (page st')) = Some ("Failed to connect: Failed to initiate call", Error)
  ∧ armed TRetryConnect st' = armed TRetryConnect st.
Proof.
  intros Hid Hr Hcall st'. subst st'. unfold connectToPeer.
  rewrite bool_decide_eq_false_2 by done. cbv zeta.
  set (st0 := set_status "Connecting..." "status-connecting" st).
  change (currentCall (vars st0)) with (currentCall (vars st)).
  set (st1 := match currentCall (vars st) with Some c => call_close c st0 | None => st0 end).
  assert (Hp : peer (vars st1) = peer (vars st) ∧ peers (heap st1) = peers (heap st)).
  { subst st1. destruct (currentCall (vars st)) as [c|]; [|done].
    destruct (call_close_peers c st0) as (H1 & H2 & _). by split. }
  assert (Hr1 : peer_ready st1 = true).
  { unfold peer_ready. destruct Hp as [-> ->]. exact Hr. }
  assert (Hc1 : peer_callable st1 = false).
  { unfold peer_callable. destruct Hp as [-> ->]. exact Hcall. }
  assert (Hl : ∀ c, currentCall (vars st) = Some c → ¬ live c st1).
  { intros c Hc. subst st1. rewrite Hc. intros H. by apply call_close_live in H as [_ ?]. }
  assert (Hk : ∀ c, is_Some (calls (heap st1) !! c) → is_Some (calls (heap st) !! c)).
  { intros c. subst st1. destruct (currentCall (vars st)) as [c'|]; [|done].
    apply (call_close_known c' st0 c). }
  assert (Ha : armed TRetryConnect st1 = armed TRetryConnect st).
  { subst st1. destruct (currentCall (vars st)) as [c|]; [|done].
    destruct (call_close_cases c st0) as [-> | (o & _ & [-> | ->])]; try done.
    unfold on_call_close, showNotification. rewrite armed_setTimer, decide_False by done.
    rewrite Nat.add_0_r.
    apply (armed_clearTimer_ne TRetryConnect (TConnectionTimeout c) (closed_quietly c o st0)).
    done. }
  clearbody st1. rewrite Hr1. cbn [negb].
  destruct (peer_call_refuses (peerId_trimmed (page st)) (localStream (vars st1))
              (Some (now (loop st1))) st1 Hc1) as (Hnone & _ & Hh & _ & Ht).
  destruct (peer_call _ _ _ st1) as [[n|] s2]; [done|]. simpl in Hh, Ht.
  repeat split.
  - intros c Hc (o & Ho & Hlv). apply (Hl c Hc). exists o. split; [|done].
    rewrite <- Hh. exact Ho.
  - intros c Hc. apply Hk. rewrite <- Hh. exact Hc.
  - unfold showNotification. rewrite armed_setTimer, decide_False by done.
    rewrite Nat.add_0_r. unfold armed. simpl. rewrite Ht. fold (armed TRetryConnect st1).
    exact Ha.
Qed.

(** A dial on a registration that has an identity and accepts the call. *)
Lemma dial_accepted (st : state) :
  peerId_trimmed (page st) ≠ "" → peer_ready st = true → peer_callable st = true →
  let st' := connectToPeer st in
  let n := next_id (heap st) in
  currentCall (vars st') = Some n
  ∧ calls (heap st') !! n
    = Some (mkCall (peerId_trimmed (page st)) (Some (now (loop st))) None false false
              (localStream (vars st)))
  ∧ (∀ c, currentCall (vars st) = Some c → c ≠ n → ¬ live c st')
  ∧ endCallBtn_disabled (page st') = false
  ∧ pending (TConnectionTimeout n) st' = true
  ∧ pending (TConnectionCheck n) st' = true.
Proof.
  intros Hid Hr Hcall st' n. subst st'. unfold connectToPeer.
  rewrite bool_decide_eq_false_2 by done. cbv zeta.
  set (st0 := set_status "Connecting..." "status-connecting" st).
  change (currentCall (vars st0)) with (currentCall (vars st)).
  set (st1 := match currentCall (vars st) with Some c => call_close c st0 | None => st0 end).
  assert (Hp : peer (vars st1) = peer (vars st) ∧ peers (heap st1) = peers (heap st)
               ∧ localStream (vars st1) = localStream (vars st)).
  { subst st1. destruct (currentCall (vars st)) as [c|]; [|done].
    apply (call_close_peers c st0). }
  assert (Hr1 : peer_ready st1 = true).
  { unfold peer_ready. destruct Hp as (-> & -> & _). exact Hr. }
  assert (Hc1 : peer_callable st1 = true).
  { unfold peer_callable. destruct Hp as (-> & -> & _). exact Hcall. }
  assert (Hn : next_id (heap st1) = n).
  { subst st1. destruct (currentCall (vars st)) as [c|]; [|done].
    rewrite call_close_next. reflexivity. }
  assert (Hnow : now (loop st1) = now (loop st)).
  { subst st1. destruct (currentCall (vars st)) as [c|]; [|done].
    destruct (call_close_frame c st0) as (_ & -> & _). reflexivity. }
  assert (Hl : ∀ c, currentCall (vars st) = Some c → ¬ live c st1).
  { intros c Hc. subst st1. rewrite Hc. intros H. by apply call_close_live in H as [_ ?]. }
  destruct Hp as (_ & _ & Hls).
  clearbody st1. rewrite Hr1. cbn [negb]. rewrite peer_call_accepts by done.
  rewrite Hn, Hls, Hnow. repeat split.
  + simpl. by rewrite lookup_insert_eq.
  + intros c Hc Hne (o & Ho & Hlv). apply (Hl c Hc). exists o. split; [|done].
    simpl in Ho. by rewrite lookup_insert_ne in Ho.
  + unfold handleCallStream. rewrite pending_setTimer_ne by done.
    apply pending_setTimer_eq.
  + unfold handleCallStream. apply pending_setTimer_eq.
Qed.

(** X3.  connectToPeer places a call on one path only.  With an empty
    (trimmed) identifier it only posts an error: no variable, no library
    object and no status changes.  With an identifier, the call in
    progress is closed first on every path; then a registration that is
    not ready is replaced and the dial retried 2 s later, a refusal by the
    library is reported as 'Connection failed', and in both cases no new
    handle exists.  Only a ready registration that accepts the call yields
    a fresh handle, dialled with the active stream and the current time as
    its timestamp, which becomes the current call with the end-call
    control enabled and its timeout and periodic check armed. *)
Theorem dial_paths (st : state) :
  (peerId_trimmed (page st) = "" →
   let st' := connectToPeer st in
   vars st' = vars st ∧ heap st' = heap st ∧ fx (loop st') = fx (loop st)
   ∧ status_text (page st') = status_text (page st)
   ∧ head (notes (page st')) = Some ("Please enter a valid Peer ID", Error))
  ∧ (peerId_trimmed (page st) ≠ "" → peer_ready st = false →
     let st' := connectToPeer st in
     (∀ c, currentCall (vars st) = Some c → ¬ live c st')
     ∧ (∀ c, is_Some (calls (heap st') !! c) → is_Some (calls (heap st) !! c))
     ∧ peer (vars st') = Some (next_id (heap st))
     ∧ armed TRetryConnect st' = S (armed TRetryConnect st))
  ∧ (peerId_trimmed (page st) ≠ "" → peer_ready st = true → peer_callable st = false →
     let st' := connectToPeer st in
     (∀ c, currentCall (vars st) = Some c → ¬ live c st')
     ∧ (∀ c, is_Some (calls (heap st') !! c) → is_Some (calls (heap st) !! c))
     ∧ status_text (page st') = "Connection failed"
     ∧ head (notes (page st')) = Some ("Failed to connect: Failed to initiate call", Error)
     ∧ armed TRetryConnect st' = armed TRetryConnect st)
  ∧ (peerId_trimmed (page st) ≠ "" → peer_ready st = true → peer_callable st = true →
     let st' := connectToPeer st in
     let n := next_id (heap st) in
     currentCall (vars st') = Some n
     ∧ calls (heap st') !! n
       = Some (mkCall (peerId_trimmed (page st)) (Some (now (loop st))) None false false
                 (localStream (vars st)))
     ∧ (∀ c, currentCall (vars st) = Some c → c ≠ n → ¬ live c st')
     ∧ endCallBtn_disabled (page st') = false
     ∧ pending (TConnectionTimeout n) st' = true
     ∧ pending (TConnectionCheck n) st' = true).
Proof.
  split; [|split; [|split]].
  - intros Hid st'. subst st'. unfold connectToPeer. rewrite Hid. simpl. by repeat split.
  - intros Hid Hr st'.
    destruct (dial_not_ready st Hid Hr) as (H1 & H2 & H3 & H4 & _). by repeat split.
  - intros Hid Hr Hc st'.
    destruct (dial_refused st Hid Hr Hc) as (H1 & H2 & H3 & _ & H5 & H6). by repeat split.
  - intros Hid Hr Hcall. by apply dial_accepted.
Qed.

Lemma dial_paths_witness :
  peerId_trimmed (page ready_to_dial) ≠ ""
  ∧ peer_ready ready_to_dial = true ∧ peer_callable ready_to_dial = true
  ∧ currentCall (vars (connectToPeer ready_to_dial)) = Some 4
  ∧ peerId_trimmed (page (run [EvInput ""] ready_to_dial)) = ""
  ∧ vars (connectToPeer (run [EvInput ""] ready_to_dial))
    = vars (run [EvInput ""] ready_to_dial)
  ∧ peer_ready (run [EvLibPeer 3 None false true] ready_to_dial) = false
  ∧ armed TRetryConnect (connectToPeer (run [EvLibPeer 3 None false true] ready_to_dial))
    = S (armed TRetryConnect (run [EvLibPeer 3 None false true] ready_to_dial))
  ∧ peer_callable (run [EvLibPeer 3 (Some "me") true false] ready_to_dial) = false
  ∧ status_text (page (connectToPeer
                         (run [EvLibPeer 3 (Some "me") true false] ready_to_dial)))
    = "Connection failed".
Proof.
  assert (A1 : peerId_trimmed (page ready_to_dial) ≠ "") by (vm_compute; discriminate).
  assert (A2 : peer_ready ready_to_dial = true) by (vm_compute; reflexivity).
  assert (A3 : peer_callable ready_to_dial = true) by (vm_compute; reflexivity).
  assert (B1 : peerId_trimmed (page (run [EvInput ""] ready_to_dial)) = "")
    by (vm_compute; reflexivity).
  assert (C1 : peerId_trimmed (page (run [EvLibPeer 3 None false true] ready_to_dial)) ≠ "")
    by (vm_compute; discriminate).
  assert (C2 : peer_ready (run [EvLibPeer 3 None false true] ready_to_dial) = false)
    by (vm_compute; reflexivity).
  assert (D1 : peerId_trimmed
                 (page (run [EvLibPeer 3 (Some "me") true false] ready_to_dial)) ≠ "")
    by (vm_compute; discriminate).
  assert (D2 : peer_ready (run [EvLibPeer 3 (Some "me") true false] ready_to_dial) = true)
    by (vm_compute; reflexivity).
  assert (D3 : peer_callable (run [EvLibPeer 3 (Some "me") true false] ready_to_dial)
               = false) by (vm_compute; reflexivity).
  destruct (dial_paths ready_to_dial) as (_ & _ & _ & Ha).
  destruct (Ha A1 A2 A3) as (Ha1 & _).
  destruct (dial_paths (run [EvInput ""] ready_to_dial)) as (Hb & _).
  destruct (Hb B1) as (Hb1 & _).
  destruct (dial_paths (run [EvLibPeer 3 None false true] ready_to_dial))
    as (_ & Hc & _).
  destruct (Hc C1 C2) as (_ & _ & _ & Hc1).
  destruct (dial_paths (run [EvLibPeer 3 (Some "me") true false] ready_to_dial))
    as (_ & _ & Hd & _).
  destruct (Hd D1 D2 D3) as (_ & _ & Hd1 & _).
  split; [exact A1|]. split; [exact A2|]. split; [exact A3|].
  split; [etrans; [exact Ha1|]; vm_compute; reflexivity|].
  split; [exact B1|]. split; [exact Hb1|]. split; [exact C2|]. split; [exact Hc1|].
  split; [exact D3 | exact Hd1].
Defined.

Lemma call_close_others c st d : d ≠ c → live d st → live d (call_close c st).
Proof.
  intros Hne (o & Ho & Hl).
  destruct (call_close_cases c st) as [-> | (o' & _ & [-> | ->])].
  - by exists o.
  - exists o. split; [|done]. simpl. by rewrite lookup_insert_ne.
  - exists o. split; [|done]. simpl. by rewrite lookup_insert_ne.
Qed.

(** The timers of the closed call: [close()] itself cancels none; the
    ['close'] handler, when the library runs it, cancels the timeout. *)
Lemma call_close_timers c o st :
  calls (heap st) !! c = Some o →
  armed (TConnectionCheck c) (call_close c st) = armed (TConnectionCheck c) st
  ∧ armed (TConnectionTimeout c) (call_close c st)
    = if c_open o then 0 else armed (TConnectionTimeout c) st.
Proof.
  intros Ho. unfold call_close. rewrite Ho. destruct (c_open o); [|done].
  unfold on_call_close, showNotification. cbv zeta.
  rewrite !armed_setTimer, !decide_False by done. rewrite !Nat.add_0_r. split.
  - etrans; [by apply armed_clearTimer_ne | reflexivity].
  - apply (armed_clearTimer_eq (TConnectionTimeout c)).
Qed.

(** X4.  endCall is idempotent and does nothing without a current call.
    With one, the handle is closed, the reference and the remote view are
    cleared, the end-call control is disabled and 'Call ended' is shown.
    The periodic check of the closed call is left armed, and so is its
    connection timeout unless the library ran the 'close' handler. *)
Theorem endCall_behaviour (st : state) :
  endCall (endCall st) = endCall st
  ∧ (currentCall (vars st) = None → endCall st = st)
  ∧ (∀ c o, currentCall (vars st) = Some c → calls (heap st) !! c = Some o →
       let st' := endCall st in
       ¬ live c st'
       ∧ currentCall (vars st') = None
       ∧ remoteVideo_src (page st') = None
       ∧ endCallBtn_disabled (page st') = true
       ∧ status_text (page st') = "Call ended"
       ∧ fx (loop st') = FxClose c :: fx (loop st)
       ∧ armed (TConnectionCheck c) st' = armed (TConnectionCheck c) st
       ∧ armed (TConnectionTimeout c) st'
         = if c_open o then 0 else armed (TConnectionTimeout c) st).
Proof.
  split; [|split].
  - destruct (endCall_frame st) as (Hc & _).
    revert Hc. generalize (endCall st). intros s1 Hc. unfold endCall. by rewrite Hc.
  - intros Hc. unfold endCall. by rewrite Hc.
  - intros c o Hc Ho st'. subst st'. unfold endCall. rewrite Hc. cbv zeta.
    assert (Hk : is_Some (calls (heap st) !! c)) by eauto.
    destruct (call_close_frame c st) as (_ & _ & _ & Hfx). specialize (Hfx Hk).
    destruct (call_close_timers c o st Ho) as (Ht1 & Ht2).
    pose proof (λ d, call_close_live c st d) as Hlive.
    revert Hfx Ht1 Ht2 Hlive. generalize (call_close c st). intros s1 Hfx Ht1 Ht2 Hlive.
    repeat split.
    + intros (o' & Ho' & Hl'). apply (Hlive c); [|done]. by exists o'.
    + etrans; [|exact Hfx]. reflexivity.
    + unfold showNotification. rewrite armed_setTimer, decide_False by done.
      rewrite Nat.add_0_r. etrans; [|exact Ht1]. reflexivity.
    + unfold showNotification. rewrite armed_setTimer, decide_False by done.
      rewrite Nat.add_0_r. etrans; [|exact Ht2]. reflexivity.
Qed.

Lemma endCall_behaviour_witness :
  currentCall (vars stalling_call) = Some 4
  ∧ is_Some (calls (heap stalling_call) !! 4)
  ∧ ¬ live 4 (endCall stalling_call)
  ∧ fx (loop (endCall stalling_call)) = FxClose 4 :: fx (loop stalling_call)
  ∧ currentCall (vars ready_to_dial) = None
  ∧ endCall ready_to_dial = ready_to_dial.
Proof.
  assert (H1 : currentCall (vars stalling_call) = Some 4) by (vm_compute; reflexivity).
  assert (H2 : calls (heap stalling_call) !! 4
               = Some (mkCall "abc" (Some 0%Z) failed_transport false false (Some 2)))
    by (vm_compute; reflexivity).
  assert (H3 : currentCall (vars ready_to_dial) = None) by (vm_compute; reflexivity).
  destruct (endCall_behaviour stalling_call) as (_ & _ & Ha).
  destruct (Ha 4 _ H1 H2) as (Ha1 & _ & _ & _ & _ & Ha2 & _).
  destruct (endCall_behaviour ready_to_dial) as (_ & Hb & _).
  split; [exact H1|]. split; [eexists; exact H2|]. split; [exact Ha1|].
  split; [exact Ha2|]. split; [exact H3 | exact (Hb H3)].
Defined.

(** ** Events of calls that are not the current one *)

Lemma finish_call_live c st d : live d (finish_call c st) ↔ (live d st ∧ d ≠ c).
Proof.
  unfold live, finish_call. simpl. split.
  - intros (o & Ho & Hl). destruct (decide (c = d)) as [->|Hne].
    + rewrite lookup_alter_eq in Ho. destruct (calls (heap st) !! d); simplify_eq/=.
    + rewrite lookup_alter_ne in Ho by done. eauto.
  - intros [(o & Ho & Hl) Hne]. exists o. by rewrite lookup_alter_ne.
Qed.

(** X5.  The 'close' and 'error' handlers of a call do not look at which
    call is current.  Either event, for any call the script has handled,
    cancels that call's connection timeout, clears the remote view and the
    current-call reference and disables the end-call control, without
    asking the library to close anything: every other session keeps its
    state, so a live current call other than the one the event is about
    stays live but is no longer referenced. *)
Theorem call_event_clears_reference (c : nat) (m : option string) (st : state) :
  known_call c st = true →
  (let st' := step (EvCallClose c) st in
   currentCall (vars st') = None
   ∧ remoteVideo_src (page st') = None
   ∧ endCallBtn_disabled (page st') = true
   ∧ armed (TConnectionTimeout c) st' = 0
   ∧ fx (loop st') = fx (loop st)
   ∧ status_text (page st') = "Call ended"
   ∧ ∀ d, d ≠ c → (live d st' ↔ live d st))
  ∧ (let st' := step (EvCallError c m) st in
     currentCall (vars st') = None
     ∧ remoteVideo_src (page st') = None
     ∧ endCallBtn_disabled (page st') = true
     ∧ armed (TConnectionTimeout c) st' = 0
     ∧ fx (loop st') = fx (loop st)
     ∧ status_text (page st') = "Call error: " +:+ message_or m "Unknown error"
     ∧ ∀ d, d ≠ c → (live d st' ↔ live d st)).
Proof.
  intros Hk. split.
  - cbv zeta. unfold step. rewrite Hk. unfold on_call_close, showNotification.
    repeat split; try done.
    + rewrite armed_setTimer, decide_False by done. rewrite Nat.add_0_r.
      apply (armed_clearTimer_eq (TConnectionTimeout c)).
    + intros Hx. apply (finish_call_live c st d). exact Hx.
    + intros Hx. apply (finish_call_live c st d). by split.
  - cbv zeta. unfold step. rewrite Hk. unfold on_call_error, showNotification.
    repeat split; try done.
    + rewrite armed_setTimer, decide_False by done. rewrite Nat.add_0_r.
      apply (armed_clearTimer_eq (TConnectionTimeout c)).
    + intros Hx. apply (finish_call_live c st d). exact Hx.
    + intros Hx. apply (finish_call_live c st d). by split.
Qed.

Lemma call_event_clears_reference_witness :
  known_call 4 second_call_waiting = true
  ∧ currentCall (vars second_call_waiting) = Some 8
  ∧ live 8 second_call_waiting
  ∧ currentCall (vars (step (EvCallClose 4) second_call_waiting)) = None
  ∧ live 8 (step (EvCallClose 4) second_call_waiting).
Proof.
  assert (H1 : known_call 4 second_call_waiting = true) by (vm_compute; reflexivity).
  assert (H2 : live 8 second_call_waiting).
  { eexists. split; [vm_compute; reflexivity | reflexivity]. }
  destruct (call_event_clears_reference 4 None second_call_waiting H1)
    as ((Ha & _ & _ & _ & _ & _ & Hb) & _).
  split; [exact H1|]. split; [vm_compute; reflexivity|]. split; [exact H2|].
  split; [exact Ha|]. by apply Hb.
Defined.

(** A dial closes the current call only: a live session that is not the
    current call stays live. *)
Lemma dial_keeps_others st d :
  bounded st → live d st → currentCall (vars st) ≠ Some d → live d (connectToPeer st).
Proof.
  intros Hb Hd Hne. unfold connectToPeer. case_bool_decide; [exact Hd|]. cbv zeta.
  set (st0 := set_status "Connecting..." "status-connecting" st).
  change (currentCall (vars st0)) with (currentCall (vars st)).
  set (st1 := match currentCall (vars st) with Some c => call_close c st0 | None => st0 end).
  assert (Hd1 : live d st1).
  { subst st1. destruct (currentCall (vars st)) as [c|]; [|exact Hd].
    apply call_close_others; [congruence | exact Hd]. }
  assert (Hn : next_id (heap st1) = next_id (heap st)).
  { subst st1. destruct (currentCall (vars st)) as [c|]; [|done].
    rewrite call_close_next. reflexivity. }
  assert (Hlt : d < next_id (heap st1)).
  { rewrite Hn. apply Hb. destruct Hd as (o & -> & _). eauto. }
  clearbody st1. destruct (peer_ready st1); cbn [negb].
  - unfold peer_call. destruct (peer (vars st1)) as [p|].
    + destruct (peers (heap st1) !! p) as [po|].
      * destruct (p_callable po).
        -- destruct Hd1 as (o & Ho & Hl). exists o. split; [|done]. simpl.
           rewrite lookup_insert_ne by lia. exact Ho.
        -- exact Hd1.
      * exact Hd1.
    + exact Hd1.
  - destruct (initializePeerConnection_calls st1) as (Hc & _ & _).
    destruct Hd1 as (o & Ho & Hl). exists o. split; [|done].
    change (calls (heap (initializePeerConnection st1)) !! d = Some o). by rewrite Hc.
Qed.

(** X6.  The connection timeout of a call does not check that its call is
    still the current one.  When it fires for a superseded call while the
    remote view is empty, it clears the reference to the newer call and
    disables the end-call control, and closes only its own call: the newer
    session stays live without a reference.  endCall then does nothing,
    and a further accepted dial leaves two live sessions. *)
Theorem stale_timeout_drops_current (c d : nat) (st : state) :
  remoteVideo_src (page st) = None →
  is_Some (calls (heap st) !! c) →
  currentCall (vars st) = Some d → live d st → d ≠ c → bounded st →
  let st' := connection_timeout c st in
  live d st'
  ∧ currentCall (vars st') = None
  ∧ endCallBtn_disabled (page st') = true
  ∧ fx (loop st') = FxClose c :: fx (loop st)
  ∧ endCall st' = st'
  ∧ (peerId_trimmed (page st) ≠ "" → peer_ready st = true → peer_callable st = true →
     let st'' := connectToPeer st' in
     live d st'' ∧ live (next_id (heap st)) st'' ∧ d ≠ next_id (heap st)
     ∧ ¬ at_most_one_live st'').
Proof.
  intros Hr Hk Hc Hd Hne Hb st'.
  assert (Heff : currentCall (vars st') = None
                 ∧ endCallBtn_disabled (page st') = true
                 ∧ fx (loop st') = FxClose c :: fx (loop st)).
  { subst st'. unfold connection_timeout. rewrite Hr. cbv zeta.
    set (X := showNotification _ Error _).
    assert (HkX : is_Some (calls (heap X) !! c)) by exact Hk.
    destruct (call_close_frame c X) as (_ & _ & _ & Hfx). specialize (Hfx HkX).
    revert Hfx. generalize (call_close c X). intros s1 Hfx.
    split; [reflexivity|]. split; [reflexivity|]. etrans; [|exact Hfx]. reflexivity. }
  destruct Heff as (Hcur & Hbtn & Hfx).
  assert (Hd' : live d st').
  { subst st'. unfold connection_timeout. rewrite Hr. cbv zeta.
    set (X := showNotification _ Error _).
    assert (HdX : live d X) by exact Hd.
    pose proof (call_close_others c X d Hne HdX) as Hl.
    revert Hl. generalize (call_close c X). intros s1 (o & Ho & Hl). by exists o. }
  assert (Hframe : peerId_trimmed (page st') = peerId_trimmed (page st)
                   ∧ peer (vars st') = peer (vars st)
                   ∧ peers (heap st') = peers (heap st)
                   ∧ next_id (heap st') = next_id (heap st)
                   ∧ ∀ x, is_Some (calls (heap st') !! x) → is_Some (calls (heap st) !! x)).
  { subst st'. unfold connection_timeout. rewrite Hr. cbv zeta.
    set (X := showNotification _ Error _).
    destruct (call_close_frame c X) as (_ & _ & Hid & _).
    destruct (call_close_peers c X) as (Hp & Hps & _).
    pose proof (call_close_next c X) as Hn.
    pose proof (call_close_known c X) as Hkn.
    revert Hid Hp Hps Hn Hkn. generalize (call_close c X).
    intros s1 Hid Hp Hps Hn Hkn. repeat split.
    - etrans; [|exact Hid]. reflexivity.
    - etrans; [|exact Hp]. reflexivity.
    - etrans; [|exact Hps]. reflexivity.
    - etrans; [|exact Hn]. reflexivity.
    - intros x Hx. apply (Hkn x). exact Hx. }
  destruct Hframe as (Hid & Hp & Hps & Hn & Hkn).
  assert (Hb' : bounded st').
  { intros x Hx. rewrite Hn. apply Hb. by apply Hkn. }
  clearbody st'. repeat split; try done.
  - unfold endCall. by rewrite Hcur.
  - pose proof I as Hx. apply dial_keeps_others; [exact Hb' | exact Hd' | by rewrite Hcur].
  - destruct (dial_accepted st') as (_ & Hcall & _).
    + by rewrite Hid.
    + unfold peer_ready. rewrite Hp, Hps. assumption.
    + unfold peer_callable. rewrite Hp, Hps. assumption.
    + rewrite Hn in Hcall. eexists. split; [exact Hcall | reflexivity].
  - assert (d < next_id (heap st)); [|lia].
    apply Hb. destruct Hd as (o & -> & _). eauto.
  - intros Hone.
    assert (d < next_id (heap st)) as Hlt.
    { apply Hb. destruct Hd as (o & -> & _). eauto. }
    assert (d = next_id (heap st)); [|lia].
    apply Hone.
    + apply dial_keeps_others; [exact Hb' | exact Hd' | by rewrite Hcur].
    + destruct (dial_accepted st') as (_ & Hcall & _).
      * by rewrite Hid.
      * unfold peer_ready. rewrite Hp, Hps. assumption.
      * unfold peer_callable. rewrite Hp, Hps. assumption.
      * rewrite Hn in Hcall. eexists. split; [exact Hcall | reflexivity].
Qed.

Lemma stale_timeout_drops_current_witness :
  remoteVideo_src (page redialled_elsewhere) = None
  ∧ is_Some (calls (heap redialled_elsewhere) !! 4)
  ∧ currentCall (vars redialled_elsewhere) = Some 5
  ∧ live 5 redialled_elsewhere
  ∧ bounded redialled_elsewhere
  ∧ pending (TConnectionTimeout 4) redialled_elsewhere = true
  ∧ live 5 (connection_timeout 4 redialled_elsewhere)
  ∧ currentCall (vars (connection_timeout 4 redialled_elsewhere)) = None
  ∧ ¬ at_most_one_live (connectToPeer (connection_timeout 4 redialled_elsewhere)).
Proof.
  assert (H1 : remoteVideo_src (page redialled_elsewhere) = None)
    by (vm_compute; reflexivity).
  assert (H2 : is_Some (calls (heap redialled_elsewhere) !! 4))
    by (eexists; vm_compute; reflexivity).
  assert (H3 : currentCall (vars redialled_elsewhere) = Some 5)
    by (vm_compute; reflexivity).
  assert (H4 : live 5 redialled_elsewhere)
    by (eexists; split; [vm_compute; reflexivity | reflexivity]).
  assert (H5 : bounded redialled_elsewhere).
  { apply (run_single [EvClickConnect; EvTime 10000; EvInput "xyz"; EvClickConnect;
                       EvTime 20000] ready_to_dial);
      [repeat constructor | exact ready_to_dial_single]. }
  assert (H6 : peerId_trimmed (page redialled_elsewhere) ≠ "")
    by (vm_compute; discriminate).
  assert (H7 : peer_ready redialled_elsewhere = true) by (vm_compute; reflexivity).
  assert (H8 : peer_callable redialled_elsewhere = true) by (vm_compute; reflexivity).
  destruct (stale_timeout_drops_current 4 5 redialled_elsewhere H1 H2 H3 H4
              ltac:(discriminate) H5) as (Ha & Hb & _ & _ & _ & Hc).
  destruct (Hc H6 H7 H8) as (_ & _ & _ & Hd).
  split; [exact H1|]. split; [exact H2|]. split; [exact H3|]. split; [exact H4|].
  split; [exact H5|]. split; [vm_compute; reflexivity|]. split; [exact Ha|].
  split; [exact Hb | exact Hd].
Defined.

(** [bounded], decided on the finite table. *)
Lemma bounded_check (st : state) :
  forallb (λ kv : nat * call, (kv.1 <? next_id (heap st))%nat)
    (map_to_list (calls (heap st))) = true →
  bounded st.
Proof.
  intros H c [o Ho]. rewrite forallb_forall in H.
  apply elem_of_map_to_list in Ho. apply list_elem_of_In in Ho.
  apply H in Ho. by apply Nat.ltb_lt in Ho.
Qed.

(** X8.  The 'error' handler of the registration never closes a call.
    With a call in progress it clears the current-call reference and the
    remote view and disables the end-call control, but asks nothing of the
    library: the session stays live, endCall no longer reaches it, and a
    later dial does not close it.  Socket errors (and only they) schedule
    a new registration 3 s ahead; every kind reports its own message. *)
Theorem peer_error_drops_without_closing (e : peer_error) (c : nat) (st : state) :
  currentCall (vars st) = Some c → live c st → bounded st →
  let st' := on_peer_error e st in
  live c st'
  ∧ currentCall (vars st') = None
  ∧ remoteVideo_src (page st') = None
  ∧ endCallBtn_disabled (page st') = true
  ∧ fx (loop st') = fx (loop st)
  ∧ status_text (page st') = peer_error_message e
  ∧ head (notes (page st')) = Some (peer_error_message e, Error)
  ∧ armed TReinit st'
    = (armed TReinit st + match e with SocketError | SocketClosed => 1 | _ => 0 end)%nat
  ∧ endCall st' = st'
  ∧ live c (connectToPeer st').
Proof.
  intros Hc Hl Hb st'.
  assert (Hfacts : currentCall (vars st') = None
    ∧ calls (heap st') = calls (heap st)
    ∧ next_id (heap st') = next_id (heap st)
    ∧ remoteVideo_src (page st') = None
    ∧ endCallBtn_disabled (page st') = true
    ∧ fx (loop st') = fx (loop st)
    ∧ status_text (page st') = peer_error_message e
    ∧ head (notes (page st')) = Some (peer_error_message e, Error)
    ∧ armed TReinit st'
      = (armed TReinit st + match e with SocketError | SocketClosed => 1 | _ => 0 end)%nat).
  { assert (Ht : timers (loop st')
                 = timers (loop (setTimer NOTIFICATION_MS THideNotification
                     (match e with
                      | SocketError | SocketClosed => setTimer REINIT_DELAY_MS TReinit st
                      | _ => st
                      end)))).
    { subst st'. unfold on_peer_error. by destruct e; simpl; rewrite Hc. }
    repeat match goal with |- _ ∧ _ => split end.
    9: { unfold armed at 1. rewrite Ht.
         change (armed TReinit (setTimer NOTIFICATION_MS THideNotification
                   (match e with
                    | SocketError | SocketClosed => setTimer REINIT_DELAY_MS TReinit st
                    | _ => st
                    end))
                 = (armed TReinit st
                    + match e with SocketError | SocketClosed => 1 | _ => 0 end)%nat).
         rewrite armed_setTimer. destruct e; rewrite ?armed_setTimer; repeat case_decide; try done; lia. }
    all: subst st'; unfold on_peer_error; by destruct e; simpl; rewrite Hc. }
  destruct Hfacts as (Hcur & Hcalls & Hn & H1 & H2 & H3 & H4 & H5 & H6).
  clearbody st'.
  assert (Hl' : live c st').
  { destruct Hl as (o & Ho & Hlv). exists o. by rewrite Hcalls. }
  assert (Hb' : bounded st').
  { intros x Hx. rewrite Hn. apply Hb. by rewrite <- Hcalls. }
  repeat split; try done.
  - unfold endCall. by rewrite Hcur.
  - apply dial_keeps_others; [exact Hb' | exact Hl' | by rewrite Hcur].
Qed.

Lemma peer_error_drops_without_closing_witness :
  currentCall (vars connected_call) = Some 4
  ∧ live 4 connected_call
  ∧ bounded connected_call
  ∧ live 4 (on_peer_error Network connected_call)
  ∧ currentCall (vars (on_peer_error Network connected_call)) = None.
Proof.
  assert (H1 : currentCall (vars connected_call) = Some 4) by (vm_compute; reflexivity).
  assert (H2 : live 4 connected_call)
    by (eexists; split; [vm_compute; reflexivity | reflexivity]).
  assert (H3 : bounded connected_call)
    by (apply bounded_check; vm_compute; reflexivity).
  pose proof (peer_error_drops_without_closing Network 4 connected_call H1 H2 H3) as H.
  cbv zeta in H. destruct H as (Ha & Hb & _).
  split; [exact H1|]. split; [exact H2|]. split; [exact H3|]. split; [exact Ha | exact Hb].
Defined.

(** X9.  An inbound call is answered with the active stream and installed
    as the current call without closing the call in progress: the previous
    session stays live, so two sessions are live at once, and the remote
    view keeps what it showed. *)
Theorem inbound_call_replaces_without_closing (p : nat) (remote : string)
    (ts : option Z) (pc : option peer_connection) (open : bool) (st : state) :
  live_peer p st = true → bounded st →
  let st' := step (EvPeerCall p remote ts pc open) st in
  let n := next_id (heap st) in
  currentCall (vars st') = Some n
  ∧ calls (heap st') !! n = Some (mkCall remote ts pc open false (localStream (vars st)))
  ∧ fx (loop st') = FxAnswer n (localStream (vars st)) :: fx (loop st)
  ∧ endCallBtn_disabled (page st') = false
  ∧ status_text (page st') = "Incoming call..."
  ∧ remoteVideo_src (page st') = remoteVideo_src (page st)
  ∧ pending (TConnectionTimeout n) st' = true
  ∧ pending (TConnectionCheck n) st' = true
  ∧ (∀ d, live d st → live d st' ∧ d ≠ n)
  ∧ (∀ c, currentCall (vars st) = Some c → live c st → ¬ at_most_one_live st').
Proof.
  intros Hp Hb st' n.
  assert (Hnew : calls (heap st') !! n
                 = Some (mkCall remote ts pc open false (localStream (vars st)))).
  { subst st'. unfold step. rewrite Hp. unfold on_peer_call. simpl.
    by rewrite lookup_alter_eq, lookup_insert_eq. }
  assert (Hold : ∀ d, live d st → live d st' ∧ d ≠ n).
  { intros d (o & Ho & Hl).
    assert (d < n) as Hlt by (apply Hb; eauto).
    split; [|lia]. exists o. split; [|done].
    subst st'. unfold step. rewrite Hp. unfold on_peer_call. simpl.
    rewrite lookup_alter_ne, lookup_insert_ne by lia. exact Ho. }
  split.
  { subst st'. unfold step. by rewrite Hp. }
  split; [exact Hnew|].
  split.
  { subst st'. unfold step. by rewrite Hp. }
  split.
  { subst st'. unfold step. by rewrite Hp. }
  split.
  { subst st'. unfold step. by rewrite Hp. }
  split.
  { subst st'. unfold step. by rewrite Hp. }
  split.
  { subst st'. unfold step. rewrite Hp. unfold on_peer_call, handleCallStream. cbv zeta.
    rewrite pending_setTimer_ne by done. apply pending_setTimer_eq. }
  split.
  { subst st'. unfold step. rewrite Hp. unfold on_peer_call, handleCallStream. cbv zeta.
    apply pending_setTimer_eq. }
  split; [exact Hold|].
  intros c Hc Hl Hone. destruct (Hold c Hl) as [Hl' Hne]. apply Hne.
  apply Hone; [exact Hl'|]. eexists. split; [exact Hnew | reflexivity].
Qed.

Lemma inbound_call_replaces_without_closing_witness :
  live_peer 3 connected_call = true
  ∧ bounded connected_call
  ∧ currentCall (vars connected_call) = Some 4
  ∧ live 4 connected_call
  ∧ ¬ at_most_one_live (step (EvPeerCall 3 "bob" None None true) connected_call).
Proof.
  assert (H1 : live_peer 3 connected_call = true) by (vm_compute; reflexivity).
  assert (H2 : bounded connected_call)
    by (apply bounded_check; vm_compute; reflexivity).
  assert (H3 : currentCall (vars connected_call) = Some 4) by (vm_compute; reflexivity).
  assert (H4 : live 4 connected_call)
    by (eexists; split; [vm_compute; reflexivity | reflexivity]).
  pose proof (inbound_call_replaces_without_closing 3 "bob" None None true
                connected_call H1 H2) as H.
  cbv zeta in H. destruct H as (_ & _ & _ & _ & _ & _ & _ & _ & _ & Ha).
  split; [exact H1|]. split; [exact H2|]. split; [exact H3|]. split; [exact H4|].
  exact (Ha 4 H3 H4).
Defined.

(** What the browser's allocation of tracks leaves behind. *)
Lemma alloc_tracks_spec ks st :
  (alloc_tracks ks st).1 = seq (next_id (heap st)) (length ks)
  ∧ next_id (heap (alloc_tracks ks st).2) = next_id (heap st) + length ks
  ∧ streams (heap (alloc_tracks ks st).2) = streams (heap st)
  ∧ onended (heap (alloc_tracks ks st).2) = onended (heap st)
  ∧ (∀ t, t < next_id (heap st) →
       tracks (heap (alloc_tracks ks st).2) !! t = tracks (heap st) !! t)
  ∧ (∀ i ke, ks !! i = Some ke →
       tracks (heap (alloc_tracks ks st).2) !! (next_id (heap st) + i)
       = Some (mkTrack ke.1 ke.2)).
Proof.
  revert st. induction ks as [|[k en] ks IH]; intros st.
  - simpl. split; [done|]. split; [lia|]. split; [done|]. split; [done|]. split; [done|].
    intros i ke H. by rewrite lookup_nil in H.
  - simpl.
    specialize (IH (set_next_id (S (next_id (heap st)))
                      (set_tracks (<[next_id (heap st) := mkTrack k en]> (tracks (heap st)))
                         st))).
    destruct (alloc_tracks ks _) as [ts st']. simpl in IH |- *.
    destruct IH as (H1 & H2 & H3 & H4 & H5 & H6).
    split; [by rewrite H1|]. split; [rewrite H2; lia|].
    split; [exact H3|]. split; [exact H4|]. split.
    + intros t Ht. rewrite H5 by lia. by rewrite lookup_insert_ne by lia.
    + intros [|i] ke Hke; simpl in Hke.
      * injection Hke as <-. rewrite Nat.add_0_r, H5 by lia. by rewrite lookup_insert_eq.
      * replace (next_id (heap st) + S i) with (S (next_id (heap st)) + i) by lia.
        by apply H6.
Qed.

Lemma alloc_stream_spec ks st :
  let s := next_id (heap st) + length ks in
  (alloc_stream ks st).1 = s
  ∧ streams (heap (alloc_stream ks st).2)
    = <[s := seq (next_id (heap st)) (length ks)]> (streams (heap st))
  ∧ onended (heap (alloc_stream ks st).2) = onended (heap st)
  ∧ (∀ t, t < next_id (heap st) →
       tracks (heap (alloc_stream ks st).2) !! t = tracks (heap st) !! t)
  ∧ (∀ i ke, ks !! i = Some ke →
       tracks (heap (alloc_stream ks st).2) !! (next_id (heap st) + i)
       = Some (mkTrack ke.1 ke.2)).
Proof.
  intros s. subst s. unfold alloc_stream.
  pose proof (alloc_tracks_spec ks st) as H.
  destruct (alloc_tracks ks st) as [ts st']. simpl in H |- *.
  destruct H as (H1 & H2 & H3 & H4 & H5 & H6).
  rewrite H2, H3, H1. by repeat split.
Qed.

Lemma filter_agree {A} (P1 P2 : A → Prop) `{!∀ x, Decision (P1 x), !∀ x, Decision (P2 x)}
    (l : list A) :
  Forall (λ x, P1 x ↔ P2 x) l → filter P1 l = filter P2 l.
Proof.
  induction 1 as [|x l Hx _ IH]; [done|].
  rewrite !filter_cons. destruct (decide (P1 x)), (decide (P2 x)); [by f_equal| | |done];
    tauto.
Qed.

Lemma filter_none {A} (P : A → Prop) `{!∀ x, Decision (P x)} (l : list A) :
  Forall (λ x, ¬ P x) l → filter P l = [].
Proof.
  induction 1 as [|x l Hx _ IH]; [done|]. by rewrite filter_cons_False.
Qed.

(** X10.  Sharing the screen while no call is in progress, with a display
    stream that carries no audio of its own.  The first audio track of the
    camera stream is added to the screen stream as the same track object,
    so it is the screen stream's only audio track and keeps its enabled
    state, and the camera stream keeps it too.  The screen stream becomes
    the active stream and the local view's source, the flag is set, and no
    library call is made.  When the screen's video track ends, or on the
    next toggle, the camera stream is active and shown again and the flag
    is unset, with no track or stream changed; after that the ended-track
    handler does nothing. *)
Theorem screen_share_without_call (extra : list track_kind) (o a : nat)
    (tso l : list nat) (st : state) :
  currentCall (vars st) = None →
  isScreenSharing (vars st) = false →
  Audio ∉ extra →
  originalStream (vars st) = Some o →
  streams (heap st) !! o = Some tso →
  o < next_id (heap st) →
  Forall (λ t, t < next_id (heap st)) tso →
  getTracks Audio o st = a :: l →
  let n := next_id (heap st) in
  let s := n + S (length extra) in
  let st1 := toggleScreenShare_resume (DisplayStream extra) st in
  let st2 := toggleScreenShare st1 in
  localStream (vars st1) = Some s
  ∧ localVideo_src (page st1) = Some s
  ∧ isScreenSharing (vars st1) = true
  ∧ screenShareBtn_text (page st1) = "Stop Sharing"
  ∧ head (getTracks Video s st1) = Some n
  ∧ getTracks Audio s st1 = [a]
  ∧ track_enabled st1 a = track_enabled st a
  ∧ getTracks Audio o st1 = a :: l
  ∧ fx (loop st1) = fx (loop st)
  ∧ step (EvTrackEnded n) st1 = st2
  ∧ localStream (vars st2) = Some o
  ∧ localVideo_src (page st2) = Some o
  ∧ isScreenSharing (vars st2) = false
  ∧ screenShareBtn_text (page st2) = "Share Screen"
  ∧ heap st2 = heap st1
  ∧ fx (loop st2) = fx (loop st)
  ∧ step (EvTrackEnded n) st2 = st2.
Proof.
  intros Hc Hf Hex Ho Hso Hon Htso Ha n s.
  assert (Hin : a ∈ tso ∧ kind_of st a = Some Audio).
  { assert (Hx : a ∈ getTracks Audio o st) by (rewrite Ha; left).
    unfold getTracks in Hx. rewrite Hso in Hx.
    apply list_elem_of_filter in Hx. tauto. }
  destruct Hin as [Hin Hka].
  assert (Han : a < n) by (rewrite Forall_forall in Htso; by apply Htso).
  set (ks := (Video, true) :: map (λ k : track_kind, (k, true)) extra).
  assert (Hlen : length ks = S (length extra)) by (simpl; by rewrite length_map).
  pose proof (alloc_stream_spec ks st) as Hsp.
  pose proof (alloc_stream_frame ks st) as Hfr.
  destruct (alloc_stream ks st) as [s' h1] eqn:Hal. cbv zeta in Hsp.
  cbn [fst snd] in Hsp, Hfr.
  rewrite Hlen in Hsp. fold n in Hsp. fold s in Hsp.
  destruct Hsp as (Hs & Hstr & Hond & Hold & Hnew).
  destruct Hfr as (Hv & Hp & Hl & _ & _). subst s'.
  assert (Hkinds : Forall (λ t, kind_of h1 t ≠ Some Audio) (seq n (S (length extra)))).
  { apply Forall_forall. intros t Ht. apply list_elem_of_In, in_seq in Ht.
    destruct (ks !! (t - n)) as [[k en]|] eqn:Hk.
    - unfold kind_of. replace t with (n + (t - n)) by lia. rewrite (Hnew _ _ Hk). simpl.
      intros [= Hk']. subst k ks. destruct (t - n) as [|i]; simpl in Hk; [done|].
      rewrite list_lookup_fmap in Hk. destruct (extra !! i) as [k'|] eqn:Hi; [|done].
      simpl in Hk. injection Hk as Hk1 Hk2. subst k'. apply Hex.
      by eapply list_elem_of_lookup_2.
    - apply lookup_ge_None in Hk. lia. }
  assert (Hkv : kind_of h1 n = Some Video).
  { pose proof (Hnew 0 (Video, true) eq_refl) as H0. rewrite Nat.add_0_r in H0.
    unfold kind_of. by rewrite H0. }
  assert (Hka1 : kind_of h1 a = Some Audio).
  { unfold kind_of. rewrite Hold by exact Han. exact Hka. }
  assert (HgA : getTracks Audio o h1 = a :: l).
  { rewrite <- Ha. unfold getTracks. rewrite Hstr, lookup_insert_ne by lia. rewrite Hso.
    apply filter_agree. apply Forall_forall. intros t Ht.
    unfold kind_of. rewrite Hold; [done|]. rewrite Forall_forall in Htso. by apply Htso. }
  assert (Hnotin : a ∉ seq n (S (length extra))).
  { intros Hx. apply list_elem_of_In, in_seq in Hx. lia. }
  assert (Hstr' : streams (heap (addTrack s a h1)) !! s
                  = Some (seq n (S (length extra)) ++ [a])).
  { unfold addTrack. simpl. rewrite Hstr, lookup_alter_eq, lookup_insert_eq. simpl.
    by rewrite decide_False. }
  assert (HgV : head (getTracks Video s (addTrack s a h1)) = Some n).
  { unfold getTracks. rewrite Hstr'. simpl.
    change (kind_of (addTrack s a h1) n) with (kind_of h1 n).
    rewrite filter_cons_True by exact Hkv. reflexivity. }
  assert (HgS : getTracks Audio s (addTrack s a h1) = [a]).
  { unfold getTracks. rewrite Hstr'. rewrite filter_app.
    rewrite (filter_none _ (seq n (S (length extra)))) by exact Hkinds.
    rewrite filter_cons_True by exact Hka1. reflexivity. }
  assert (HgO : getTracks Audio o (addTrack s a h1) = a :: l).
  { rewrite <- HgA. unfold getTracks, addTrack. simpl. by rewrite lookup_alter_ne by lia. }
  set (st1' := set_isScreenSharing true
                 (set_localVideo_src (Some s)
                    (set_onended (n :: onended (heap h1))
                       (showNotification "Screen sharing started" Success
                          (set_screenShareBtn_text "Stop Sharing"
                             (set_localStream (Some s) (addTrack s a h1))))))).
  assert (E1 : toggleScreenShare_resume (DisplayStream extra) st = st1').
  { unfold toggleScreenShare_resume. fold ks. rewrite Hal. cbv zeta.
    rewrite Hv, Ho, HgA.
    match goal with |- context [getTracks Video s ?x] =>
      change (getTracks Video s x) with (getTracks Video s (addTrack s a h1)) end.
    destruct (getTracks Video s (addTrack s a h1)) as [|t gl] eqn:HgV'; [done|].
    simpl in HgV. injection HgV as ->.
    unfold finish_toggle. cbv zeta.
    match goal with |- context [currentCall (vars ?x)] =>
      change (currentCall (vars x)) with (currentCall (vars h1)) end.
    rewrite Hv, Hc.
    match goal with |- context [negb (isScreenSharing (vars ?x))] =>
      change (isScreenSharing (vars x)) with (isScreenSharing (vars h1)) end.
    rewrite Hv, Hf. reflexivity. }
  set (st2' := set_isScreenSharing false
                 (set_localVideo_src (Some o)
                    (showNotification "Screen sharing stopped" Info
                       (set_screenShareBtn_text "Share Screen"
                          (set_localStream (Some o) st1'))))).
  assert (E2 : toggleScreenShare st1' = st2').
  { unfold toggleScreenShare.
    change (isScreenSharing (vars st1')) with true. cbv iota.
    change (originalStream (vars st1')) with (originalStream (vars h1)).
    rewrite Hv, Ho.
    unfold finish_toggle. cbv zeta.
    match goal with |- context [currentCall (vars ?x)] =>
      change (currentCall (vars x)) with (currentCall (vars h1)) end.
    rewrite Hv, Hc. reflexivity. }
  intros st1 st2. subst st2 st1. rewrite E1, E2.
  split; [reflexivity|]. split; [reflexivity|]. split; [reflexivity|].
  split; [reflexivity|].
  split; [exact HgV|].
  split; [exact HgS|].
  split; [unfold track_enabled;
          change (tracks (heap st1')) with (tracks (heap h1)); by rewrite Hold|].
  split; [exact HgO|].
  split; [change (fx (loop h1) = fx (loop st)); by rewrite Hl|].
  split.
  { unfold step.
    change (onended (heap st1')) with (n :: onended (heap h1)).
    rewrite bool_decide_eq_true_2 by left.
    change (isScreenSharing (vars st1')) with true. cbn [andb]. exact E2. }
  split; [reflexivity|]. split; [reflexivity|]. split; [reflexivity|].
  split; [reflexivity|]. split; [reflexivity|].
  split; [change (fx (loop h1) = fx (loop st)); by rewrite Hl|].
  unfold step. change (isScreenSharing (vars st2')) with false.
  by rewrite andb_false_r.
Qed.

Lemma screen_share_without_call_witness :
  currentCall (vars ready_to_dial) = None
  ∧ isScreenSharing (vars ready_to_dial) = false
  ∧ originalStream (vars ready_to_dial) = Some 2
  ∧ streams (heap ready_to_dial) !! 2 = Some [0; 1]
  ∧ next_id (heap ready_to_dial) = 4
  ∧ getTracks Audio 2 ready_to_dial = [0]
  ∧ getTracks Audio 5 (toggleScreenShare_resume (DisplayStream []) ready_to_dial) = [0]
  ∧ localStream (vars (toggleScreenShare
                         (toggleScreenShare_resume (DisplayStream []) ready_to_dial)))
    = Some 2.
Proof.
  assert (H1 : currentCall (vars ready_to_dial) = None) by (vm_compute; reflexivity).
  assert (H2 : isScreenSharing (vars ready_to_dial) = false) by (vm_compute; reflexivity).
  assert (H3 : originalStream (vars ready_to_dial) = Some 2) by (vm_compute; reflexivity).
  assert (H4 : streams (heap ready_to_dial) !! 2 = Some [0; 1])
    by (vm_compute; reflexivity).
  assert (H5 : next_id (heap ready_to_dial) = 4) by (vm_compute; reflexivity).
  assert (H6 : getTracks Audio 2 ready_to_dial = [0]) by (vm_compute; reflexivity).
  assert (H7 : 2 < next_id (heap ready_to_dial)) by (rewrite H5; lia).
  assert (H8 : Forall (λ t, t < next_id (heap ready_to_dial)) [0; 1])
    by (rewrite H5; repeat constructor).
  pose proof (screen_share_without_call [] 2 0 [0; 1] [] ready_to_dial H1 H2
                (not_elem_of_nil Audio) H3 H4 H7 H8 H6) as H.
  cbv zeta in H. rewrite H5 in H.
  destruct H as (_ & _ & _ & _ & _ & Ha & _ & _ & _ & _ & Hb & _).
  split; [exact H1|]. split; [exact H2|]. split; [exact H3|]. split; [exact H4|].
  split; [exact H5|]. split; [exact H6|]. split; [exact Ha | exact Hb].
Defined.

Lemma registry_call_close c st : registry (call_close c st) = registry st.
Proof. destruct (call_close_cases c st) as [-> | (o & _ & [-> | ->])]; done. Qed.

Lemma registry_peer_call remote stream ts st :
  registry (peer_call remote stream ts st).2 = registry st.
Proof.
  unfold peer_call. destruct (peer (vars st)) as [p|]; [|done].
  destruct (peers (heap st) !! p) as [o|]; [|done]. by destruct (p_callable o).
Qed.

Lemma registry_alloc_stream ks st :
  registry (alloc_stream ks st).2 = registry st.
Proof.
  destruct (alloc_stream_frame ks st) as (Hv & _ & _ & _ & Hp).
  unfold registry. by rewrite Hv, Hp.
Qed.

Lemma registry_enable_first k s st : registry (enable_first k s st) = registry st.
Proof.
  unfold enable_first. destruct (getTracks k s st) as [|t ?]; [done|].
  by destruct (track_enabled st t).
Qed.

Lemma registry_endCall st : registry (endCall st) = registry st.
Proof.
  unfold endCall. destruct (currentCall (vars st)) as [c|]; [|done].
  forget_by (registry_call_close c st) (call_close c st) as s1 H1. through H1.
Qed.

Lemma registry_connection_timeout c st :
  registry (connection_timeout c st) = registry st.
Proof.
  unfold connection_timeout. destruct (remoteVideo_src (page st)); [done|]. cbv zeta.
  match goal with |- context [call_close c ?s] =>
    forget_by (registry_call_close c s) (call_close c s) as s1 H1 end.
  through H1.
Qed.

Lemma registry_connection_check c st :
  registry (connection_check c st) = registry st.
Proof.
  unfold connection_check. destruct (negb _); [done|].
  destruct (calls (heap st) !! c) as [o|]; [|done].
  destruct (_ && _); [|done]. destruct (ice_failed o); [|done]. cbv zeta.
  match goal with |- context [call_close c ?s] =>
    forget_by (registry_call_close c s) (call_close c s) as s1 H1 end.
  through H1.
Qed.

Lemma registry_stall_redial peerId st :
  registry (stall_redial peerId st) = registry st.
Proof.
  unfold stall_redial. destruct (peer_ready st); [|done].
  pose proof (registry_peer_call peerId (localStream (vars st)) None st) as H.
  by destruct (peer_call _ _ _ st) as [[n|] st2].
Qed.

Lemma registry_replace_redial peerId st :
  registry (replace_redial peerId st) = registry st.
Proof.
  unfold replace_redial.
  pose proof (registry_peer_call peerId (localStream (vars st)) None st) as H.
  by destruct (peer_call _ _ _ st) as [[n|] st2].
Qed.

Lemma registry_replaceCallWithNewStream st st' :
  replaceCallWithNewStream st = Some st' → registry st' = registry st.
Proof.
  unfold replaceCallWithNewStream. destruct (currentCall (vars st)) as [c|]; [|done].
  destruct (calls (heap st) !! c) as [o|]; [|done]. intros [= <-].
  forget_by (registry_call_close c st) (call_close c st) as s1 H1. through H1.
Qed.

Lemma registry_update_call c st :
  registry (update_call c st).1 = registry st.
Proof.
  unfold update_call.
  assert (Hfb : registry (match replaceCallWithNewStream st with
     | Some st' => (st', false)
     | None => (showNotification "Failed to update call with screen sharing" Error st, false)
     end).1 = registry st).
  { destruct (replaceCallWithNewStream st) eqn:E; [|done].
    by apply registry_replaceCallWithNewStream. }
  destruct (senders_of c st) as [l|]; [|exact Hfb].
  destruct (find_video_sender st l) as [vs|]; [|exact Hfb].
  destruct (localStream (vars st)) as [s|]; [|done].
  destruct (getTracks Video s st); [exact Hfb|done].
Qed.

Lemma registry_finish_toggle st : registry (finish_toggle st) = registry st.
Proof.
  unfold finish_toggle. cbv zeta.
  set (st1 := set_localVideo_src _ st).
  destruct (currentCall (vars st1)) as [c|].
  - pose proof (registry_update_call c st1) as H.
    destruct (update_call c st1) as [st2 []]; exact H.
  - done.
Qed.

Lemma registry_toggleScreenShare st :
  registry (toggleScreenShare st) = registry st.
Proof.
  unfold toggleScreenShare. destruct (isScreenSharing (vars st)); [|done].
  cbv zeta. by rewrite registry_finish_toggle.
Qed.

Lemma registry_toggleScreenShare_resume r st :
  registry (toggleScreenShare_resume r st) = registry st.
Proof.
  unfold toggleScreenShare_resume. destruct r as [extra|name message]; [|done].
  pose proof (registry_alloc_stream ((Video, true) :: map (λ k, (k, true)) extra) st) as H.
  destruct (alloc_stream _ st) as [s st1]. simpl in H. cbv zeta.
  rewrite registry_finish_toggle.
  set (st2 := match originalStream (vars st1) with Some _ => _ | None => _ end).
  assert (H2 : registry st2 = registry st1).
  { subst st2. destruct (originalStream (vars st1)) as [o|]; [|done].
    by destruct (getTracks Audio o st1). }
  clearbody st2.
  match goal with |- context [getTracks Video s ?x] => destruct (getTracks Video s x) end;
    by rewrite <- H, <- H2.
Qed.

Lemma registry_toggleAudio st : registry (toggleAudio st) = registry st.
Proof.
  unfold toggleAudio. destruct (localStream (vars st)) as [s|]; [|done].
  by destruct (getTracks Audio s st).
Qed.

Lemma registry_toggleVideo st : registry (toggleVideo st) = registry st.
Proof.
  unfold toggleVideo. destruct (localStream (vars st)) as [s|]; [|done].
  by destruct (getTracks Video s st).
Qed.

Lemma registry_on_peer_error e st : registry (on_peer_error e st) = registry st.
Proof.
  unfold on_peer_error. cbv zeta.
  match goal with |- context [currentCall (vars ?x)] => destruct (currentCall (vars x)) end;
    by destruct e.
Qed.

Lemma registry_on_call_stream c s st :
  registry (on_call_stream c s st) = registry st.
Proof.
  unfold on_call_stream. cbv zeta.
  match goal with |- context [enable_first Audio s ?x] =>
    forget_by (registry_enable_first Audio s x) (enable_first Audio s x) as s2 H2 end.
  revert H2.
  match goal with |- context [enable_first Video s ?x] =>
    forget_by (registry_enable_first Video s x) (enable_first Video s x) as s1 H1 end.
  intros H2. through H2. through H1.
Qed.

Lemma registry_replace_settled ok st :
  registry (replace_settled ok st) = registry st.
Proof.
  unfold replace_settled. destruct ok; [done|].
  destruct (replaceCallWithNewStream st) eqn:E; [|done].
  by apply registry_replaceCallWithNewStream.
Qed.

Lemma registry_reconnect_task st : registry (reconnect_task st) = registry st.
Proof.
  unfold reconnect_task. destruct (_ <? _)%nat; [|reflexivity].
  cbv zeta. change (peer (vars (set_reconnectAttempts _ st))) with (peer (vars st)).
  destruct (peer (vars st)); reflexivity.
Qed.

Lemma one_registration_same st st' :
  registry st' = registry st → one_registration st → one_registration st'.
Proof. unfold one_registration. by intros [= -> ->]. Qed.

(** A registration is changed in place. *)
Lemma one_registration_alter f p st :
  never_revives f → one_registration st →
  one_registration (set_peers (alter f p (peers (heap st))) st).
Proof.
  intros Hf [H1 H2]. split; simpl.
  - intros q o Hq Hd. destruct (decide (q = p)) as [->|Hne].
    + rewrite lookup_alter_eq in Hq. destruct (peers (heap st) !! p) as [o'|] eqn:E; [|done].
      simpl in Hq. injection Hq as <-. apply Hf in Hd. by apply (H1 p o').
    + rewrite lookup_alter_ne in Hq by done. by apply (H1 q o).
  - intros q Hq. destruct (decide (q = p)) as [->|Hne].
    + rewrite lookup_alter_eq. destruct (H2 p Hq) as [o ->]. by eexists.
    + rewrite lookup_alter_ne by done. by apply H2.
Qed.

(** initializePeerConnection destroys the registration it replaces. *)
Lemma one_registration_initializePeerConnection st :
  one_registration st → one_registration (initializePeerConnection st).
Proof.
  intros [H1 H2]. unfold initializePeerConnection. cbv zeta.
  destruct (peer (vars st)) as [p0|] eqn:Ep; split; simpl.
  - intros q o Hq Hd. destruct (decide (q = next_id (heap st))) as [->|Hne]; [done|].
    rewrite lookup_insert_ne in Hq by done.
    destruct (decide (q = p0)) as [->|Hne0].
    + rewrite lookup_alter_eq in Hq. destruct (peers (heap st) !! p0); [|done].
      simpl in Hq. injection Hq as <-. done.
    + rewrite lookup_alter_ne in Hq by done. specialize (H1 q o Hq Hd). congruence.
  - intros q [= <-]. rewrite lookup_insert_eq. by eexists.
  - intros q o Hq Hd. destruct (decide (q = next_id (heap st))) as [->|Hne]; [done|].
    rewrite lookup_insert_ne in Hq by done. by specialize (H1 q o Hq Hd).
  - intros q [= <-]. rewrite lookup_insert_eq. by eexists.
Qed.

Lemma one_registration_connectToPeer st :
  one_registration st → one_registration (connectToPeer st).
Proof.
  intros Hs. unfold connectToPeer. case_bool_decide.
  { by apply (one_registration_same st). }
  cbv zeta.
  set (st1 := match currentCall _ with Some c => call_close c _ | None => _ end).
  assert (H1 : registry st1 = registry st).
  { subst st1. destruct (currentCall _); [by rewrite registry_call_close | done]. }
  apply (one_registration_same st st1 H1) in Hs. clear H1.
  clearbody st1. destruct (peer_ready st1); simpl.
  - pose proof (registry_peer_call (peerId_trimmed (page st)) (localStream (vars st1))
                  (Some (now (loop st1))) st1) as H2.
    destruct (peer_call _ _ _ st1) as [[n|] st2]; simpl in H2;
      by apply (one_registration_same st1).
  - apply one_registration_initializePeerConnection in Hs.
    revert Hs. generalize (initializePeerConnection st1). intros s2 Hs.
    by apply (one_registration_same s2).
Qed.

Lemma one_registration_init_resume r st :
  one_registration st → one_registration (init_resume r st).
Proof.
  intros Hs. unfold init_resume. destruct r as [ks|name message];
    [|by apply (one_registration_same st)].
  cbv zeta.
  pose proof (registry_alloc_stream (map (λ k, (k, true)) ks) (set_awaiting_media false st))
    as H.
  destruct (alloc_stream _ _) as [s st1]. simpl in H.
  apply (one_registration_same st st1 H) in Hs. clear H.
  match goal with |- context [initializePeerConnection ?x] =>
    assert (Hx : one_registration x) by (by apply (one_registration_same st1));
    apply one_registration_initializePeerConnection in Hx;
    revert Hx; generalize (initializePeerConnection x) end.
  intros s2 Hx. by apply (one_registration_same s2).
Qed.

Lemma one_registration_before_unload st :
  one_registration st → one_registration (before_unload st).
Proof.
  intros Hs. unfold before_unload.
  set (st1 := match currentCall _ with Some c => call_close c _ | None => _ end).
  assert (H1 : registry st1 = registry st).
  { subst st1. destruct (currentCall _); [by rewrite registry_call_close | done]. }
  apply (one_registration_same st st1 H1) in Hs. clear H1.
  clearbody st1. destruct (peer (vars st1)) as [p|] eqn:Ep; [|done].
  unfold peer_destroy. cbv zeta.
  apply (one_registration_alter _ p (emit (FxDestroy p) st1)); [by intros o|].
  by apply (one_registration_same st1).
Qed.

Lemma one_registration_run_task k st :
  one_registration st → one_registration (run_task k st).
Proof.
  intros Hs. destruct k; simpl.
  - by apply (one_registration_same st).
  - apply (one_registration_same st); [apply registry_reconnect_task | done].
  - by apply one_registration_initializePeerConnection.
  - by apply one_registration_connectToPeer.
  - apply (one_registration_same st); [apply registry_connection_timeout | done].
  - apply (one_registration_same st); [apply registry_connection_check | done].
  - apply (one_registration_same st); [apply registry_stall_redial | done].
  - apply (one_registration_same st); [apply registry_replace_redial | done].
  - unfold checkConnectivity. destruct (negb _); [by apply (one_registration_same st)|].
    destruct (peer_healthy st); [done|]. by apply one_registration_initializePeerConnection.
Qed.

Lemma one_registration_step e st :
  one_registration st → one_registration (step e st).
Proof.
  intros Hs.
  assert (Hsame : ∀ st', registry st' = registry st → one_registration st').
  { intros st' H. by apply (one_registration_same st). }
  destruct e; simpl.
  - apply Hsame. by destruct (bool_decide _).
  - destruct (awaiting_media _); [by apply one_registration_init_resume | done].
  - by apply Hsame.
  - destruct (listeners _); [by apply one_registration_connectToPeer | done].
  - apply Hsame. destruct (_ && _); [apply registry_toggleAudio | done].
  - apply Hsame. destruct (_ && _); [apply registry_toggleVideo | done].
  - apply Hsame. destruct (_ && _); [apply registry_toggleScreenShare | done].
  - apply Hsame. destruct (_ && _); [apply registry_endCall | done].
  - apply Hsame. destruct (awaiting_display _); [done|].
    by rewrite registry_toggleScreenShare_resume.
  - apply Hsame. destruct (_ && _); [apply registry_toggleScreenShare | done].
  - apply Hsame. destruct (awaiting_replace _); [done|].
    by rewrite registry_replace_settled.
  - by apply Hsame.
  - by apply one_registration_before_unload.
  - by apply Hsame.
  - unfold fire. destruct (take_due _ _ _) as [rest|]; [|done].
    apply one_registration_run_task. apply Hsame. by destruct (period k).
  - destruct (live_peer _ _); [|done]. cbv zeta. unfold on_peer_open. cbv zeta.
    match goal with |- one_registration (set_reconnectAttempts _ (set_status _ _
                         (set_roomId_text _ ?x))) =>
      apply (one_registration_same x); [reflexivity|] end.
    by apply one_registration_alter; [intros o|].
  - apply Hsame. destruct (live_peer _ _); [|done]. by unfold on_peer_call.
  - destruct (bool_decide _); [|done]. cbv zeta. unfold on_peer_disconnected. cbv zeta.
    match goal with |- one_registration (setTimer _ _ (set_status _ _ ?x)) =>
      apply (one_registration_same x); [reflexivity|] end.
    by apply one_registration_alter; [intros o|].
  - apply Hsame. by destruct (bool_decide _).
  - apply Hsame. destruct (bool_decide _); [apply registry_on_peer_error | done].
  - apply Hsame. destruct (known_call _ _); [|done].
    pose proof (registry_alloc_stream ks st) as H.
    destruct (alloc_stream ks st) as [s st1]. by rewrite registry_on_call_stream.
  - apply Hsame. by destruct (known_call _ _).
  - apply Hsame. by destruct (known_call _ _).
  - destruct (live_peer _ _); [|done]. by apply one_registration_alter; [intros o|].
  - apply Hsame. destruct (calls (heap st) !! c) as [o|]; [|done]. by destruct (c_closed o).
Qed.

(** X11.  Whatever happens, the script keeps one registration at a time:
    in every state reached from the start of the script, by any sequence
    of user actions, timers and library events, every registration that
    was created and not destroyed is the one [peer] refers to, and [peer]
    refers to a registration that was created.  initializePeerConnection,
    reached from start-up, a dial, a socket error and the connectivity
    check, destroys the registration it replaces. *)
Theorem one_registration_at_a_time (html : Page) (t0 : Z) (es : list event) :
  one_registration (run es (boot html t0))
  ∧ ∀ p, live_peer p (run es (boot html t0)) = true →
         peer (vars (run es (boot html t0))) = Some p.
Proof.
  assert (H : one_registration (run es (boot html t0))).
  { assert (H0 : one_registration (boot html t0)).
    { split; [intros p o Hp; simpl in Hp; by rewrite lookup_empty in Hp | by intros p]. }
    revert H0. generalize (boot html t0). unfold run.
    induction es as [|e es IH]; intros st Hst; [exact Hst|].
    simpl. apply IH. by apply one_registration_step. }
  split; [exact H|]. intros p Hp. unfold live_peer in Hp.
  destruct (peers (heap (run es (boot html t0))) !! p) as [o|] eqn:E; [|done].
  apply (proj1 H p o E). by destruct (p_destroyed o).
Qed.

Lemma one_registration_at_a_time_witness :
  let st := run [EvLoad; EvUserMedia (GumStream [Audio; Video]); EvPeerOpen 3 "me";
                 EvPeerError 3 SocketError; EvTime 3000; EvFire TReinit]
              (boot blank_page 0) in
  live_peer 3 st = false ∧ live_peer 4 st = true ∧ peer (vars st) = Some 4.
Proof.
  cbv zeta. split; [vm_compute; reflexivity|].
  assert (H : live_peer 4 (run [EvLoad; EvUserMedia (GumStream [Audio; Video]);
                                EvPeerOpen 3 "me"; EvPeerError 3 SocketError;
                                EvTime 3000; EvFire TReinit] (boot blank_page 0)) = true)
    by (vm_compute; reflexivity).
  split; [exact H|].
  exact (proj2 (one_registration_at_a_time blank_page 0
                  [EvLoad; EvUserMedia (GumStream [Audio; Video]); EvPeerOpen 3 "me";
                   EvPeerError 3 SocketError; EvTime 3000; EvFire TReinit]) 4 H).
Defined.
